(** * sasi-elderlyUI: session expiry, login and chat state machines

    A shallow embedding of the client-side logic of the elderly chat UI:
    - [ElderlyAuthContext]  app/contexts/ElderlyAuthContext.tsx
    - [PageBackup]          app/pageBackup.tsx (login page)
    - [ProcessHooks]        api/chat/ProcessText, api/chat/ProcessAudio
    - [ChatPage]            app/chat page built on the two hooks
    - [ChatPageCopy]        app/chat/page copy.tsx (fetch-based page)

    React state is a record, every handler is a function from the state
    before the handler to the state after it, and the browser objects the
    handlers touch (localStorage, the clock, the outcome of a fetch, the
    media recorders) are passed explicitly.

    Conventions:
    - times are milliseconds since the epoch; [now] is what [new Date()]
      or [Date.now()] returns when the handler runs;
    - an [async] handler is cut at its [await]: one function for the part
      that runs at once, one for the part that runs when the awaited
      outcome arrives, the outcome being an argument;
    - localStorage is a finite map from keys to strings whose methods do
      not throw;
    - browser built-ins (JSON, atob, Date parsing, trim) are parameters of
      the modules that call them, so every theorem holds for any
      behaviour of theirs;
    - rendering, scrolling, navigation targets other than the pushed
      route, audio playback and the recorded audio data are left out: no
      handler decision modelled here depends on them. *)

From Stdlib Require Import ZArith QArith String Ascii List Bool Lia.
From stdpp Require Import base option list gmap strings.

Local Open Scope string_scope.
Local Open Scope list_scope.

(** ** JavaScript runtime notions shared by all modules *)
Module JS.

(** The completion of a (possibly awaited) JavaScript computation:
    a value, or a thrown exception / rejected promise. *)
Inductive completion (A : Type) : Type :=
| Normal (a : A)
| Throw (e : string).
Arguments Normal {A} a.
Arguments Throw {A} e.

Definition bind {A B} (c : completion A) (k : A -> completion B) : completion B :=
  match c with
  | Normal a => k a
  | Throw e => Throw e
  end.

(** [try { body } catch (e) { handler e }] *)
Definition try_catch {A} (body : completion A) (handler : string -> A) : A :=
  match body with
  | Normal a => a
  | Throw e => handler e
  end.

(** Truthiness of a string: only the empty string is falsy. *)
Definition truthy (s : string) : bool :=
  match s with
  | EmptyString => false
  | String _ _ => true
  end.

(** Truthiness of [string | null | undefined]. *)
Definition truthy_opt (o : option string) : bool :=
  match o with
  | Some s => truthy s
  | None => false
  end.

(** [a || b] on strings where [a] may be missing. *)
Definition or_else (a : option string) (b : string) : string :=
  match a with
  | Some s => if truthy s then s else b
  | None => b
  end.

(** A [Date]: a time value in milliseconds since the epoch, or an
    Invalid Date (whose [getTime()] is NaN). *)
Inductive Date : Type :=
| ValidDate (ms : Z)
| InvalidDate.

(** A JavaScript number restricted to what the code computes with:
    a rational, or NaN ([None]). *)
Definition number := option Q.

Definition getTime (d : Date) : option Z :=
  match d with
  | ValidDate ms => Some ms
  | InvalidDate => None
  end.

(** [x >= q] and [x < q]; every comparison with NaN is false. *)
Definition ge (x : number) (q : Q) : bool :=
  match x with
  | Some v => Qle_bool q v
  | None => false
  end.

Definition lt (x : number) (q : Q) : bool :=
  match x with
  | Some v => negb (Qle_bool q v)
  | None => false
  end.

End JS.

Notation "x <- c ;; k" := (JS.bind c (fun x => k))
  (at level 60, c at next level, right associativity).

(** ** app/contexts/ElderlyAuthContext.tsx *)
Module ElderlyAuthContext.
Import JS.

Record ElderlyData := {
  elderly_userid : string;
  preferred_name : string;
  admin_id : string;
  caregiver_assigned : string;
}.

(** The provider's [useState] cells. *)
Record AuthState := {
  token : option string;
  elderlyData : option ElderlyData;
  lastActivity : option Date;
  tokenCreatedAt : option Date;
  logoutWarning : option string;
}.

(** The provider state together with the browser's localStorage. *)
Record World := {
  auth : AuthState;
  localStorage : gmap string string;
}.

(** Built-ins the provider calls. *)
Class Runtime := {
  JSON_stringify : ElderlyData -> string;
  JSON_parse : string -> completion (option ElderlyData);
  toISOString : Z -> string;
  (** [new Date(s)] *)
  Date_parse : string -> Date;
  (** Whether [localStorage.setItem(k, v)] stores the value in the given
      storage; when it does not (the quota is exceeded, storage is
      disabled) the call throws. *)
  setItem_accepts : string -> string -> gmap string string -> bool;
}.

Definition isAuthenticated (s : AuthState) : bool := truthy_opt (token s).

Section WithRuntime.
Context {R : Runtime}.

(** The lazy [useState] initialisers, run when the page (re)loads. *)
Definition init_token (ls : gmap string string) : option string :=
  ls !! "elderlyToken".

Definition init_elderlyData (ls : gmap string string) : option ElderlyData :=
  match ls !! "elderlyData" with
  | Some d => if truthy d then try_catch (JSON_parse d) (fun _ => None) else None
  | None => None
  end.

Definition init_date (key : string) (ls : gmap string string) : option Date :=
  match ls !! key with
  | Some a => if truthy a then Some (Date_parse a) else None
  | None => None
  end.

Definition load (ls : gmap string string) : World :=
  {| auth := {| token := init_token ls;
                elderlyData := init_elderlyData ls;
                lastActivity := init_date "elderlyLastActivity" ls;
                tokenCreatedAt := init_date "elderlyTokenCreatedAt" ls;
                logoutWarning := None |};
     localStorage := ls |}.

(** [login], on a storage that takes its four writes. *)
Definition login (newToken : string) (data : ElderlyData) (now : Z) (w : World) : World :=
  {| auth := {| token := Some newToken;
                elderlyData := Some data;
                lastActivity := Some (ValidDate now);
                tokenCreatedAt := Some (ValidDate now);
                logoutWarning := None |};
     localStorage :=
       <["elderlyTokenCreatedAt" := toISOString now]>
         (<["elderlyLastActivity" := toISOString now]>
            (<["elderlyData" := JSON_stringify data]>
               (<["elderlyToken" := newToken]> (localStorage w)))) |}.

End WithRuntime.

(** [logout]: the state cells are cleared; the token stays in
    localStorage, the three other entries are removed. *)
Definition logout (w : World) : World :=
  {| auth := {| token := None;
                elderlyData := None;
                lastActivity := None;
                tokenCreatedAt := None;
                logoutWarning := None |};
     localStorage :=
       delete "elderlyTokenCreatedAt"
         (delete "elderlyLastActivity"
            (delete "elderlyData" (localStorage w))) |}.

Definition setLogoutWarning (v : option string) (w : World) : World :=
  {| auth := {| token := token (auth w);
                elderlyData := elderlyData (auth w);
                lastActivity := lastActivity (auth w);
                tokenCreatedAt := tokenCreatedAt (auth w);
                logoutWarning := v |};
     localStorage := localStorage w |}.

(** [(now.getTime() - d.getTime()) / unit].  The quotient is kept as an
    exact rational: for whole milliseconds the double the code computes
    compares with 14, 15, 23 and 24 exactly as the rational does. *)
Definition elapsed (now : Z) (d : Date) (unit : positive) : number :=
  match getTime d with
  | Some t => Some ((now - t) # unit)
  | None => None
  end.

Definition inactiveMinutes (now : Z) (lastActivity : Date) : number :=
  elapsed now lastActivity (1000 * 60).

Definition tokenAgeHours (now : Z) (tokenCreatedAt : Date) : number :=
  elapsed now tokenCreatedAt (1000 * 60 * 60).

(** One run of the interval callback, with the [lastActivity] and
    [tokenCreatedAt] its closure captured. *)
Definition checkExpiration (now : Z) (lastActivity tokenCreatedAt : Date)
    (w : World) : World :=
  let inactiveMinutes := inactiveMinutes now lastActivity in
  let tokenAgeHours := tokenAgeHours now tokenCreatedAt in
  if ge inactiveMinutes 14 && lt inactiveMinutes 15 then
    setLogoutWarning (Some "Logging-out in 1 minute due to inactivity") w
  else if ge tokenAgeHours 23 && lt tokenAgeHours 24 then
    setLogoutWarning (Some "Logging-out in 1 minute") w
  else if ge inactiveMinutes 15 then
    logout w
  else if ge tokenAgeHours 24 then
    logout w
  else
    setLogoutWarning None w.

(** The effect installs the interval only while token, lastActivity and
    tokenCreatedAt are all truthy; [tick] is one firing of the interval
    in world [w] (nothing fires when the guard fails). *)
Definition tick (now : Z) (w : World) : World :=
  match token (auth w), lastActivity (auth w), tokenCreatedAt (auth w) with
  | Some t, Some la, Some tc =>
      if truthy t then checkExpiration now la tc w else w
  | _, _, _ => w
  end.

(** The parsed body of the reply of POST /refresh_elderly_activity. *)
Record RefreshResult := {
  success : bool;
  new_token : option string;
  message : option string;
}.

Section WithRuntime.
Context {R : Runtime}.

(** [localStorage.setItem(k, v)] *)
Definition setItem (k v : string) (ls : gmap string string)
  : completion (gmap string string) :=
  if setItem_accepts k v ls then Normal (<[k := v]> ls)
  else Throw "QuotaExceededError".

(** The [try] block of [refreshActivity].  [fetch tok] is the outcome of
    posting [{ token: tok }] and parsing the reply: [Throw] stands for a
    rejected fetch, a body that is not JSON, or a reply whose fields
    cannot be read.  The result is the world the block leaves behind and
    how it ends: the three setters have run before the first write, and
    the first write has been stored before the second is tried. *)
Definition refreshActivity_try (fetch : string -> completion RefreshResult)
    (now : Z) (tok : string) (w : World) : World * completion bool :=
  match fetch tok with
  | Throw e => (w, Throw e)
  | Normal result =>
      match success result, new_token result with
      | true, Some nt =>
          if truthy nt then
            let a := {| token := Some nt;
                        elderlyData := elderlyData (auth w);
                        lastActivity := Some (ValidDate now);
                        tokenCreatedAt := tokenCreatedAt (auth w);
                        logoutWarning := None |} in
            match setItem "elderlyToken" nt (localStorage w) with
            | Throw e => ({| auth := a; localStorage := localStorage w |}, Throw e)
            | Normal ls1 =>
                match setItem "elderlyLastActivity" (toISOString now) ls1 with
                | Throw e => ({| auth := a; localStorage := ls1 |}, Throw e)
                | Normal ls2 => ({| auth := a; localStorage := ls2 |}, Normal true)
                end
            end
          else (w, Normal false)
      | _, _ => (w, Normal false)
      end
  end.

(** [refreshActivity]: the [catch] logs and returns false. *)
Definition refreshActivity (fetch : string -> completion RefreshResult)
    (now : Z) (w : World) : completion (World * bool) :=
  match token (auth w) with
  | Some tok =>
      if truthy tok then
        let '(w', r) := refreshActivity_try fetch now tok w in
        Normal (w', try_catch r (fun _ => false))
      else Normal (w, false)
  | None => Normal (w, false)
  end.

End WithRuntime.

End ElderlyAuthContext.

(** ** app/pageBackup.tsx: the login page *)
Module PageBackup.
Import JS.

(** *** String helpers used by [decodeJWT] *)

(** [s.split(sep)] for a one-character separator. *)
Fixpoint split (sep : ascii) (s : string) : list string :=
  match s with
  | EmptyString => [EmptyString]
  | String c r =>
      if Ascii.eqb c sep then EmptyString :: split sep r
      else match split sep r with
           | h :: t => String c h :: t
           | [] => [String c EmptyString]
           end
  end.

(** [s.replace(/from/g, to)] for single characters. *)
Fixpoint replace_all (from to : ascii) (s : string) : string :=
  match s with
  | EmptyString => EmptyString
  | String c r =>
      String (if Ascii.eqb c from then to else c) (replace_all from to r)
  end.

Definition hex_digit (n : N) : ascii :=
  nth (N.to_nat n) (list_ascii_of_string "0123456789abcdef") "0"%char.

(** [n.toString(16)] for a character code of a binary string (below 256). *)
Definition toString16 (n : N) : string :=
  if (n <? 16)%N then String (hex_digit n) EmptyString
  else String (hex_digit (n / 16)) (String (hex_digit (n mod 16)) EmptyString).

(** [s.slice(-k)] *)
Definition slice_last (k : nat) (s : string) : string :=
  substring (String.length s - k) k s.

(** ["%" + ("00" + c.charCodeAt(0).toString(16)).slice(-2)] *)
Definition percent (c : ascii) : string :=
  "%" +:+ slice_last 2 ("00" +:+ toString16 (N_of_ascii c)).

(** [bin.split("").map(percent).join("")] *)
Fixpoint percent_encode (bin : string) : string :=
  match bin with
  | EmptyString => EmptyString
  | String c r => percent c +:+ percent_encode r
  end.

(** *** JWT decoding *)

(** The payload at its declared type: every field optional, numbers as
    rationals. *)
Record JWTPayload := {
  elderly_userid : option Q;
  admin_id : option Q;
  caregiver_assigned : option string;
  session_id : option string;
  exp : option Q;
  iat : option Q;
  last_activity : option Q;
}.

(** Built-ins [decodeJWT] calls; each may throw.  [JSON_parse] yields the
    parsed value at the type the code casts it to, [None] being [null]. *)
Class Runtime := {
  atob : string -> completion string;
  decodeURIComponent : string -> completion string;
  JSON_parse : string -> completion (option JWTPayload);
}.

Section WithRuntime.
Context {R : Runtime}.

Definition decodeJWT_try (token : string) : completion (option JWTPayload) :=
  base64Url <- match split "." token !! 1%nat with
               | Some seg => Normal seg
               | None => Throw "TypeError"
               end ;;
  let base64 := replace_all "_" "/" (replace_all "-" "+" base64Url) in
  bin <- atob base64 ;;
  jsonPayload <- decodeURIComponent (percent_encode bin) ;;
  JSON_parse jsonPayload.

Definition decodeJWT (token : string) : option JWTPayload :=
  try_catch (decodeJWT_try token) (fun _ => None).

(** [nowMs] is [Date.now()]. *)
Definition isTokenExpired (token : string) (nowMs : Z) : bool :=
  match decodeJWT token with
  | None => true
  | Some payload =>
      match exp payload with
      | None => true
      | Some e =>
          if Qeq_bool e 0 then true
          else
            let now := (nowMs / 1000)%Z in
            negb (Qle_bool (inject_Z now) e)
      end
  end.

(** The condition of the redirect-to-chat effect. *)
Definition redirectsToChat (a : ElderlyAuthContext.AuthState) (nowMs : Z) : bool :=
  match ElderlyAuthContext.token a with
  | Some t =>
      ElderlyAuthContext.isAuthenticated a && truthy t
      && negb (isTokenExpired t nowMs)
  | None => false
  end.

End WithRuntime.

(** *** Face verification step *)

Inductive Step := start | phone | face.

Record ElderlyDetails := {
  userid : string;
  preferred_name : option string;
  details_admin_id : option string;
  details_caregiver_assigned : option string;
  phone_number : option string;
}.

(** A camera stream; [stopped] once all its tracks were stopped. *)
Record MediaStream := { stopped : bool }.

Record LoginState := {
  showWelcomeCard : bool;
  step : Step;
  phoneNumber : string;
  elderlyDetails : option ElderlyDetails;
  isCapturing : bool;
  error : string;
  isLoading : bool;
  faceVerificationFailures : nat;
  streamRef : option MediaStream;
}.

(** What the refs point to when [captureAndVerify] runs. *)
Record Dom := {
  videoRef : bool;
  canvasRef : bool;
  context2d : bool;
}.

(** The parsed reply of POST /verify_elderly_face. *)
Record VerifyResult := {
  success : bool;
  token : option string;
  message : option string;
}.

Definition stopTracks (s : option MediaStream) : option MediaStream :=
  match s with
  | Some _ => Some {| stopped := true |}
  | None => None
  end.

(** The state after the [try] body, before [finally]. *)
Definition verified (l : LoginState) : LoginState :=
  {| showWelcomeCard := showWelcomeCard l; step := step l;
     phoneNumber := phoneNumber l; elderlyDetails := elderlyDetails l;
     isCapturing := isCapturing l; error := ""; isLoading := true;
     faceVerificationFailures := 0;
     streamRef := stopTracks (streamRef l) |}.

Definition failed (msg : string) (l : LoginState) : LoginState :=
  {| showWelcomeCard := showWelcomeCard l; step := step l;
     phoneNumber := phoneNumber l; elderlyDetails := elderlyDetails l;
     isCapturing := isCapturing l; error := msg; isLoading := true;
     faceVerificationFailures := faceVerificationFailures l + 1;
     streamRef := streamRef l |}.

Definition setIsLoading (b : bool) (l : LoginState) : LoginState :=
  {| showWelcomeCard := showWelcomeCard l; step := step l;
     phoneNumber := phoneNumber l; elderlyDetails := elderlyDetails l;
     isCapturing := isCapturing l; error := error l; isLoading := b;
     faceVerificationFailures := faceVerificationFailures l;
     streamRef := streamRef l |}.

(** [x ?? ""] *)
Definition nullish (o : option string) : string :=
  match o with Some s => s | None => "" end.

Section WithAuthRuntime.
Context {A : ElderlyAuthContext.Runtime}.

(** The [try] body of [captureAndVerify]: [fetch uid] is the outcome of
    posting the captured frame for user [uid] and parsing the reply.
    The result is the world, the page state and the route pushed. *)
Definition captureAndVerify_try (dom : Dom)
    (fetch : string -> completion VerifyResult) (now : Z)
    (d : ElderlyDetails)
    (w : ElderlyAuthContext.World) (l : LoginState)
  : completion (ElderlyAuthContext.World * LoginState * option string) :=
  _ <- (if context2d dom then Normal tt
        else Throw "Canvas context not available") ;;
  result <- fetch (userid d) ;;
  match success result, token result with
  | true, Some t =>
      if truthy t then
        Normal
          (ElderlyAuthContext.login t
             {| ElderlyAuthContext.elderly_userid := userid d;
                ElderlyAuthContext.preferred_name := nullish (preferred_name d);
                ElderlyAuthContext.admin_id := nullish (details_admin_id d);
                ElderlyAuthContext.caregiver_assigned :=
                  nullish (details_caregiver_assigned d) |}
             now w,
           verified l, Some "/chat")
      else
        Normal (w, failed (or_else (message result) "Face verification failed") l, None)
  | _, _ =>
      Normal (w, failed (or_else (message result) "Face verification failed") l, None)
  end.

Definition captureAndVerify (dom : Dom)
    (fetch : string -> completion VerifyResult) (now : Z)
    (w : ElderlyAuthContext.World) (l : LoginState)
  : ElderlyAuthContext.World * LoginState * option string :=
  match videoRef dom, canvasRef dom, elderlyDetails l with
  | true, true, Some d =>
      let '(w', l', route) :=
        try_catch (captureAndVerify_try dom fetch now d w l)
          (fun _ => (w, failed "Failed to verify face. Please try again." l, None)) in
      (w', setIsLoading false l', route)
  | _, _, _ => (w, l, None)
  end.

End WithAuthRuntime.

Definition handleBack (l : LoginState) : LoginState :=
  let toStart :=
    match elderlyDetails l with
    | Some _ => negb (truthy (phoneNumber l))
    | None => false
    end in
  {| showWelcomeCard := if toStart then false else showWelcomeCard l;
     step := if toStart then start else phone;
     phoneNumber := "";
     elderlyDetails := None;
     isCapturing := false;
     error := "";
     isLoading := isLoading l;
     faceVerificationFailures := 0;
     streamRef := None |}.

Definition handleEnterNumber (w : ElderlyAuthContext.World) (l : LoginState)
  : ElderlyAuthContext.World * LoginState :=
  ({| ElderlyAuthContext.auth := ElderlyAuthContext.auth w;
      ElderlyAuthContext.localStorage :=
        delete "elderlyToken" (ElderlyAuthContext.localStorage w) |},
   {| showWelcomeCard := showWelcomeCard l;
      step := phone;
      phoneNumber := "";
      elderlyDetails := None;
      isCapturing := false;
      error := "";
      isLoading := isLoading l;
      faceVerificationFailures := 0;
      streamRef := None |}).

(** The left button of the face step: its label and its handler. *)
Inductive FaceButton := EnterNumber | Back.

Definition faceButton (l : LoginState) : FaceButton :=
  if (5 <=? faceVerificationFailures l)%nat then EnterNumber else Back.

Definition faceButtonLabel (l : LoginState) : string :=
  match faceButton l with
  | EnterNumber => "Enter Number"
  | Back => "Back"
  end.

Definition faceButtonClick (w : ElderlyAuthContext.World) (l : LoginState)
  : ElderlyAuthContext.World * LoginState :=
  match faceButton l with
  | EnterNumber => handleEnterNumber w l
  | Back => (w, handleBack l)
  end.

End PageBackup.

(** ** api/chat/ProcessText and api/chat/ProcessAudio: the two hooks *)
Module ProcessHooks.
Import JS.

Record ProcessTextResponse := {
  text_audio : string;
  text_language : string;
  text_response : string;
}.

(** The payload of a text call; [sessionId] is the optional field. *)
Record ProcessTextPayload := {
  text : string;
  sessionId : option string;
}.

Record ProcessAudioResponse := {
  transcript : option string;
  audio : option string;
  language : option string;
  response : option string;
}.

(** The two [useState] cells of [useProcessText]. *)
Record TextHook := {
  processTextResponse : option ProcessTextResponse;
  processTextResponseLoading : bool;
}.

(** The two [useState] cells of [useProcessAudio]. *)
Record AudioHook := {
  processAudioResponse : option ProcessAudioResponse;
  processAudioResponseLoading : bool;
}.

(** [createProcessText] up to its [await]: the loading flag is raised
    and the request is on its way. *)
Definition createProcessText_begin (h : TextHook) : TextHook :=
  {| processTextResponse := processTextResponse h;
     processTextResponseLoading := true |}.

(** [createProcessText] after the [await]: [outcome] is what [postApi]
    produced.  A failure is logged to the console and nothing else. *)
Definition createProcessText_settle (outcome : completion ProcessTextResponse)
    (h : TextHook) : TextHook :=
  let h' :=
    try_catch
      (response <- outcome ;;
       Normal {| processTextResponse := Some response;
                 processTextResponseLoading := processTextResponseLoading h |})
      (fun _ => h) in
  {| processTextResponse := processTextResponse h';
     processTextResponseLoading := false |}.

Definition createProcessAudio_begin (h : AudioHook) : AudioHook :=
  {| processAudioResponse := processAudioResponse h;
     processAudioResponseLoading := true |}.

Definition createProcessAudio_settle (outcome : completion ProcessAudioResponse)
    (h : AudioHook) : AudioHook :=
  let h' :=
    try_catch
      (response <- outcome ;;
       Normal {| processAudioResponse := Some response;
                 processAudioResponseLoading := processAudioResponseLoading h |})
      (fun _ => h) in
  {| processAudioResponse := processAudioResponse h';
     processAudioResponseLoading := false |}.

End ProcessHooks.

(** ** What both chat pages share *)
Module Chat.

Inductive Role := user | assistant.

Record Message := {
  role : Role;
  content : string;
  timestamp : Z;
}.

Definition Role_eqb (a b : Role) : bool :=
  match a, b with
  | user, user | assistant, assistant => true
  | _, _ => false
  end.

(** [String.prototype.trim]. *)
Class Runtime := { trim : string -> string }.

(** A chat request as it leaves the browser. *)
Inductive Request :=
| TextRequest (url : string) (text : string) (sessionId : option string)
| AudioRequest (url : string) (sessionId : option string).

Definition request_sessionId (r : Request) : option string :=
  match r with
  | TextRequest _ _ s => s
  | AudioRequest _ s => s
  end.

End Chat.

(** ** app/chat/page copy.tsx: the page that calls fetch directly *)
Module ChatPageCopy.
Import JS Chat.

Record State := {
  messages : list Message;
  inputText : string;
  isLoading : bool;
  sessionId : option string;
  error : string;
  isProcessingAudio : bool;
  audioError : string;
}.

(** The parsed reply of POST /chat/elderly. *)
Record ChatResult := {
  success : bool;
  response : option string;
  result_sessionId : option string;
  message : option string;
  token : option string;
}.

(** State after the synchronous prefix of [handleSendMessage]. *)
Definition sending (userMessage : string) (now : Z) (s : State) : State :=
  {| messages := messages s ++ [{| role := user; content := userMessage; timestamp := now |}];
     inputText := "";
     isLoading := true;
     sessionId := sessionId s;
     error := "";
     isProcessingAudio := isProcessingAudio s;
     audioError := "" |}.

Definition setError (msg : string) (s : State) : State :=
  {| messages := messages s; inputText := inputText s; isLoading := isLoading s;
     sessionId := sessionId s; error := msg;
     isProcessingAudio := isProcessingAudio s; audioError := audioError s |}.

Definition setIsLoading (b : bool) (s : State) : State :=
  {| messages := messages s; inputText := inputText s; isLoading := b;
     sessionId := sessionId s; error := error s;
     isProcessingAudio := isProcessingAudio s; audioError := audioError s |}.

(** The success branch; [sid] is the [sessionId] the handler closed over. *)
Definition answered (sid : option string) (answer : string)
    (result : ChatResult) (now : Z) (s : State) : State :=
  {| messages := messages s ++ [{| role := assistant; content := answer; timestamp := now |}];
     inputText := inputText s;
     isLoading := isLoading s;
     sessionId := if negb (truthy_opt sid) && truthy_opt (result_sessionId result)
                  then result_sessionId result else sessionId s;
     error := error s;
     isProcessingAudio := isProcessingAudio s;
     audioError := audioError s |}.

Section WithRuntime.
Context {R : Runtime}.

(** [handleSendMessage]; [fetch] is the outcome of the POST, [now] and
    [now'] the clock when the user message and the reply are added.
    The result is the new state, the requests sent and whether
    [refreshActivity] was called. *)
Definition handleSendMessage (authToken : option string) (hasElderlyData : bool)
    (fetch : Request -> completion ChatResult) (now now' : Z) (s : State)
  : State * list Request * bool :=
  if negb (truthy (trim (inputText s))) || isLoading s
     || negb (truthy_opt authToken) || negb hasElderlyData
     || isProcessingAudio s
  then (s, [], false)
  else
    let userMessage := trim (inputText s) in
    let req := TextRequest "/chat/elderly" userMessage (sessionId s) in
    let s1 := sending userMessage now s in
    let '(s2, refreshed) :=
      try_catch
        (result <- fetch req ;;
         match success result, response result with
         | true, Some answer =>
             if truthy answer then
               Normal (answered (sessionId s) answer result now' s1,
                       truthy_opt (token result))
             else
               Normal (setError (or_else (message result) "Failed to send message") s1, false)
         | _, _ =>
             Normal (setError (or_else (message result) "Failed to send message") s1, false)
         end)
        (fun _ => (setError "Failed to send message. Please try again." s1, false)) in
    (setIsLoading false s2, [req], refreshed).

End WithRuntime.

End ChatPageCopy.

(** ** app/chat page built on [useProcessText] and [useProcessAudio] *)
Module ChatPage.
Import JS Chat ProcessHooks.

(** The page's [useState] and [useRef] cells and the cells of its two
    hooks.  [mediaRecorderRef] holds the identity of a recorder. *)
Record State := {
  messages : list Message;
  inputText : string;
  isLoading : bool;
  isMicMuted : bool;
  sessionId : option string;
  error : string;
  isRecording : bool;
  isProcessingAudio : bool;
  audioError : string;
  mediaRecorderRef : option nat;
  textBeforeRecordingRef : string;
  audioUnlockedRef : bool;
  textHook : TextHook;
  audioHook : AudioHook;
}.

(** What a [startRecording] call closed over when it was invoked. *)
Record Closure := {
  closed_inputText : string;
  closed_sessionId : option string;
}.

(** The browser side: calls of [getUserMedia] not yet settled, the
    recorders that are recording, the recorders stopped whose [onstop]
    has not run yet, the next recorder identity, and every chat request
    sent so far (oldest first). *)
Record Browser := {
  pendingUserMedia : list Closure;
  recording : list (nat * Closure);
  stopping : list (nat * Closure);
  nextRecorder : nat;
  sent : list Request;
}.

Definition init : State :=
  {| messages := []; inputText := ""; isLoading := false; isMicMuted := true;
     sessionId := None; error := ""; isRecording := false;
     isProcessingAudio := false; audioError := ""; mediaRecorderRef := None;
     textBeforeRecordingRef := ""; audioUnlockedRef := false;
     textHook := {| processTextResponse := None; processTextResponseLoading := false |};
     audioHook := {| processAudioResponse := None; processAudioResponseLoading := false |} |}.

Definition init_browser : Browser :=
  {| pendingUserMedia := []; recording := []; stopping := [];
     nextRecorder := 0; sent := [] |}.

Definition placeholder : string := "🎤 Voice message...".

Definition setMessages (f : list Message -> list Message) (s : State) : State :=
  {| messages := f (messages s); inputText := inputText s; isLoading := isLoading s;
     isMicMuted := isMicMuted s; sessionId := sessionId s; error := error s;
     isRecording := isRecording s; isProcessingAudio := isProcessingAudio s;
     audioError := audioError s; mediaRecorderRef := mediaRecorderRef s;
     textBeforeRecordingRef := textBeforeRecordingRef s;
     audioUnlockedRef := audioUnlockedRef s;
     textHook := textHook s; audioHook := audioHook s |}.

Definition setInputText (v : string) (s : State) : State :=
  {| messages := messages s; inputText := v; isLoading := isLoading s;
     isMicMuted := isMicMuted s; sessionId := sessionId s; error := error s;
     isRecording := isRecording s; isProcessingAudio := isProcessingAudio s;
     audioError := audioError s; mediaRecorderRef := mediaRecorderRef s;
     textBeforeRecordingRef := textBeforeRecordingRef s;
     audioUnlockedRef := audioUnlockedRef s;
     textHook := textHook s; audioHook := audioHook s |}.

Definition setIsLoading (v : bool) (s : State) : State :=
  {| messages := messages s; inputText := inputText s; isLoading := v;
     isMicMuted := isMicMuted s; sessionId := sessionId s; error := error s;
     isRecording := isRecording s; isProcessingAudio := isProcessingAudio s;
     audioError := audioError s; mediaRecorderRef := mediaRecorderRef s;
     textBeforeRecordingRef := textBeforeRecordingRef s;
     audioUnlockedRef := audioUnlockedRef s;
     textHook := textHook s; audioHook := audioHook s |}.

Definition setTextHook (h : TextHook) (s : State) : State :=
  {| messages := messages s; inputText := inputText s; isLoading := isLoading s;
     isMicMuted := isMicMuted s; sessionId := sessionId s; error := error s;
     isRecording := isRecording s; isProcessingAudio := isProcessingAudio s;
     audioError := audioError s; mediaRecorderRef := mediaRecorderRef s;
     textBeforeRecordingRef := textBeforeRecordingRef s;
     audioUnlockedRef := audioUnlockedRef s;
     textHook := h; audioHook := audioHook s |}.

Definition setAudioHook (h : AudioHook) (s : State) : State :=
  {| messages := messages s; inputText := inputText s; isLoading := isLoading s;
     isMicMuted := isMicMuted s; sessionId := sessionId s; error := error s;
     isRecording := isRecording s; isProcessingAudio := isProcessingAudio s;
     audioError := audioError s; mediaRecorderRef := mediaRecorderRef s;
     textBeforeRecordingRef := textBeforeRecordingRef s;
     audioUnlockedRef := audioUnlockedRef s;
     textHook := textHook s; audioHook := h |}.

Definition log (r : Request) (b : Browser) : Browser :=
  {| pendingUserMedia := pendingUserMedia b; recording := recording b;
     stopping := stopping b; nextRecorder := nextRecorder b;
     sent := sent b ++ [r] |}.

(** *** Text messages *)

Section WithRuntime.
Context {R : Runtime}.

Definition handleSend (now : Z) (s : State) (b : Browser) : State * Browser :=
  if negb (truthy (trim (inputText s))) || processTextResponseLoading (textHook s)
  then (s, b)
  else
    let userMessage := trim (inputText s) in
    let s1 := setIsLoading true (setInputText "" s) in
    let s2 := setMessages
                (fun prev => prev ++ [{| role := user; content := userMessage;
                                        timestamp := now |}]) s1 in
    let payload := {| text := userMessage; ProcessHooks.sessionId := None |} in
    (setTextHook (createProcessText_begin (textHook s2)) s2,
     log (TextRequest "process_text" (text payload) (ProcessHooks.sessionId payload)) b).

End WithRuntime.

(** The effect on [processTextResponse] (audio playback left out). *)
Definition processTextResponse_effect (now : Z) (s : State) : State :=
  match processTextResponse (textHook s) with
  | None => s
  | Some r =>
      let s1 := setIsLoading false s in
      if truthy (text_response r) then
        setMessages
          (fun prev => prev ++ [{| role := assistant; content := text_response r;
                                  timestamp := now |}]) s1
      else s1
  end.

(** The reply of a text call arrives: [createProcessText] finishes and,
    when it stored a response, the effect runs. *)
Definition textSettled (outcome : completion ProcessTextResponse) (now : Z)
    (s : State) : State :=
  let s1 := setTextHook (createProcessText_settle outcome (textHook s)) s in
  match outcome with
  | Normal _ => processTextResponse_effect now s1
  | Throw _ => s1
  end.

(** *** Recording *)

Definition startRecording (s : State) (b : Browser) : State * Browser :=
  ({| messages := messages s; inputText := inputText s; isLoading := isLoading s;
      isMicMuted := isMicMuted s; sessionId := sessionId s; error := error s;
      isRecording := isRecording s; isProcessingAudio := isProcessingAudio s;
      audioError := ""; mediaRecorderRef := mediaRecorderRef s;
      textBeforeRecordingRef := textBeforeRecordingRef s;
      audioUnlockedRef := audioUnlockedRef s;
      textHook := textHook s; audioHook := audioHook s |},
   {| pendingUserMedia :=
        pendingUserMedia b ++ [{| closed_inputText := inputText s;
                                  closed_sessionId := sessionId s |}];
      recording := recording b; stopping := stopping b;
      nextRecorder := nextRecorder b; sent := sent b |}).

(** [getUserMedia] resolved for the call that closed over [c]: a new
    recorder is created, stored in the ref and started. *)
Definition startRecording_granted (c : Closure) (s : State) (b : Browser)
  : State * Browser :=
  let r := nextRecorder b in
  ({| messages := messages s; inputText := inputText s; isLoading := isLoading s;
      isMicMuted := false; sessionId := sessionId s; error := error s;
      isRecording := true; isProcessingAudio := isProcessingAudio s;
      audioError := audioError s; mediaRecorderRef := Some r;
      textBeforeRecordingRef := closed_inputText c;
      audioUnlockedRef := audioUnlockedRef s;
      textHook := textHook s; audioHook := audioHook s |},
   {| pendingUserMedia := pendingUserMedia b;
      recording := recording b ++ [(r, c)]; stopping := stopping b;
      nextRecorder := S r; sent := sent b |}).

(** [getUserMedia] rejected, or it resolved and [new MediaRecorder]
    threw: the [catch] branch, entered before the ref is assigned. *)
Definition startRecording_denied (s : State) : State :=
  {| messages := messages s; inputText := inputText s; isLoading := isLoading s;
     isMicMuted := true; sessionId := sessionId s; error := error s;
     isRecording := isRecording s; isProcessingAudio := isProcessingAudio s;
     audioError := "Failed to access microphone";
     mediaRecorderRef := mediaRecorderRef s;
     textBeforeRecordingRef := textBeforeRecordingRef s;
     audioUnlockedRef := audioUnlockedRef s;
     textHook := textHook s; audioHook := audioHook s |}.

(** [getUserMedia] resolved for the call that closed over [c], the
    recorder was created and stored in the ref, and [start()] threw: the
    [catch] branch runs with both refs already assigned, and the new
    recorder never records. *)
Definition startRecording_start_failed (c : Closure) (s : State) (b : Browser)
  : State * Browser :=
  let r := nextRecorder b in
  ({| messages := messages s; inputText := inputText s; isLoading := isLoading s;
      isMicMuted := true; sessionId := sessionId s; error := error s;
      isRecording := isRecording s; isProcessingAudio := isProcessingAudio s;
      audioError := "Failed to access microphone"; mediaRecorderRef := Some r;
      textBeforeRecordingRef := closed_inputText c;
      audioUnlockedRef := audioUnlockedRef s;
      textHook := textHook s; audioHook := audioHook s |},
   {| pendingUserMedia := pendingUserMedia b;
      recording := recording b; stopping := stopping b;
      nextRecorder := S r; sent := sent b |}).

Definition is_recorder (r : nat) (e : nat * Closure) : bool := (fst e =? r)%nat.

(** [recorder.stop()]: the recorder leaves the recording state and its
    [onstop] is queued.  Stopping a recorder that is not recording
    throws. *)
Definition stop (r : nat) (b : Browser) : completion Browser :=
  match filter (fun e => is_recorder r e = true) (recording b) with
  | [] => Throw "InvalidStateError"
  | stopped =>
      Normal {| pendingUserMedia := pendingUserMedia b;
                recording := filter (fun e => is_recorder r e = false) (recording b);
                stopping := stopping b ++ stopped;
                nextRecorder := nextRecorder b; sent := sent b |}
  end.

(** A recorder stops by itself because the tracks of its stream ended:
    it leaves the recording state and its [onstop] is queued, as after
    [stop()], but no handler of the page runs.  Nothing happens to a
    recorder that is not recording. *)
Definition recorder_ended (r : nat) (b : Browser) : Browser :=
  match stop r b with
  | Normal b' => b'
  | Throw _ => b
  end.

Definition stopRecording (s : State) (b : Browser) : State * Browser :=
  match mediaRecorderRef s with
  | Some r =>
      if isRecording s then
        match stop r b with
        | Normal b' =>
            ({| messages := messages s; inputText := inputText s;
                isLoading := isLoading s; isMicMuted := true;
                sessionId := sessionId s; error := error s;
                isRecording := false; isProcessingAudio := isProcessingAudio s;
                audioError := audioError s; mediaRecorderRef := mediaRecorderRef s;
                textBeforeRecordingRef := textBeforeRecordingRef s;
                audioUnlockedRef := audioUnlockedRef s;
                textHook := textHook s; audioHook := audioHook s |}, b')
        | Throw _ => (s, b)
        end
      else (s, b)
  | None => (s, b)
  end.

Definition unlockAudio (s : State) : State :=
  {| messages := messages s; inputText := inputText s; isLoading := isLoading s;
     isMicMuted := isMicMuted s; sessionId := sessionId s; error := error s;
     isRecording := isRecording s; isProcessingAudio := isProcessingAudio s;
     audioError := audioError s; mediaRecorderRef := mediaRecorderRef s;
     textBeforeRecordingRef := textBeforeRecordingRef s;
     audioUnlockedRef := true;
     textHook := textHook s; audioHook := audioHook s |}.

Definition handleMicToggle (s : State) (b : Browser) : State * Browser :=
  let s1 := unlockAudio s in
  if isRecording s then stopRecording s1 b else startRecording s1 b.

(** The mic button is disabled while a reply is awaited. *)
Definition micDisabled (s : State) : bool := isLoading s || isProcessingAudio s.

(** [sendAudioForTranscription] up to the [await] inside
    [createProcessAudio]; [sid] is the [sessionId] it closed over. *)
Definition sendAudioForTranscription (sid : option string) (s : State) (b : Browser)
  : State * Browser :=
  let s1 :=
    {| messages := messages s; inputText := inputText s; isLoading := isLoading s;
       isMicMuted := isMicMuted s; sessionId := sessionId s; error := "";
       isRecording := isRecording s; isProcessingAudio := true;
       audioError := ""; mediaRecorderRef := mediaRecorderRef s;
       textBeforeRecordingRef := textBeforeRecordingRef s;
       audioUnlockedRef := audioUnlockedRef s;
       textHook := textHook s; audioHook := audioHook s |} in
  (setAudioHook (createProcessAudio_begin (audioHook s1)) s1,
   log (AudioRequest "process_audio" (if truthy_opt sid then sid else None)) b).

(** The [onstop] handler of a recorder created by the call that closed
    over [c]. *)
Definition onstop (c : Closure) (now : Z) (s : State) (b : Browser) : State * Browser :=
  let s1 := setMessages
              (fun prev => prev ++ [{| role := user; content := placeholder;
                                      timestamp := now |}]) s in
  sendAudioForTranscription (closed_sessionId c) s1 b.

(** *** The effect on [processAudioResponse] *)

Definition is_placeholder (m : Message) : bool :=
  Role_eqb (role m) user && String.eqb (content m) placeholder.

(** The loop [for (let i = updated.length - 1; i >= 0; i--)], entered
    with [n = updated.length]: index [n - 1] is examined next. *)
Fixpoint replace_last_placeholder (newContent : string) (n : nat)
    (updated : list Message) : list Message :=
  match n with
  | O => updated
  | S i =>
      match updated !! i with
      | Some m =>
          if is_placeholder m then
            <[i := {| role := role m; content := newContent;
                      timestamp := timestamp m |}]> updated
          else replace_last_placeholder newContent i updated
      | None => replace_last_placeholder newContent i updated
      end
  end.

(** The first functional update of the effect. *)
Definition audio_update (r : ProcessAudioResponse) (now : Z)
    (prev : list Message) : list Message :=
  let updated :=
    replace_last_placeholder (or_else (transcript r) "🎤 Voice message")
      (length prev) prev in
  if truthy_opt (response r) then
    updated ++ [{| role := assistant; content := or_else (response r) "";
                   timestamp := now |}]
  else updated.

(** [newMessages] as the effect fills it. *)
Definition newMessages (r : ProcessAudioResponse) (now : Z) : list Message :=
  if truthy_opt (response r) then
    [{| role := assistant; content := or_else (response r) ""; timestamp := now |}]
  else [].

Definition processAudioResponse_effect (now : Z) (s : State) : State :=
  match processAudioResponse (audioHook s) with
  | None => s
  | Some r =>
      let s1 := setMessages (audio_update r now) s in
      let s2 := match newMessages r now with
                | [] => s1
                | _ :: _ => setMessages (fun prev => prev ++ newMessages r now) s1
                end in
      {| messages := messages s2; inputText := inputText s2;
         isLoading := isLoading s2; isMicMuted := isMicMuted s2;
         sessionId := sessionId s2; error := error s2;
         isRecording := isRecording s2; isProcessingAudio := false;
         audioError := audioError s2; mediaRecorderRef := mediaRecorderRef s2;
         textBeforeRecordingRef := "";
         audioUnlockedRef := audioUnlockedRef s2;
         textHook := textHook s2; audioHook := audioHook s2 |}
  end.

Definition audioSettled (outcome : completion ProcessAudioResponse) (now : Z)
    (s : State) : State :=
  let s1 := setAudioHook (createProcessAudio_settle outcome (audioHook s)) s in
  match outcome with
  | Normal _ => processAudioResponse_effect now s1
  | Throw _ => s1
  end.

(** *** Everything that can happen to the page *)

Inductive Event :=
| InputChange (v : string)
| Send (now : Z)
| TextSettled (outcome : completion ProcessTextResponse) (now : Z)
| MicClick
| UserMediaGranted
| UserMediaDenied
| RecorderStopped (now : Z)
| AudioSettled (outcome : completion ProcessAudioResponse) (now : Z)
| RecorderStartFailed
| RecorderEnded (r : nat).

Definition drop_pending (b : Browser) : Browser :=
  {| pendingUserMedia := tail (pendingUserMedia b); recording := recording b;
     stopping := stopping b; nextRecorder := nextRecorder b; sent := sent b |}.

Definition drop_stopping (b : Browser) : Browser :=
  {| pendingUserMedia := pendingUserMedia b; recording := recording b;
     stopping := tail (stopping b); nextRecorder := nextRecorder b; sent := sent b |}.

Section WithRuntime.
Context {R : Runtime}.

Definition step (e : Event) (sb : State * Browser) : State * Browser :=
  let '(s, b) := sb in
  match e with
  | InputChange v => (setInputText v s, b)
  | Send now => handleSend now s b
  | TextSettled outcome now => (textSettled outcome now s, b)
  | MicClick => if micDisabled s then (s, b) else handleMicToggle s b
  | UserMediaGranted =>
      match pendingUserMedia b with
      | c :: _ => startRecording_granted c s (drop_pending b)
      | [] => (s, b)
      end
  | UserMediaDenied =>
      match pendingUserMedia b with
      | _ :: _ => (startRecording_denied s, drop_pending b)
      | [] => (s, b)
      end
  | RecorderStopped now =>
      match stopping b with
      | (_, c) :: _ => onstop c now s (drop_stopping b)
      | [] => (s, b)
      end
  | AudioSettled outcome now => (audioSettled outcome now s, b)
  | RecorderStartFailed =>
      match pendingUserMedia b with
      | c :: _ => startRecording_start_failed c s (drop_pending b)
      | [] => (s, b)
      end
  | RecorderEnded r => (s, recorder_ended r b)
  end.

Definition run (es : list Event) (sb : State * Browser) : State * Browser :=
  fold_left (fun acc e => step e acc) es sb.

End WithRuntime.

End ChatPage.

(** ** app/pageBackup.tsx: entering the login flow *)
Module LoginFlow.
Import JS PageBackup.

(** *** The phone number field *)

(** [\d]: an ASCII digit. *)
Definition is_digit (c : ascii) : bool :=
  (48 <=? nat_of_ascii c)%nat && (nat_of_ascii c <=? 57)%nat.

(** [value.replace(/\D/g, "")] *)
Fixpoint remove_non_digits (value : string) : string :=
  match value with
  | EmptyString => EmptyString
  | String c r =>
      if is_digit c then String c (remove_non_digits r) else remove_non_digits r
  end.

(** [s.slice(0, k)] *)
Definition slice_first (k : nat) (s : string) : string := substring 0 k s.

(** The digits the [onChange] handler of the phone field stores. *)
Definition phoneDigits (value : string) : string :=
  slice_first 10 (remove_non_digits value).

Definition handlePhoneChange (value : string) (l : LoginState) : LoginState :=
  {| showWelcomeCard := showWelcomeCard l; step := step l;
     phoneNumber := phoneDigits value; elderlyDetails := elderlyDetails l;
     isCapturing := isCapturing l; error := error l; isLoading := isLoading l;
     faceVerificationFailures := faceVerificationFailures l;
     streamRef := streamRef l |}.

(** *** handleStart *)

(** The parsed reply of POST /getelderlydetails, in both shapes the
    handler accepts. *)
Record DetailsResult := {
  elderly : option ElderlyDetails;
  elderlyUserid : option Q;
  preferredName : option string;
  result_preferred_name : option string;
  adminId : option string;
  result_admin_id : option string;
  caregiverAssigned : option string;
  result_caregiver_assigned : option string;
}.

(** [String(n)] for a number. *)
Class Runtime := { String_of_number : Q -> string }.

(** Truthiness of a number: zero is falsy. *)
Definition truthy_number (q : Q) : bool := negb (Qeq_bool q 0).

(** [a ?? b] *)
Definition nullish_or (a b : option string) : option string :=
  match a with
  | Some _ => a
  | None => b
  end.

Section WithRuntime.
Context {R : Runtime} {J : PageBackup.Runtime}.

(** [result?.elderly ?? (result?.elderlyUserid ? { ... } : null)];
    [None] as argument is a [null] reply. *)
Definition elderlyBody (result : option DetailsResult) : option ElderlyDetails :=
  match result with
  | None => None
  | Some r =>
      match elderly r with
      | Some e => Some e
      | None =>
          match elderlyUserid r with
          | Some id =>
              if truthy_number id then
                Some {| userid := String_of_number id;
                        preferred_name :=
                          Some (nullish (nullish_or (preferredName r)
                                                    (result_preferred_name r)));
                        details_admin_id := nullish_or (adminId r) (result_admin_id r);
                        details_caregiver_assigned :=
                          nullish_or (caregiverAssigned r) (result_caregiver_assigned r);
                        phone_number := None |}
              else None
          | None => None
          end
      end
  end.

(** The state once [setError("")] and [setShowWelcomeCard(true)] ran, with
    the step the handler then chooses. *)
Definition started (st : Step) (msg : string) (l : LoginState) : LoginState :=
  {| showWelcomeCard := true; step := st; phoneNumber := phoneNumber l;
     elderlyDetails := elderlyDetails l; isCapturing := isCapturing l;
     error := msg; isLoading := isLoading l;
     faceVerificationFailures := faceVerificationFailures l;
     streamRef := streamRef l |}.

(** [handleStart]; [fetch id] is the outcome of asking for the details of
    user [id] and parsing the reply.  The result is the new state and
    whether [startCamera] was scheduled. *)
Definition handleStart (fetch : Q -> completion (option DetailsResult))
    (ls : gmap string string) (l : LoginState) : LoginState * bool :=
  match ls !! "elderlyToken" with
  | Some storedToken =>
      if truthy storedToken then
        match decodeJWT storedToken with
        | Some payload =>
            match elderly_userid payload with
            | Some id =>
                if truthy_number id then
                  let '(l', camera) :=
                    try_catch
                      (result <- fetch id ;;
                       match elderlyBody result with
                       | Some body =>
                           Normal
                             ({| showWelcomeCard := true; step := face;
                                 phoneNumber := phoneNumber l;
                                 elderlyDetails := Some body;
                                 isCapturing := isCapturing l; error := "";
                                 isLoading := true;
                                 faceVerificationFailures := 0;
                                 streamRef := streamRef l |}, true)
                       | None =>
                           Normal
                             (started phone
                                "Failed to load elderly details. Please try with phone number."
                                l, false)
                       end)
                      (fun _ =>
                         (started phone
                            "Failed to load details. Please try with phone number." l,
                          false)) in
                  (PageBackup.setIsLoading false l', camera)
                else (started phone "" l, false)
            | None => (started phone "" l, false)
            end
        | None => (started phone "" l, false)
        end
      else (started phone "" l, false)
  | None => (started phone "" l, false)
  end.

End WithRuntime.

(** [handlePhoneSubmit]: everything after [setStep("face")] is commented
    out in the source. *)
Definition handlePhoneSubmit (l : LoginState) : LoginState :=
  {| showWelcomeCard := showWelcomeCard l; step := face;
     phoneNumber := phoneNumber l; elderlyDetails := elderlyDetails l;
     isCapturing := isCapturing l; error := ""; isLoading := true;
     faceVerificationFailures := 0; streamRef := streamRef l |}.

(** [startCamera]; [granted] tells whether [getUserMedia] resolved. *)
Definition startCamera (granted : bool) (l : LoginState) : LoginState :=
  if granted then
    {| showWelcomeCard := showWelcomeCard l; step := step l;
       phoneNumber := phoneNumber l; elderlyDetails := elderlyDetails l;
       isCapturing := true; error := error l; isLoading := isLoading l;
       faceVerificationFailures := faceVerificationFailures l;
       streamRef := Some {| stopped := false |} |}
  else
    {| showWelcomeCard := showWelcomeCard l; step := step l;
       phoneNumber := phoneNumber l; elderlyDetails := elderlyDetails l;
       isCapturing := isCapturing l;
       error := "Failed to access camera. Please allow camera permissions.";
       isLoading := isLoading l;
       faceVerificationFailures := faceVerificationFailures l;
       streamRef := streamRef l |}.

(** The [disabled] attribute of the "Verify Face" button. *)
Definition verifyDisabled (l : LoginState) : bool :=
  isLoading l || negb (isCapturing l).

End LoginFlow.

(** ** app/components/FetchHeaderProvider.tsx *)
Module FetchHeaderProvider.
Import JS.

(** The two fields of a parsed URL the provider reads. *)
Record URL := {
  hostname : string;
  port : string;
}.

(** [new URL(urlStr, window.location.href)]; throws on a malformed URL. *)
Class Runtime := { parseURL : string -> completion URL }.

(** [s.includes(sub)] *)
Fixpoint includes (sub s : string) : bool :=
  match s with
  | EmptyString => String.prefix sub EmptyString
  | String _ r => String.prefix sub s || includes sub r
  end.

(** [s.endsWith(suffix)] *)
Definition endsWith (suffix s : string) : bool :=
  (String.length suffix <=? String.length s)%nat
  && String.eqb (substring (String.length s - String.length suffix)
                           (String.length suffix) s) suffix.

Definition isBackendHost (u : URL) : bool :=
  if String.eqb (hostname u) "localhost"
     && (String.eqb (port u) "8000" || String.eqb (port u) "")
  then true
  else if includes "ngrok" (hostname u) || endsWith ".ngrok-free.dev" (hostname u)
  then true
  else if String.eqb (port u) "8000" then true
  else false.

Section WithRuntime.
Context {R : Runtime}.

Definition isBackendUrl (urlStr : string) : bool :=
  try_catch (u <- parseURL urlStr ;; Normal (isBackendHost u)) (fun _ => false).

End WithRuntime.

(** The first argument of [fetch]: a string, a [Request] (its url and
    headers), or anything else.  Header names are in lower case, as a
    [Headers] object keeps them. *)
Inductive Input :=
| InString (url : string)
| InRequest (url : string) (headers : gmap string string)
| InOther.

(** The fields of a [RequestInit] the wrapper can affect or must keep. *)
Record Init := {
  method : option string;
  body : option string;
  headers : option (gmap string string);
}.

Definition input_url (input : Input) : string :=
  match input with
  | InString s => s
  | InRequest u _ => u
  | InOther => ""
  end.

(** [Object.assign({}, init)] *)
Definition assign (init : option Init) : Init :=
  match init with
  | Some i => i
  | None => {| method := None; body := None; headers := None |}
  end.

Section WithRuntime.
Context {R : Runtime}.

(** [wrappedFetch]: the arguments it hands to the original [fetch]. *)
Definition wrappedFetch (input : Input) (init : option Init) : Input * option Init :=
  let urlStr := input_url input in
  if truthy urlStr && isBackendUrl urlStr then
    let newInit := assign init in
    let hdrs :=
      match headers newInit with
      | Some h => h
      | None => match input with
                | InRequest _ h => h
                | _ => ∅
                end
      end in
    (input,
     Some {| method := method newInit; body := body newInit;
             headers := Some (<["ngrok-skip-browser-warning" := "1"]> hdrs) |})
  else (input, init).

End WithRuntime.

End FetchHeaderProvider.

(** ** getApi *)
Module GetApi.
Import JS.



Record Request := {
  url : string;
  method : string;
  headers : list (string * string);
}.

Definition baseUrl : string := "https://maria-subsidizable-maximina.ngrok-free.dev".

(** [`${token}`] for what [sessionStorage.getItem] returned. *)
Definition template (token : option string) : string :=
  match token with
  | Some t => t
  | None => "null"
  end.

Definition request (sessionStorage : gmap string string) (url : string) : Request :=
  {| url := baseUrl +:+ "/" +:+ url;
     method := "GET";
     headers := [("Content-Type", "application/json");
                 ("Authorization", template (sessionStorage !! "authtoken"))] |}.



End GetApi.

(** ** The debounced activity refresh of the chat pages *)
Module ActivityDebounce.

(** [activityTimeoutRef], the timers the browser holds (identity and due
    time), the next timer identity, and the times at which
    [refreshActivity] was called.  Browser timer identities are positive
    integers, hence truthy. *)
Record Timers := {
  activityTimeoutRef : option positive;
  pending : list (positive * Z);
  nextTimer : positive;
  refreshed : list Z;
}.

Definition init : Timers :=
  {| activityTimeoutRef := None; pending := []; nextTimer := 1%positive;
     refreshed := [] |}.

Definition is_timer (id : positive) (e : positive * Z) : bool := Pos.eqb (fst e) id.

(** [clearTimeout(id)] *)
Definition clearTimeout (id : positive) (p : list (positive * Z)) : list (positive * Z) :=
  filter (fun e => is_timer id e = false) p.

(** What [handleInputChange] and [handleScroll] both do with the timer at
    time [now]: cancel the one in the ref, set one for a second later. *)
Definition debounce (now : Z) (t : Timers) : Timers :=
  let p := match activityTimeoutRef t with
           | Some id => clearTimeout id (pending t)
           | None => pending t
           end in
  {| activityTimeoutRef := Some (nextTimer t);
     pending := p ++ [(nextTimer t, (now + 1000)%Z)];
     nextTimer := Pos.succ (nextTimer t);
     refreshed := refreshed t |}.

Definition handleInputChange (now : Z) (t : Timers) : Timers := debounce now t.
Definition handleScroll (now : Z) (t : Timers) : Timers := debounce now t.

Definition is_due (now : Z) (e : positive * Z) : bool := (snd e <=? now)%Z.

(** The browser runs the timers that are due at [now]: each calls
    [refreshActivity] once. *)
Definition fire (now : Z) (t : Timers) : Timers :=
  {| activityTimeoutRef := activityTimeoutRef t;
     pending := filter (fun e => is_due now e = false) (pending t);
     nextTimer := nextTimer t;
     refreshed := refreshed t
                  ++ map (fun _ => now) (filter (fun e => is_due now e = true) (pending t)) |}.

Inductive Event :=
| Typed (now : Z)
| Scrolled (now : Z)
| Elapsed (now : Z).

Definition step (e : Event) (t : Timers) : Timers :=
  match e with
  | Typed now => handleInputChange now t
  | Scrolled now => handleScroll now t
  | Elapsed now => fire now t
  end.

Definition run (es : list Event) (t : Timers) : Timers :=
  fold_left (fun acc e => step e acc) es t.

End ActivityDebounce.

(** ** app/chat/page copy.tsx: the voice path *)
Module ChatPageCopyAudio.
Import JS Chat ChatPageCopy.

(** The parsed reply of POST /speech_to_text. *)
Record SttResult := {
  stt_success : bool;
  stt_text : option string;
}.

Definition setAudioError (msg : string) (s : State) : State :=
  {| messages := messages s; inputText := inputText s; isLoading := isLoading s;
     sessionId := sessionId s; error := error s;
     isProcessingAudio := isProcessingAudio s; audioError := msg |}.

Definition setIsProcessingAudio (b : bool) (s : State) : State :=
  {| messages := messages s; inputText := inputText s; isLoading := isLoading s;
     sessionId := sessionId s; error := error s;
     isProcessingAudio := b; audioError := audioError s |}.

(** The transcript is added as a user message and the loading flag set. *)
Definition transcribed (txt : string) (now : Z) (s : State) : State :=
  {| messages := messages s ++ [{| role := user; content := txt; timestamp := now |}];
     inputText := inputText s; isLoading := true; sessionId := sessionId s;
     error := error s; isProcessingAudio := isProcessingAudio s;
     audioError := audioError s |}.

(** [sendAudioForTranscription]; [sid] is the [sessionId] it closed over,
    [stt] the outcome of the transcription call, [chat] the outcome of the
    chat call.  The result is the new state, the chat requests sent and
    whether [refreshActivity] was called. *)
Definition sendAudioForTranscription (sid : option string)
    (stt : completion SttResult) (chat : Request -> completion ChatResult)
    (now now' : Z) (s : State) : State * list Request * bool :=
  let s0 := setAudioError "" (setIsProcessingAudio true s) in
  let '(s3, reqs, refreshed) :=
    try_catch
      (result <- stt ;;
       match stt_success result, stt_text result with
       | true, Some txt =>
           if truthy txt then
             let req := TextRequest "/chat/elderly" txt sid in
             let s1 := transcribed txt now s0 in
             let '(s2, r) :=
               try_catch
                 (chatResult <- chat req ;;
                  match success chatResult, response chatResult with
                  | true, Some answer =>
                      if truthy answer then
                        Normal (answered sid answer chatResult now' s1,
                                truthy_opt (token chatResult))
                      else
                        Normal (setError (or_else (message chatResult)
                                            "Failed to send message") s1, false)
                  | _, _ =>
                      Normal (setError (or_else (message chatResult)
                                          "Failed to send message") s1, false)
                  end)
                 (fun _ => (setError "Failed to send message. Please try again." s1,
                            false)) in
             Normal (setIsLoading false s2, [req], r)
           else Normal (setAudioError "Failed to process audio" s0, [], false)
       | _, _ => Normal (setAudioError "Failed to process audio" s0, [], false)
       end)
      (fun _ => (setAudioError "Failed to process audio" s0, [], false)) in
  (setIsProcessingAudio false s3, reqs, refreshed).

End ChatPageCopyAudio.

(** ** Test doubles of the browser built-ins

    The theorems below hold for every implementation of the built-ins;
    these instances let the model run on concrete inputs. *)
Module TestDoubles.
Import JS.

Definition auth_runtime : ElderlyAuthContext.Runtime :=
  {| ElderlyAuthContext.JSON_stringify := ElderlyAuthContext.elderly_userid;
     ElderlyAuthContext.JSON_parse := fun _ => Throw "SyntaxError";
     ElderlyAuthContext.toISOString := fun _ => "1970-01-01T00:00:00.000Z";
     ElderlyAuthContext.Date_parse := fun _ => ValidDate 0;
     ElderlyAuthContext.setItem_accepts := fun _ _ _ => true |}.


Definition payload_with_exp (e : option Q) : PageBackup.JWTPayload :=
  {| PageBackup.elderly_userid := Some (7 # 1);
     PageBackup.admin_id := None;
     PageBackup.caregiver_assigned := None;
     PageBackup.session_id := None;
     PageBackup.exp := e;
     PageBackup.iat := None;
     PageBackup.last_activity := None |}.

(** Base64 and percent decoding are the identity, and three payloads
    are recognised: one with [exp = 100], one with [exp = 2000000000]
    and one without [exp]. *)
Definition jwt_runtime : PageBackup.Runtime :=
  {| PageBackup.atob := Normal;
     PageBackup.decodeURIComponent := Normal;
     PageBackup.JSON_parse := fun s =>
       if String.eqb s (PageBackup.percent_encode "old") then
         Normal (Some (payload_with_exp (Some (100 # 1))))
       else if String.eqb s (PageBackup.percent_encode "new") then
         Normal (Some (payload_with_exp (Some (2000000000 # 1))))
       else if String.eqb s (PageBackup.percent_encode "noexp") then
         Normal (Some (payload_with_exp None))
       else if String.eqb s (PageBackup.percent_encode "null") then
         Normal None
       else Throw "SyntaxError" |}.

(** Only ASCII spaces are trimmed. *)
Fixpoint trim_left (s : string) : string :=
  match s with
  | String " " r => trim_left r
  | _ => s
  end.

Definition trim_spaces (s : string) : string :=
  String.rev (trim_left (String.rev (trim_left s))).

Definition chat_runtime : Chat.Runtime := {| Chat.trim := trim_spaces |}.

Definition someone : ElderlyAuthContext.ElderlyData :=
  {| ElderlyAuthContext.elderly_userid := "7";
     ElderlyAuthContext.preferred_name := "Asha";
     ElderlyAuthContext.admin_id := "1";
     ElderlyAuthContext.caregiver_assigned := "2" |}.

(** A session that logged in at time 0 and was last active at [la]. *)
Definition session (tok : string) (la : Z) : ElderlyAuthContext.World :=
  {| ElderlyAuthContext.auth :=
       {| ElderlyAuthContext.token := Some tok;
          ElderlyAuthContext.elderlyData := Some someone;
          ElderlyAuthContext.lastActivity := Some (ValidDate la);
          ElderlyAuthContext.tokenCreatedAt := Some (ValidDate 0);
          ElderlyAuthContext.logoutWarning := None |};
     ElderlyAuthContext.localStorage :=
       <["elderlyTokenCreatedAt" := "c"]>
         (<["elderlyLastActivity" := "a"]>
            (<["elderlyData" := "7"]> (<["elderlyToken" := tok]> ∅))) |}.

(** The face step as [handleStart] enters it for a user known from the
    stored token. *)
Definition asha : PageBackup.ElderlyDetails :=
  {| PageBackup.userid := "7"; PageBackup.preferred_name := Some "Asha";
     PageBackup.details_admin_id := None;
     PageBackup.details_caregiver_assigned := None;
     PageBackup.phone_number := None |}.

Definition face_step : PageBackup.LoginState :=
  {| PageBackup.showWelcomeCard := true; PageBackup.step := PageBackup.face;
     PageBackup.phoneNumber := ""; PageBackup.elderlyDetails := Some asha;
     PageBackup.isCapturing := true; PageBackup.error := "";
     PageBackup.isLoading := false; PageBackup.faceVerificationFailures := 0;
     PageBackup.streamRef := Some {| PageBackup.stopped := false |} |}.

Definition rejected : string -> completion PageBackup.VerifyResult :=
  fun _ => Normal {| PageBackup.success := false; PageBackup.token := None;
                     PageBackup.message := Some "Face does not match" |}.

Definition unreachable : string -> completion PageBackup.VerifyResult :=
  fun _ => Throw "TypeError: Failed to fetch".

(** A voice message: the mic is clicked, the microphone is granted, the
    mic is clicked again and the recorder's [onstop] runs at time 10. *)
Definition voice_sent : ChatPage.State * ChatPage.Browser :=
  @ChatPage.run chat_runtime
    [ChatPage.MicClick; ChatPage.UserMediaGranted; ChatPage.MicClick;
     ChatPage.RecorderStopped 10]
    (ChatPage.init, ChatPage.init_browser).

(** The backend heard "hello" and answers "hi". *)
Definition heard : ProcessHooks.ProcessAudioResponse :=
  {| ProcessHooks.transcript := Some "hello"; ProcessHooks.audio := None;
     ProcessHooks.language := None; ProcessHooks.response := Some "hi" |}.

(** "hello" is typed and sent at time 5. *)
Definition text_sent : ChatPage.State * ChatPage.Browser :=
  @ChatPage.run chat_runtime
    [ChatPage.InputChange "hello"; ChatPage.Send 5]
    (ChatPage.init, ChatPage.init_browser).

End TestDoubles.

(** ** Vocabulary of the statements *)
Module Vocabulary.
Import JS ElderlyAuthContext.

(** A world in which the interval is installed: token, lastActivity and
    tokenCreatedAt are all present. *)
Definition has_session (w : World) (t : string) (la tc : Z) : Prop :=
  token (auth w) = Some t /\ truthy t = true /\
  lastActivity (auth w) = Some (ValidDate la) /\
  tokenCreatedAt (auth w) = Some (ValidDate tc).

(** Minutes of inactivity and hours of token age, as the check computes them. *)
Definition d_min (now la : Z) : Q := (now - la) # (1000 * 60).
Definition a_hours (now tc : Z) : Q := (now - tc) # (1000 * 60 * 60).

(** The state [logout] leaves behind. *)
Definition cleared : AuthState :=
  {| token := None; elderlyData := None; lastActivity := None;
     tokenCreatedAt := None; logoutWarning := None |}.

(** The backend reports success with a new token to the call made with
    the current token. *)
Definition backend_renews (fetch : string -> completion RefreshResult)
    (w : World) (nt : string) : Prop :=
  exists tok r,
    token (auth w) = Some tok /\ truthy tok = true /\
    fetch tok = Normal r /\ success r = true /\
    new_token r = Some nt /\ truthy nt = true.

(** The world a successful refresh produces. *)
Definition renewed {A : Runtime} (nt : string) (now : Z) (w : World) : World :=
  {| auth := {| token := Some nt;
                elderlyData := elderlyData (auth w);
                lastActivity := Some (ValidDate now);
                tokenCreatedAt := tokenCreatedAt (auth w);
                logoutWarning := None |};
     localStorage :=
       <["elderlyLastActivity" := toISOString now]>
         (<["elderlyToken" := nt]> (localStorage w)) |}.

(** localStorage takes the two writes of a refresh: the new token, then
    the time of the refresh. *)
Definition storage_takes {A : Runtime} (nt : string) (now : Z) (w : World) : Prop :=
  setItem_accepts "elderlyToken" nt (localStorage w) = true /\
  setItem_accepts "elderlyLastActivity" (toISOString now)
    (<["elderlyToken" := nt]> (localStorage w)) = true.

(** A face verification that fails: the canvas gives no context, the
    request is rejected, or the reply is not a success carrying a token. *)
Definition verification_failed (dom : PageBackup.Dom)
    (fetch : string -> completion PageBackup.VerifyResult)
    (d : PageBackup.ElderlyDetails) : Prop :=
  PageBackup.context2d dom = false
  \/ (exists e, fetch (PageBackup.userid d) = Throw e)
  \/ (exists r, fetch (PageBackup.userid d) = Normal r /\
                (PageBackup.success r = false \/
                 truthy_opt (PageBackup.token r) = false)).

(** One press of "Verify Face" per element of [fetches], in order. *)
Fixpoint verify_all {A : Runtime} (dom : PageBackup.Dom)
    (fetches : list (string -> completion PageBackup.VerifyResult)) (now : Z)
    (w : World) (l : PageBackup.LoginState) : World * PageBackup.LoginState :=
  match fetches with
  | [] => (w, l)
  | fetch :: rest =>
      let '(w', l', _) := PageBackup.captureAndVerify dom fetch now w l in
      verify_all dom rest now w' l'
  end.

(** *** The chat page *)

(** Every request sent so far, and every recording closure still alive,
    is without a sessionId, and none is cached. *)
Definition no_session (sb : ChatPage.State * ChatPage.Browser) : Prop :=
  ChatPage.sessionId (fst sb) = None /\
  Forall (fun r => Chat.request_sessionId r = None) (ChatPage.sent (snd sb)) /\
  Forall (fun c => ChatPage.closed_sessionId c = None)
         (ChatPage.pendingUserMedia (snd sb)) /\
  Forall (fun e => ChatPage.closed_sessionId (snd e) = None)
         (ChatPage.recording (snd sb)) /\
  Forall (fun e => ChatPage.closed_sessionId (snd e) = None)
         (ChatPage.stopping (snd sb)).

(** The message list as an append-only sequence: the old list is a
    prefix of the new one. *)
Definition append_only (old new : list Chat.Message) : Prop :=
  exists added, new = old ++ added.

(** Message [m] with its text replaced by [c]. *)
Definition with_content (c : string) (m : Chat.Message) : Chat.Message :=
  {| Chat.role := Chat.role m; Chat.content := c; Chat.timestamp := Chat.timestamp m |}.

(** [kept] is [old] with the text of its last voice placeholder replaced
    by [c]; when [old] has no placeholder, [kept] is [old]. *)
Definition fills_last_placeholder (c : string) (old kept : list Chat.Message) : Prop :=
  (kept = old /\
   forall j m', old !! j = Some m' -> ChatPage.is_placeholder m' = false)
  \/
  exists i m,
    old !! i = Some m /\ ChatPage.is_placeholder m = true /\
    (forall j m', i < j -> old !! j = Some m' -> ChatPage.is_placeholder m' = false) /\
    kept = <[i := with_content c m]> old.

(** The text the audio effect writes into the placeholder. *)
Definition transcript_text (r : ProcessHooks.ProcessAudioResponse) : string :=
  or_else (ProcessHooks.transcript r) "🎤 Voice message".

(** [kept] is [old], except that the text of the last voice placeholder
    of [old] may have been replaced. *)
Definition placeholder_filled (old kept : list Chat.Message) : Prop :=
  kept = old \/
  exists i m c,
    old !! i = Some m /\ ChatPage.is_placeholder m = true /\
    (forall j m', i < j -> old !! j = Some m' -> ChatPage.is_placeholder m' = false) /\
    kept = <[i := with_content c m]> old.

(** The new list is the old one, possibly with its last voice
    placeholder filled in, followed by appended entries. *)
Definition grows (old new : list Chat.Message) : Prop :=
  exists kept added, new = kept ++ added /\ placeholder_filled old kept.

Definition assistant_says (answer : string) (now : Z) : Chat.Message :=
  {| Chat.role := Chat.assistant; Chat.content := answer; Chat.timestamp := now |}.

End Vocabulary.

(** ** Scenarios and vocabulary of the further properties *)
Module Scenarios.
Import JS ElderlyAuthContext Vocabulary.

(** The two warning windows of the expiry check. *)
Definition inactivity_window (now la : Z) : Prop :=
  (14 <= d_min now la)%Q /\ (d_min now la < 15)%Q.

Definition token_age_window (now tc : Z) : Prop :=
  (23 <= a_hours now tc)%Q /\ (a_hours now tc < 24)%Q.

(** The branch the check takes, read on whole milliseconds of inactivity
    and of token age. *)
Inductive Verdict := WarnInactive | WarnAge | LogOut | Clear.

Definition verdict (now la tc : Z) : Verdict :=
  let x := (now - la)%Z in
  let y := (now - tc)%Z in
  if ((14 * 60000 <=? x) && (x <? 15 * 60000))%Z then WarnInactive
  else if ((23 * 3600000 <=? y) && (y <? 24 * 3600000))%Z then WarnAge
  else if ((15 * 60000 <=? x) || (24 * 3600000 <=? y))%Z then LogOut
  else Clear.

(** The interval fires at each of the given times, in order. *)
Definition ticks (nows : list Z) (w : World) : World :=
  fold_left (fun acc now => tick now acc) nows w.

(** The world after one [refreshActivity] call. *)
Definition after_refresh {A : Runtime} (fetch : string -> completion RefreshResult)
    (now : Z) (w : World) : World :=
  match refreshActivity fetch now w with
  | Normal (w', _) => w'
  | Throw _ => w
  end.

(** A series of [refreshActivity] calls, each with its backend behaviour
    and its time. *)
Definition refresh_all {A : Runtime}
    (calls : list ((string -> completion RefreshResult) * Z)) (w : World) : World :=
  fold_left (fun acc call => after_refresh (fst call) (snd call) acc) calls w.


(** *** Tokens *)

(** Whether a string holds a dot. *)
Fixpoint has_dot (s : string) : bool :=
  match s with
  | EmptyString => false
  | String c r => Ascii.eqb c "." || has_dot r
  end.

(** The value of a lower-case hexadecimal digit. *)
Definition hex_value (c : ascii) : option N :=
  let n := N_of_ascii c in
  if ((48 <=? n) && (n <=? 57))%N then Some (n - 48)%N
  else if ((97 <=? n) && (n <=? 102))%N then Some (n - 87)%N
  else None.

(** The byte written as the two hexadecimal digits [h] and [l]. *)
Definition hex_pair (h l : ascii) : option ascii :=
  match hex_value h, hex_value l with
  | Some a, Some b => Some (ascii_of_N (16 * a + b))
  | _, _ => None
  end.

(** Reads back a string of [%xx] groups, byte by byte. *)
Fixpoint percent_decode (s : string) : option string :=
  match s with
  | EmptyString => Some EmptyString
  | String "%" (String h (String l r)) =>
      match hex_pair h l, percent_decode r with
      | Some c, Some rest => Some (String c rest)
      | _, _ => None
      end
  | _ => None
  end.

(** *** The login page *)

(** Whether a string consists of ASCII digits only. *)
Fixpoint all_digits (s : string) : bool :=
  match s with
  | EmptyString => true
  | String c r => LoginFlow.is_digit c && all_digits r
  end.

(** The stored token names a user whose details the backend returns:
    [handleStart] can go straight to the face step with [body]. *)
Definition recognised {R : LoginFlow.Runtime} {J : PageBackup.Runtime}
    (fetch : Q -> completion (option LoginFlow.DetailsResult))
    (ls : gmap string string) (body : PageBackup.ElderlyDetails) : Prop :=
  exists tok p id res,
    ls !! "elderlyToken" = Some tok /\ truthy tok = true /\
    PageBackup.decodeJWT tok = Some p /\
    PageBackup.elderly_userid p = Some id /\ LoginFlow.truthy_number id = true /\
    fetch id = Normal res /\ LoginFlow.elderlyBody res = Some body.

(** The face step as [handleStart] enters it. *)
Definition face_entered (body : PageBackup.ElderlyDetails) (l : PageBackup.LoginState)
  : PageBackup.LoginState :=
  {| PageBackup.showWelcomeCard := true; PageBackup.step := PageBackup.face;
     PageBackup.phoneNumber := PageBackup.phoneNumber l;
     PageBackup.elderlyDetails := Some body;
     PageBackup.isCapturing := PageBackup.isCapturing l; PageBackup.error := "";
     PageBackup.isLoading := false; PageBackup.faceVerificationFailures := 0;
     PageBackup.streamRef := PageBackup.streamRef l |}.

(** Numbers print as their numerator. *)
Definition flow_runtime : LoginFlow.Runtime :=
  {| LoginFlow.String_of_number := fun q =>
       if (Qnum q =? 7)%Z then "7" else "0" |}.

(** A backend that knows user 7 in the flat reply shape. *)
Definition knows_7 : Q -> completion (option LoginFlow.DetailsResult) :=
  fun id =>
    if Qeq_bool id (7 # 1) then
      Normal (Some {| LoginFlow.elderly := None;
                      LoginFlow.elderlyUserid := Some (7 # 1);
                      LoginFlow.preferredName := Some "Asha";
                      LoginFlow.result_preferred_name := None;
                      LoginFlow.adminId := None;
                      LoginFlow.result_admin_id := Some "1";
                      LoginFlow.caregiverAssigned := None;
                      LoginFlow.result_caregiver_assigned := None |})
    else Normal None.

(** The landing page before JOIN is pressed. *)
Definition landing : PageBackup.LoginState :=
  {| PageBackup.showWelcomeCard := false; PageBackup.step := PageBackup.start;
     PageBackup.phoneNumber := ""; PageBackup.elderlyDetails := None;
     PageBackup.isCapturing := false; PageBackup.error := "";
     PageBackup.isLoading := false; PageBackup.faceVerificationFailures := 0;
     PageBackup.streamRef := None |}.

(** *** Requests *)

(** [sub] occurs somewhere in [s]. *)
Definition contains (sub s : string) : Prop :=
  exists pre post, s = pre +:+ sub +:+ post.

(** The headers a call would carry without the wrapper: those of [init]
    if it has any, else those of the [Request]. *)
Definition given_headers (input : FetchHeaderProvider.Input)
    (init : option FetchHeaderProvider.Init) : gmap string string :=
  match FetchHeaderProvider.headers (FetchHeaderProvider.assign init) with
  | Some h => h
  | None => match input with
            | FetchHeaderProvider.InRequest _ h => h
            | _ => ∅
            end
  end.

(** Lower case of an ASCII letter, as [Headers] normalises names. *)
Definition lower_char (c : ascii) : ascii :=
  let n := nat_of_ascii c in
  if ((65 <=? n) && (n <=? 90))%nat then ascii_of_nat (n + 32) else c.

Fixpoint lower (s : string) : string :=
  match s with
  | EmptyString => EmptyString
  | String c r => String (lower_char c) (lower r)
  end.

(** The arguments [getApi] passes to [fetch], as the wrapper sees them. *)
Definition fetch_call (r : GetApi.Request)
  : FetchHeaderProvider.Input * option FetchHeaderProvider.Init :=
  (FetchHeaderProvider.InString (GetApi.url r),
   Some {| FetchHeaderProvider.method := Some (GetApi.method r);
           FetchHeaderProvider.body := None;
           FetchHeaderProvider.headers :=
             Some (list_to_map (map (fun h => (lower (fst h), snd h))
                                    (GetApi.headers r))) |}).

(** A URL parser that knows the backend, the local backend and one
    other site. *)
Definition url_runtime : FetchHeaderProvider.Runtime :=
  {| FetchHeaderProvider.parseURL := fun s =>
       if String.prefix GetApi.baseUrl s then
         Normal {| FetchHeaderProvider.hostname :=
                     "maria-subsidizable-maximina.ngrok-free.dev";
                   FetchHeaderProvider.port := "" |}
       else if String.prefix "http://localhost:8000" s then
         Normal {| FetchHeaderProvider.hostname := "localhost";
                   FetchHeaderProvider.port := "8000" |}
       else if String.prefix "http://localhost:3000" s then
         Normal {| FetchHeaderProvider.hostname := "localhost";
                   FetchHeaderProvider.port := "3000" |}
       else if String.prefix "https://example.org" s then
         Normal {| FetchHeaderProvider.hostname := "example.org";
                   FetchHeaderProvider.port := "" |}
       else Throw "TypeError: Invalid URL" |}.

(** *** The activity timer *)

(** At most one timer is pending, and it is the one the ref holds. *)
Definition one_pending (t : ActivityDebounce.Timers) : Prop :=
  ActivityDebounce.pending t = [] \/
  exists id due,
    ActivityDebounce.pending t = [(id, due)] /\
    ActivityDebounce.activityTimeoutRef t = Some id.

(** Typing and scrolling, as opposed to the passing of time. *)
Definition is_activity (e : ActivityDebounce.Event) : Prop :=
  match e with
  | ActivityDebounce.Elapsed _ => False
  | _ => True
  end.

Definition event_time (e : ActivityDebounce.Event) : Z :=
  match e with
  | ActivityDebounce.Typed now => now
  | ActivityDebounce.Scrolled now => now
  | ActivityDebounce.Elapsed now => now
  end.

(** *** The hook-based chat page *)

(** The number of user entries of a message list. *)
Definition user_entries (l : list Chat.Message) : nat :=
  length (List.filter (fun m => Chat.Role_eqb (Chat.role m) Chat.user) l).

(** The arrival of a text reply, as opposed to every other event. *)
Definition is_text_reply (e : ChatPage.Event) : Prop :=
  match e with
  | ChatPage.TextSettled _ _ => True
  | _ => False
  end.

(** Every event but the two ways in which a recorder lets the page
    down: [start()] throwing, and the recorder stopping by itself when the
    tracks of its stream end. *)
Definition recorders_work (e : ChatPage.Event) : Prop :=
  match e with
  | ChatPage.RecorderStartFailed | ChatPage.RecorderEnded _ => False
  | _ => True
  end.

(** The text requests among the requests sent. *)
Definition text_requests (l : list Chat.Request) : list Chat.Request :=
  List.filter (fun r => match r with
                        | Chat.TextRequest _ _ _ => true
                        | Chat.AudioRequest _ _ => false
                        end) l.

(** One voice message from the click on the mic to the reply [r]: the
    recorder stops at [t1], the reply arrives at [t2]. *)
Definition voice_exchange (r : ProcessHooks.ProcessAudioResponse) (t1 t2 : Z)
  : list ChatPage.Event :=
  [ChatPage.MicClick; ChatPage.UserMediaGranted; ChatPage.MicClick;
   ChatPage.RecorderStopped t1; ChatPage.AudioSettled (Normal r) t2].

(** *** Conversations on the fetch-based page *)

(** [setInputText(e.target.value)] of the text field. *)
Definition typing (v : string) (s : ChatPageCopy.State) : ChatPageCopy.State :=
  {| ChatPageCopy.messages := ChatPageCopy.messages s;
     ChatPageCopy.inputText := v;
     ChatPageCopy.isLoading := ChatPageCopy.isLoading s;
     ChatPageCopy.sessionId := ChatPageCopy.sessionId s;
     ChatPageCopy.error := ChatPageCopy.error s;
     ChatPageCopy.isProcessingAudio := ChatPageCopy.isProcessingAudio s;
     ChatPageCopy.audioError := ChatPageCopy.audioError s |}.

(** One turn of the user: a text typed and submitted, or a voice message
    whose recorder stops.  The [onstop] handler of a recorder uses the
    [sessionId] of the render in which the recording was started:
    [closed] is that value, which need not be the page's [sessionId] any
    more when the recorder stops.  Each turn comes with the outcome of
    its calls and the clock readings. *)
Inductive Turn :=
| TypedTurn (v : string) (fetch : Chat.Request -> completion ChatPageCopy.ChatResult)
    (now now' : Z)
| SpokenTurn (closed : option string) (stt : completion ChatPageCopyAudio.SttResult)
    (chat : Chat.Request -> completion ChatPageCopy.ChatResult) (now now' : Z).

(** The recording of a voice turn was started while the page held the
    sessionId [sid]. *)
Definition recorded_under (sid : option string) (t : Turn) : Prop :=
  match t with
  | TypedTurn _ _ _ _ => True
  | SpokenTurn closed _ _ _ _ => closed = sid
  end.

Section Conversations.
Context {R : Chat.Runtime}.
Variable authToken : option string.
Variable hasElderlyData : bool.

(** A turn run to its end; the requests sent are collected. *)
Definition turn (t : Turn) (acc : ChatPageCopy.State * list Chat.Request)
  : ChatPageCopy.State * list Chat.Request :=
  match t with
  | TypedTurn v fetch now now' =>
      let '(s', reqs, _) :=
        ChatPageCopy.handleSendMessage authToken hasElderlyData fetch now now'
          (typing v (fst acc)) in
      (s', snd acc ++ reqs)
  | SpokenTurn closed stt chat now now' =>
      let '(s', reqs, _) :=
        ChatPageCopyAudio.sendAudioForTranscription closed stt chat now now' (fst acc) in
      (s', snd acc ++ reqs)
  end.

(** Turns one after another. *)
Definition conversation (ts : list Turn)
    (acc : ChatPageCopy.State * list Chat.Request)
  : ChatPageCopy.State * list Chat.Request :=
  fold_left (fun a t => turn t a) ts acc.

End Conversations.

(** The text a transcription call delivers, if any. *)
Definition transcription (stt : completion ChatPageCopyAudio.SttResult)
  : option string :=
  match stt with
  | Normal r =>
      match ChatPageCopyAudio.stt_success r, ChatPageCopyAudio.stt_text r with
      | true, Some txt => if truthy txt then Some txt else None
      | _, _ => None
      end
  | Throw _ => None
  end.

(** A page of the fetch-based chat at rest, holding the sessionId [sid]. *)
Definition page_with (sid : option string) : ChatPageCopy.State :=
  {| ChatPageCopy.messages := []; ChatPageCopy.inputText := "";
     ChatPageCopy.isLoading := false; ChatPageCopy.sessionId := sid;
     ChatPageCopy.error := ""; ChatPageCopy.isProcessingAudio := false;
     ChatPageCopy.audioError := "" |}.

(** A backend that answers "hi" and names the sessionId [sid]. *)
Definition replying (sid : option string) (_ : Chat.Request)
  : completion ChatPageCopy.ChatResult :=
  Normal {| ChatPageCopy.success := true; ChatPageCopy.response := Some "hi";
            ChatPageCopy.result_sessionId := sid; ChatPageCopy.message := None;
            ChatPageCopy.token := None |}.

(** "hello" is typed and answered under another sessionId, a voice
    message recorded under [sid] is transcribed as "more" but its chat
    call fails, and a second one cannot be transcribed. *)
Definition three_turns (sid : option string) : list Turn :=
  [TypedTurn "hello" (replying (Some "other")) 1 2;
   SpokenTurn sid (Normal {| ChatPageCopyAudio.stt_success := true;
                             ChatPageCopyAudio.stt_text := Some "more" |})
     (fun _ => Throw "TypeError: Failed to fetch") 3 4;
   SpokenTurn sid (Throw "TypeError: Failed to fetch") (replying None) 5 6].

(** A voice message whose recording was started before the page held any
    sessionId, transcribed as "late" and answered under the sessionId
    [sid]. *)
Definition stale_voice (sid : option string) : Turn :=
  SpokenTurn None (Normal {| ChatPageCopyAudio.stt_success := true;
                             ChatPageCopyAudio.stt_text := Some "late" |})
    (replying sid) 7 8.

End Scenarios.

(** * Properties *)

(** ** Comparisons of JavaScript numbers *)
Module JSFacts.
Import JS.

Lemma ge_true (x q : Q) : ge (Some x) q = true <-> (q <= x)%Q.
Proof. unfold ge. apply Qle_bool_iff. Qed.

Lemma ge_false (x q : Q) : ge (Some x) q = false <-> (x < q)%Q.
Proof.
  unfold ge. split; intros H.
  - apply Qnot_le_lt. intros Hle. apply Qle_bool_iff in Hle. congruence.
  - destruct (Qle_bool q x) eqn:E; [|reflexivity].
    apply Qle_bool_iff in E. exfalso. exact (Qlt_not_le _ _ H E).
Qed.

Lemma lt_true (x q : Q) : lt (Some x) q = true <-> (x < q)%Q.
Proof.
  unfold lt. rewrite negb_true_iff. apply (ge_false x q).
Qed.

Lemma lt_false (x q : Q) : lt (Some x) q = false <-> (q <= x)%Q.
Proof.
  unfold lt. rewrite negb_false_iff. apply (ge_true x q).
Qed.

Lemma truthy_opt_Some (o : option string) :
  truthy_opt o = true <-> exists s, o = Some s /\ truthy s = true.
Proof.
  destruct o as [s|]; simpl; split.
  - intros H. exists s. split; [reflexivity | exact H].
  - intros [s' [[= <-] H]]. exact H.
  - discriminate.
  - intros [s' [[=] _]].
Qed.

End JSFacts.

(** ** The periodic expiry check *)
Module ExpiryFacts.
Import JS JSFacts ElderlyAuthContext Vocabulary.


Lemma tick_session w t la tc now :
  has_session w t la tc ->
  tick now w = checkExpiration now (ValidDate la) (ValidDate tc) w.
Proof.
  intros (Ht & Htr & Hla & Htc). unfold tick.
  rewrite Ht, Hla, Htc, Htr. reflexivity.
Qed.

Lemma checkExpiration_cases now la tc w :
  checkExpiration now (ValidDate la) (ValidDate tc) w =
    if ge (Some (d_min now la)) 14 && lt (Some (d_min now la)) 15 then
      setLogoutWarning (Some "Logging-out in 1 minute due to inactivity") w
    else if ge (Some (a_hours now tc)) 23 && lt (Some (a_hours now tc)) 24 then
      setLogoutWarning (Some "Logging-out in 1 minute") w
    else if ge (Some (d_min now la)) 15 then logout w
    else if ge (Some (a_hours now tc)) 24 then logout w
    else setLogoutWarning None w.
Proof. reflexivity. Qed.

(** Rewrites the comparisons of [checkExpiration] with the facts at hand. *)
Ltac decide_cmp :=
  repeat match goal with
  | H : (?q <= ?x)%Q |- context [ge (Some ?x) ?q] =>
      rewrite (proj2 (ge_true x q) H)
  | H : (?x < ?q)%Q |- context [ge (Some ?x) ?q] =>
      rewrite (proj2 (ge_false x q) H)
  | H : (?x < ?q)%Q |- context [lt (Some ?x) ?q] =>
      rewrite (proj2 (lt_true x q) H)
  | H : (?q <= ?x)%Q |- context [lt (Some ?x) ?q] =>
      rewrite (proj2 (lt_false x q) H)
  end; cbn [andb].

Lemma Qle_14_15 x : (15 <= x)%Q -> (14 <= x)%Q.
Proof. intros H. apply Qle_trans with (y := 15%Q); [discriminate | exact H]. Qed.

Lemma Qle_23_24 x : (24 <= x)%Q -> (23 <= x)%Q.
Proof. intros H. apply Qle_trans with (y := 24%Q); [discriminate | exact H]. Qed.

(** The inactivity warning: 14 min <= d < 15 min sets the warning,
    whatever the token age. *)
Lemma inactivity_warning w t la tc now :
  has_session w t la tc ->
  (14 <= d_min now la)%Q -> (d_min now la < 15)%Q ->
  tick now w = setLogoutWarning (Some "Logging-out in 1 minute due to inactivity") w.
Proof.
  intros Hs H14 H15. rewrite (tick_session _ _ _ _ _ Hs), checkExpiration_cases.
  decide_cmp. reflexivity.
Qed.

(** The token-age warning: 23 h <= a < 24 h leaves a warning set,
    whatever the inactivity. *)
Lemma token_age_warning w t la tc now :
  has_session w t la tc ->
  (23 <= a_hours now tc)%Q -> (a_hours now tc < 24)%Q ->
  exists msg, logoutWarning (auth (tick now w)) = Some msg /\
              token (auth (tick now w)) = Some t.
Proof.
  intros Hs H23 H24. rewrite (tick_session _ _ _ _ _ Hs), checkExpiration_cases.
  destruct Hs as (Ht & _).
  destruct (ge (Some (d_min now la)) 14 && lt (Some (d_min now la)) 15).
  - eexists. split; [reflexivity | exact Ht].
  - decide_cmp. eexists. split; [reflexivity | exact Ht].
Qed.

(** Forced logout on inactivity happens outside the token-age warning
    window. *)
Lemma inactivity_logout w t la tc now :
  has_session w t la tc ->
  (15 <= d_min now la)%Q ->
  (a_hours now tc < 23)%Q \/ (24 <= a_hours now tc)%Q ->
  tick now w = logout w.
Proof.
  intros Hs H15 Ha. rewrite (tick_session _ _ _ _ _ Hs), checkExpiration_cases.
  pose proof (Qle_14_15 _ H15) as H14.
  destruct Ha as [Ha | Ha]; [| pose proof (Qle_23_24 _ Ha)]; decide_cmp; reflexivity.
Qed.

(** Forced logout on token age happens outside the inactivity warning
    window. *)
Lemma token_age_logout w t la tc now :
  has_session w t la tc ->
  (24 <= a_hours now tc)%Q ->
  (d_min now la < 14)%Q \/ (15 <= d_min now la)%Q ->
  tick now w = logout w.
Proof.
  intros Hs H24 Hd. rewrite (tick_session _ _ _ _ _ Hs), checkExpiration_cases.
  pose proof (Qle_23_24 _ H24) as H23.
  destruct Hd as [Hd | Hd].
  - assert (d_min now la < 15)%Q
      by (apply Qlt_trans with (y := 14%Q); [exact Hd | reflexivity]).
    decide_cmp. reflexivity.
  - pose proof (Qle_14_15 _ Hd). decide_cmp. reflexivity.
Qed.

(** With an Invalid Date every comparison is false and the warning is
    cleared. *)
Lemma checkExpiration_invalid_dates now w :
  checkExpiration now InvalidDate InvalidDate w = setLogoutWarning None w.
Proof. reflexivity. Qed.

(** C1 (divergence).  Inside the token-age warning window the check
    never reaches the inactivity logout: with d >= 15 min and
    23 h <= a < 24 h the tick only sets the warning "Logging-out in 1
    minute"; the token, the profile and both timestamps stay, and the
    result is not the logged-out world. *)
Theorem C1_inactive_session_kept_in_token_warning_window w t la tc now :
  has_session w t la tc ->
  (15 <= d_min now la)%Q ->
  (23 <= a_hours now tc)%Q -> (a_hours now tc < 24)%Q ->
  tick now w = setLogoutWarning (Some "Logging-out in 1 minute") w /\
  token (auth (tick now w)) = Some t /\
  lastActivity (auth (tick now w)) = Some (ValidDate la) /\
  tokenCreatedAt (auth (tick now w)) = Some (ValidDate tc) /\
  tick now w <> logout w.
Proof.
  intros Hs H15 H23 H24.
  assert (E : tick now w = setLogoutWarning (Some "Logging-out in 1 minute") w).
  { rewrite (tick_session _ _ _ _ _ Hs), checkExpiration_cases.
    pose proof (Qle_14_15 _ H15). decide_cmp. reflexivity. }
  destruct Hs as (Ht & _ & Hla & Htc).
  rewrite E. repeat split; try assumption.
  intros Heq. apply (f_equal (fun x => logoutWarning (auth x))) in Heq.
  discriminate Heq.
Qed.

(** The failing input of C1: logged in at 0, last active at 22 h 45 min,
    checked at 23 h: 15 minutes of inactivity, token 23 hours old. *)
Lemma C1_witness :
  let w := TestDoubles.session "tok" 81900000 in
  let now := 82800000%Z in
  (d_min now 81900000 == 15)%Q /\ (a_hours now 0 == 23)%Q /\
  tick now w = setLogoutWarning (Some "Logging-out in 1 minute") w /\
  token (auth (tick now w)) = Some "tok" /\
  lastActivity (auth (tick now w)) = Some (ValidDate 81900000) /\
  tokenCreatedAt (auth (tick now w)) = Some (ValidDate 0) /\
  tick now w <> logout w.
Proof.
  intros w now. split; [reflexivity | split; [reflexivity |]].
  apply (C1_inactive_session_kept_in_token_warning_window w "tok" 81900000 0 now).
  - repeat split.
  - discriminate.
  - discriminate.
  - reflexivity.
Defined.

(** Below 14 minutes of inactivity the token-age window alone decides. *)
Lemma token_age_warning_when_active w t la tc now :
  has_session w t la tc ->
  (23 <= a_hours now tc)%Q -> (a_hours now tc < 24)%Q ->
  (d_min now la < 14)%Q ->
  tick now w = setLogoutWarning (Some "Logging-out in 1 minute") w.
Proof.
  intros Hs H23 H24 Hd. rewrite (tick_session _ _ _ _ _ Hs), checkExpiration_cases.
  decide_cmp. reflexivity.
Qed.

Lemma setLogoutWarning_not_logout m w : setLogoutWarning (Some m) w <> logout w.
Proof.
  intros Heq. apply (f_equal (fun x => logoutWarning (auth x))) in Heq.
  discriminate Heq.
Qed.

(** C2 (amended).  The inactivity check comes first.  With a token age
    of 23 h <= a < 24 h and less than 15 minutes of inactivity a warning
    is set: the token-age warning below 14 minutes, the inactivity
    warning from 14 minutes on.  With a token age of 24 h or more the
    session is cleared, except while the inactivity is in [14, 15)
    minutes: there the check sets the inactivity warning and keeps the
    session. *)
Theorem C2_token_age_checked_after_inactivity w t la tc now :
  has_session w t la tc ->
  ((23 <= a_hours now tc)%Q -> (a_hours now tc < 24)%Q ->
     ((d_min now la < 14)%Q ->
        tick now w = setLogoutWarning (Some "Logging-out in 1 minute") w) /\
     ((14 <= d_min now la)%Q -> (d_min now la < 15)%Q ->
        tick now w =
          setLogoutWarning (Some "Logging-out in 1 minute due to inactivity") w)) /\
  ((24 <= a_hours now tc)%Q ->
     ((d_min now la < 14)%Q \/ (15 <= d_min now la)%Q -> tick now w = logout w) /\
     ((14 <= d_min now la)%Q -> (d_min now la < 15)%Q ->
        tick now w =
          setLogoutWarning (Some "Logging-out in 1 minute due to inactivity") w /\
        token (auth (tick now w)) = Some t /\
        tick now w <> logout w)).
Proof.
  intros Hs. split.
  - intros H23 H24. split.
    + apply (token_age_warning_when_active w t la tc now Hs H23 H24).
    + apply (inactivity_warning w t la tc now Hs).
  - intros H24. split.
    + apply (token_age_logout w t la tc now Hs H24).
    + intros H14 H15.
      pose proof (inactivity_warning w t la tc now Hs H14 H15) as E.
      destruct Hs as (Ht & _).
      rewrite E. split; [reflexivity|]. split; [exact Ht|].
      apply setLogoutWarning_not_logout.
Qed.

(** Logged in at 0 and last active at 23 h 40 min: the check at 24 h
    clears the session; with the last activity at 22 h 50 min the check
    at 23 h sets the token-age warning. *)
Lemma C2_witness :
  tick 86400000 (TestDoubles.session "tok" 85200000)
    = logout (TestDoubles.session "tok" 85200000) /\
  tick 82800000 (TestDoubles.session "tok" 82200000)
    = setLogoutWarning (Some "Logging-out in 1 minute")
        (TestDoubles.session "tok" 82200000).
Proof.
  split.
  - destruct (C2_token_age_checked_after_inactivity
                (TestDoubles.session "tok" 85200000) "tok" 85200000 0 86400000)
      as (_ & H).
    + repeat split.
    + destruct H as (Hout & _); [discriminate|].
      apply Hout. right. discriminate.
  - destruct (C2_token_age_checked_after_inactivity
                (TestDoubles.session "tok" 82200000) "tok" 82200000 0 82800000)
      as (H & _).
    + repeat split.
    + destruct H as (Hin & _); [discriminate | reflexivity |].
      apply Hin. reflexivity.
Defined.

(** C2 as stated fails: at a token age of 24 h with 14 minutes of
    inactivity (logged in at 0, last active at 23 h 46 min, checked at
    24 h) the session is not cleared, so a token age of 24 h or more does
    not clear the session for every inactivity. *)
Lemma C2_counterexample :
  (has_session (TestDoubles.session "tok" 85560000) "tok" 85560000 0 /\
   (24 <= a_hours 86400000 0)%Q /\ (d_min 86400000 85560000 == 14)%Q /\
   token (auth (tick 86400000 (TestDoubles.session "tok" 85560000))) = Some "tok" /\
   tick 86400000 (TestDoubles.session "tok" 85560000)
     <> logout (TestDoubles.session "tok" 85560000)) /\
  ~ (forall w t la tc now,
       has_session w t la tc -> (24 <= a_hours now tc)%Q -> tick now w = logout w).
Proof.
  assert (Hne : tick 86400000 (TestDoubles.session "tok" 85560000)
                <> logout (TestDoubles.session "tok" 85560000)).
  { intros Heq. apply (f_equal (fun x => token (auth x))) in Heq. discriminate Heq. }
  split.
  - split; [repeat split|]. split; [discriminate|].
    split; [reflexivity|]. split; [reflexivity | exact Hne].
  - intros H. apply Hne.
    apply (H _ "tok" 85560000%Z 0%Z 86400000%Z); [repeat split | discriminate].
Qed.

End ExpiryFacts.

(** ** Expiry of a decoded token *)
Module TokenFacts.
Import JS PageBackup.

Section WithRuntime.
Context {R : Runtime}.

Lemma isTokenExpired_undecodable token nowMs :
  decodeJWT token = None -> isTokenExpired token nowMs = true.
Proof. intros H. unfold isTokenExpired. rewrite H. reflexivity. Qed.

Lemma isTokenExpired_no_exp token p nowMs :
  decodeJWT token = Some p -> exp p = None -> isTokenExpired token nowMs = true.
Proof. intros H He. unfold isTokenExpired. rewrite H, He. reflexivity. Qed.

Lemma isTokenExpired_false token nowMs :
  isTokenExpired token nowMs = false ->
  exists p e, decodeJWT token = Some p /\ exp p = Some e /\
              ~ (e == 0)%Q /\ (inject_Z (nowMs / 1000) <= e)%Q.
Proof.
  unfold isTokenExpired.
  destruct (decodeJWT token) as [p|]; [|discriminate].
  destruct (exp p) as [e|] eqn:He; [|discriminate].
  destruct (Qeq_bool e 0) eqn:E0; [discriminate|].
  intros H. apply negb_false_iff in H. apply Qle_bool_iff in H.
  exists p, e. split; [reflexivity|]. split; [exact He|].
  split; [|exact H].
  intros Heq. apply Qeq_bool_iff in Heq. congruence.
Qed.

(** A token without a second dot-separated segment never decodes. *)
Lemma decodeJWT_no_payload_segment token :
  split "." token !! 1%nat = None -> decodeJWT token = None.
Proof.
  intros H. unfold decodeJWT, decodeJWT_try. rewrite H. reflexivity.
Qed.

(** Once expired, always expired. *)
Lemma isTokenExpired_mono token now now' :
  isTokenExpired token now = true -> (now <= now')%Z ->
  isTokenExpired token now' = true.
Proof.
  unfold isTokenExpired.
  destruct (decodeJWT token) as [p|]; [|reflexivity].
  destruct (exp p) as [e|]; [|reflexivity].
  destruct (Qeq_bool e 0); [reflexivity|].
  intros H Hle. apply negb_true_iff in H. apply negb_true_iff.
  destruct (Qle_bool (inject_Z (now' / 1000)) e) eqn:E; [|reflexivity].
  apply Qle_bool_iff in E.
  assert (Hq : (inject_Z (now / 1000) <= inject_Z (now' / 1000))%Q).
  { rewrite <- Zle_Qle. apply Z.div_le_mono; lia. }
  assert (Hb : Qle_bool (inject_Z (now / 1000)) e = true).
  { apply Qle_bool_iff. eapply Qle_trans; eassumption. }
  congruence.
Qed.

End WithRuntime.

(** C10.  Fail-safe expiry detection: for every token string and
    every behaviour of the decoding built-ins, [isTokenExpired] returns
    true whenever the token cannot be decoded (no payload segment, a
    built-in throws, or the payload is null) or the decoded payload has
    no exp field; it returns false only when a decoded exp exists and is
    not earlier than the current time in seconds. *)
Theorem C10_isTokenExpired_fail_safe :
  forall (R : Runtime) (token : string) (nowMs : Z),
    ((exists e, decodeJWT_try token = Throw e) \/ decodeJWT_try token = Normal None
       <-> decodeJWT token = None) /\
    (decodeJWT token = None -> isTokenExpired token nowMs = true) /\
    (forall p, decodeJWT token = Some p -> exp p = None ->
               isTokenExpired token nowMs = true) /\
    (isTokenExpired token nowMs = false ->
       exists p e, decodeJWT token = Some p /\ exp p = Some e /\
                   ~ (e < inject_Z (nowMs / 1000))%Q).
Proof.
  intros R token nowMs. repeat split.
  - intros [[e He] | He]; unfold decodeJWT; rewrite He; reflexivity.
  - unfold decodeJWT. destruct (decodeJWT_try token) as [[p|]|e]; simpl.
    + discriminate.
    + intros _. right. reflexivity.
    + intros _. left. exists e. reflexivity.
  - apply isTokenExpired_undecodable.
  - intros p. apply isTokenExpired_no_exp.
  - intros H. destruct (isTokenExpired_false _ _ H) as (p & e & Hp & He & _ & Hle).
    exists p, e. repeat split; try assumption.
    apply Qle_not_lt. exact Hle.
Qed.

(** The guarantees of C10 on concrete tokens. *)
Lemma C10_witness :
  @isTokenExpired TestDoubles.jwt_runtime "not-a-jwt" 5000 = true /\
  @isTokenExpired TestDoubles.jwt_runtime "h.noexp.s" 5000 = true /\
  @isTokenExpired TestDoubles.jwt_runtime "h.null.s" 5000 = true /\
  @isTokenExpired TestDoubles.jwt_runtime "h.old.s" 500000 = true /\
  exists p e, @decodeJWT TestDoubles.jwt_runtime "h.new.s" = Some p /\
              exp p = Some e /\ ~ (e < inject_Z (500000 / 1000))%Q.
Proof.
  pose proof (C10_isTokenExpired_fail_safe TestDoubles.jwt_runtime) as H.
  split; [|split; [|split; [|split]]].
  - destruct (H "not-a-jwt" 5000%Z) as (_ & Hn & _). apply Hn. reflexivity.
  - destruct (H "h.noexp.s" 5000%Z) as (_ & _ & Hn & _).
    apply (Hn (TestDoubles.payload_with_exp None)); reflexivity.
  - destruct (H "h.null.s" 5000%Z) as (_ & Hn & _). apply Hn. reflexivity.
  - reflexivity.
  - destruct (H "h.new.s" 500000%Z) as (_ & _ & _ & Hf). apply Hf. reflexivity.
Defined.

End TokenFacts.

(** ** logout and reload *)
Module LogoutFacts.
Import JS ElderlyAuthContext Vocabulary.


Lemma logout_token_entry w :
  localStorage (logout w) !! "elderlyToken" = localStorage w !! "elderlyToken".
Proof.
  unfold logout; simpl. rewrite !lookup_delete_ne by discriminate. reflexivity.
Qed.

Lemma logout_other_entries w (k : string) :
  k <> "elderlyData" -> k <> "elderlyLastActivity" -> k <> "elderlyTokenCreatedAt" ->
  localStorage (logout w) !! k = localStorage w !! k.
Proof.
  intros H1 H2 H3. unfold logout; simpl.
  rewrite !lookup_delete_ne by congruence. reflexivity.
Qed.

Lemma logout_removed w :
  localStorage (logout w) !! "elderlyData" = None /\
  localStorage (logout w) !! "elderlyLastActivity" = None /\
  localStorage (logout w) !! "elderlyTokenCreatedAt" = None.
Proof.
  unfold logout; simpl. repeat split.
  - rewrite !lookup_delete_ne by discriminate. apply lookup_delete_eq.
  - rewrite lookup_delete_ne by discriminate. apply lookup_delete_eq.
  - apply lookup_delete_eq.
Qed.

Lemma load_after_logout {A : Runtime} w :
  auth (load (localStorage (logout w))) =
    {| token := localStorage w !! "elderlyToken"; elderlyData := None;
       lastActivity := None; tokenCreatedAt := None; logoutWarning := None |}.
Proof.
  destruct (logout_removed w) as (Hd & Hl & Hc).
  pose proof (logout_token_entry w) as Ht.
  generalize dependent (localStorage (logout w)). intros ls Hd Hl Hc Ht.
  unfold load, init_token, init_elderlyData, init_date; cbn [auth].
  rewrite Hd, Hl, Hc, Ht. reflexivity.
Qed.

(** C4 (divergence).  [logout] clears the five in-memory fields and
    removes the persisted profile, last-activity and token-created
    entries; the persisted token (and every other entry) is left as it
    was.  After a reload the lazy initialiser takes that token as the
    token of the session, whether it has expired or not: the context is
    authenticated again, and the token is reported expired only if
    [isTokenExpired] says so at that time.  For a token that has not
    expired the login page redirects to the chat: the logout is undone. *)
Theorem C4_logout_keeps_token_and_reload_resumes_it :
  forall (A : Runtime) (J : PageBackup.Runtime) (w : World),
    auth (logout w) = cleared /\
    localStorage (logout w) !! "elderlyData" = None /\
    localStorage (logout w) !! "elderlyLastActivity" = None /\
    localStorage (logout w) !! "elderlyTokenCreatedAt" = None /\
    localStorage (logout w) !! "elderlyToken" = localStorage w !! "elderlyToken" /\
    (forall k : string,
        k <> "elderlyData" -> k <> "elderlyLastActivity" ->
        k <> "elderlyTokenCreatedAt" ->
        localStorage (logout w) !! k = localStorage w !! k) /\
    auth (load (localStorage (logout w))) =
      {| token := localStorage w !! "elderlyToken"; elderlyData := None;
         lastActivity := None; tokenCreatedAt := None; logoutWarning := None |} /\
    (forall (t : string) (now : Z),
        localStorage w !! "elderlyToken" = Some t -> truthy t = true ->
        token (auth (load (localStorage (logout w)))) = Some t /\
        isAuthenticated (auth (load (localStorage (logout w)))) = true /\
        (PageBackup.isTokenExpired t now = false ->
         PageBackup.redirectsToChat (auth (load (localStorage (logout w)))) now = true) /\
        (PageBackup.isTokenExpired t now = true ->
         PageBackup.redirectsToChat (auth (load (localStorage (logout w)))) now = false)).
Proof.
  intros A J w. destruct (logout_removed w) as (Hd & Hl & Hc).
  split; [reflexivity|]. repeat (split; [assumption|]).
  split; [apply logout_token_entry|].
  split; [apply logout_other_entries|].
  split; [apply load_after_logout|].
  intros t now Ht Htr.
  rewrite load_after_logout.
  unfold PageBackup.redirectsToChat, isAuthenticated; simpl. rewrite Ht. simpl.
  rewrite Htr. simpl.
  split; [reflexivity|]. split; [reflexivity|].
  split; intros ->; reflexivity.
Qed.

(** The failing input of C4: a session whose token is valid until the
    year 2033 is logged out ten minutes after login and the page is
    reloaded: the token is found, it is not reported expired, the context
    is authenticated and the login page redirects to the chat. *)
Lemma C4_witness :
  let w := TestDoubles.session "h.new.s" 0 in
  let ls := localStorage (logout w) in
  auth (logout w) = cleared /\
  token (auth (@load TestDoubles.auth_runtime ls)) = Some "h.new.s" /\
  @PageBackup.isTokenExpired TestDoubles.jwt_runtime "h.new.s" 600000 = false /\
  isAuthenticated (auth (@load TestDoubles.auth_runtime ls)) = true /\
  @PageBackup.redirectsToChat TestDoubles.jwt_runtime
    (auth (@load TestDoubles.auth_runtime ls)) 600000 = true.
Proof.
  intros w ls.
  destruct (C4_logout_keeps_token_and_reload_resumes_it
              TestDoubles.auth_runtime TestDoubles.jwt_runtime w)
    as (Hc & _ & _ & _ & _ & _ & _ & H).
  destruct (H "h.new.s" 600000%Z eq_refl eq_refl) as (Ht & Ha & Hyes & _).
  split; [exact Hc|]. split; [exact Ht|]. split; [reflexivity|].
  split; [exact Ha|]. apply Hyes. reflexivity.
Defined.

End LogoutFacts.


(** ** refreshActivity *)
Module RefreshFacts.
Import JS ElderlyAuthContext Vocabulary.


Section WithRuntime.
Context {A : Runtime}.


(** A refresh renews the session, or renews the state cells and fails
    on a write, or leaves the world as it was. *)
Lemma refreshActivity_cases fetch now w :
  (exists nt, backend_renews fetch w nt /\ storage_takes nt now w /\
              refreshActivity fetch now w = Normal (renewed nt now w, true))
  \/ (exists nt w',
        backend_renews fetch w nt /\ ~ storage_takes nt now w /\
        refreshActivity fetch now w = Normal (w', false) /\
        auth w' = auth (renewed nt now w) /\
        ((setItem_accepts "elderlyToken" nt (localStorage w) = false /\
          localStorage w' = localStorage w)
         \/ (setItem_accepts "elderlyToken" nt (localStorage w) = true /\
             localStorage w' = <["elderlyToken" := nt]> (localStorage w))))
  \/ ((forall nt, ~ backend_renews fetch w nt) /\
      refreshActivity fetch now w = Normal (w, false)).
Proof.
  unfold refreshActivity.
  destruct (token (auth w)) as [tok|] eqn:Htok;
    [|right; right; split; [|reflexivity];
      intros nt (tok' & r & Ht' & _); congruence].
  destruct (truthy tok) eqn:Htr;
    [|right; right; split; [|reflexivity];
      intros nt (tok' & r & Ht' & Htr' & _); congruence].
  unfold refreshActivity_try.
  destruct (fetch tok) as [r|e] eqn:Hf;
    [|right; right; split; [|reflexivity];
      intros nt (tok' & r & Ht' & _ & Hf' & _); congruence].
  destruct (success r) eqn:Hs;
    [|right; right; split; [|reflexivity];
      intros nt (tok' & r' & Ht' & _ & Hf' & Hs' & _); congruence].
  destruct (new_token r) as [nt|] eqn:Hn;
    [|right; right; split; [|reflexivity];
      intros nt (tok' & r' & Ht' & _ & Hf' & _ & Hn' & _); congruence].
  destruct (truthy nt) eqn:Hnt;
    [|right; right; split; [|reflexivity];
      intros nt' (tok' & r' & Ht' & _ & Hf' & _ & Hn' & Hnt'); congruence].
  assert (Hb : backend_renews fetch w nt).
  { exists tok, r. repeat split; assumption. }
  unfold setItem.
  destruct (setItem_accepts "elderlyToken" nt (localStorage w)) eqn:H1.
  - destruct (setItem_accepts "elderlyLastActivity" (toISOString now)
                (<["elderlyToken" := nt]> (localStorage w))) eqn:H2.
    + left. exists nt. split; [exact Hb|]. split; [split; assumption | reflexivity].
    + right; left. eexists nt, _. split; [exact Hb|]. split.
      { intros [_ H]. congruence. }
      split; [reflexivity|]. split; [reflexivity|]. right. split; [exact H1 | reflexivity].
  - right; left. eexists nt, _. split; [exact Hb|]. split.
    { intros [H _]. congruence. }
    split; [reflexivity|]. split; [reflexivity|]. left. split; [exact H1 | reflexivity].
Qed.

End WithRuntime.




End RefreshFacts.


(** ** The face verification step of the login page *)
Module LoginFacts.
Import JS PageBackup Vocabulary.

Lemma or_else_truthy (o : option string) (dflt : string) :
  truthy dflt = true -> truthy (or_else o dflt) = true.
Proof.
  intros H. unfold or_else. destruct o as [s|]; [|exact H].
  destruct (truthy s) eqn:E; [exact E | exact H].
Qed.

Section WithRuntime.
Context {A : ElderlyAuthContext.Runtime}.

(** A failed verification leaves the world alone, navigates nowhere,
    shows an error and counts one more failure. *)
Lemma captureAndVerify_failure dom fetch now w l d :
  videoRef dom = true -> canvasRef dom = true -> elderlyDetails l = Some d ->
  verification_failed dom fetch d ->
  exists msg,
    truthy msg = true /\
    captureAndVerify dom fetch now w l = (w, setIsLoading false (failed msg l), None).
Proof.
  intros Hv Hc Hd Hfail. unfold captureAndVerify. rewrite Hv, Hc, Hd.
  unfold captureAndVerify_try.
  destruct (context2d dom) eqn:Hctx; simpl.
  - destruct Hfail as [Hfail | [[e He] | (r & Hr & Hbad)]]; [congruence | |].
    + rewrite He; simpl. eexists. split; [|reflexivity]. reflexivity.
    + rewrite Hr; simpl.
      assert (Hmsg : truthy (or_else (message r) "Face verification failed") = true)
        by (apply or_else_truthy; reflexivity).
      destruct (success r) eqn:Hs.
      * destruct Hbad as [Hbad | Hbad]; [discriminate|].
        destruct (token r) as [t|]; simpl in Hbad.
        -- rewrite Hbad. eexists. split; [exact Hmsg | reflexivity].
        -- eexists. split; [exact Hmsg | reflexivity].
      * eexists. split; [exact Hmsg | reflexivity].
  - eexists. split; [|reflexivity]. reflexivity.
Qed.

Lemma verify_all_failures dom fetches now d :
  videoRef dom = true -> canvasRef dom = true ->
  forall w l,
    elderlyDetails l = Some d ->
    Forall (fun fetch => verification_failed dom fetch d) fetches ->
    fst (verify_all dom fetches now w l) = w /\
    faceVerificationFailures (snd (verify_all dom fetches now w l)) =
      faceVerificationFailures l + length fetches.
Proof.
  intros Hv Hc. induction fetches as [|fetch rest IH]; intros w l Hd Hall.
  - simpl. split; [reflexivity | lia].
  - inversion Hall as [|? ? Hfail Hrest]; subst.
    destruct (captureAndVerify_failure dom fetch now w l d Hv Hc Hd Hfail)
      as (msg & _ & E).
    simpl. rewrite E.
    destruct (IH w (setIsLoading false (failed msg l)) Hd Hrest) as (Hw & Hn).
    split; [exact Hw|]. rewrite Hn. simpl. lia.
Qed.

End WithRuntime.

Lemma faceButton_threshold l :
  (faceButton l = EnterNumber <-> 5 <= faceVerificationFailures l) /\
  (faceButton l = Back <-> faceVerificationFailures l < 5).
Proof.
  unfold faceButton.
  destruct (Nat.leb_spec 5 (faceVerificationFailures l)); split; split;
    intros; try discriminate; try reflexivity; try lia.
Qed.

(** C9.  A failed face verification (canvas without context, rejected
    request, or a reply that is not a success with a token) adds one to
    the failure counter and shows an error; [n] failures in a row add
    [n].  The left button of the face step is "Enter Number" exactly when
    the counter is at least 5, and "Back" otherwise; clicking it then
    runs [handleEnterNumber], which removes the stored token, resets the
    counter and returns to the phone step. *)
Theorem C9_face_failures_offer_enter_number :
  forall (A : ElderlyAuthContext.Runtime) (dom : Dom) (now : Z)
         (w : ElderlyAuthContext.World) (l : LoginState) (d : ElderlyDetails),
    videoRef dom = true -> canvasRef dom = true -> elderlyDetails l = Some d ->
    (forall fetch, verification_failed dom fetch d ->
       exists w' l',
         captureAndVerify dom fetch now w l = (w', l', None) /\ w' = w /\
         faceVerificationFailures l' = S (faceVerificationFailures l) /\
         truthy (error l') = true) /\
    (forall fetches,
       Forall (fun fetch => verification_failed dom fetch d) fetches ->
       let l' := snd (verify_all dom fetches now w l) in
       faceVerificationFailures l' = faceVerificationFailures l + length fetches /\
       (5 <= faceVerificationFailures l + length fetches ->
        faceButton l' = EnterNumber /\ faceButtonLabel l' = "Enter Number")) /\
    (faceButton l = EnterNumber <-> 5 <= faceVerificationFailures l) /\
    (faceButton l = Back <-> faceVerificationFailures l < 5) /\
    (5 <= faceVerificationFailures l ->
       faceButtonClick w l = handleEnterNumber w l /\
       ElderlyAuthContext.localStorage (fst (faceButtonClick w l)) !! "elderlyToken" = None /\
       step (snd (faceButtonClick w l)) = phone /\
       faceVerificationFailures (snd (faceButtonClick w l)) = 0).
Proof.
  intros A dom now w l d Hv Hc Hd.
  destruct (faceButton_threshold l) as (Hen & Hback).
  split; [|split; [|split; [exact Hen | split; [exact Hback|]]]].
  - intros fetch Hfail.
    destruct (captureAndVerify_failure dom fetch now w l d Hv Hc Hd Hfail)
      as (msg & Hmsg & E).
    exists w, (setIsLoading false (failed msg l)).
    split; [exact E|]. split; [reflexivity|]. split; [simpl; lia | exact Hmsg].
  - intros fetches Hall l'.
    destruct (verify_all_failures dom fetches now d Hv Hc w l Hd Hall) as (_ & Hn).
    split; [exact Hn|]. intros H5.
    assert (Hb : faceButton l' = EnterNumber).
    { apply (proj1 (faceButton_threshold l')). fold l' in Hn. lia. }
    split; [exact Hb|]. unfold faceButtonLabel. rewrite Hb. reflexivity.
  - intros H5. apply Hen in H5.
    unfold faceButtonClick. rewrite H5. repeat split.
    simpl. apply lookup_delete_eq.
Qed.

(** Someone recognised from a stored token fails the face check five
    times in a row (rejected four times, then the network is down). *)
Lemma C9_witness :
  let dom := {| videoRef := true; canvasRef := true; context2d := true |} in
  let w := TestDoubles.session "h.old.s" 0 in
  let fetches := [TestDoubles.rejected; TestDoubles.rejected; TestDoubles.rejected;
                  TestDoubles.rejected; TestDoubles.unreachable] in
  let l5 := snd (@verify_all TestDoubles.auth_runtime dom fetches 1000 w
                   TestDoubles.face_step) in
  faceButton TestDoubles.face_step = Back /\
  faceVerificationFailures l5 = 5 /\
  faceButton l5 = EnterNumber /\ faceButtonLabel l5 = "Enter Number".
Proof.
  intros dom w fetches l5.
  destruct (C9_face_failures_offer_enter_number TestDoubles.auth_runtime dom 1000 w
              TestDoubles.face_step TestDoubles.asha eq_refl eq_refl eq_refl)
    as (_ & Hrun & _ & Hback & _).
  split; [apply Hback; simpl; lia|].
  assert (Hr : verification_failed dom TestDoubles.rejected TestDoubles.asha).
  { right; right. eexists. split; [reflexivity | left; reflexivity]. }
  assert (Hu : verification_failed dom TestDoubles.unreachable TestDoubles.asha).
  { right; left. eexists. reflexivity. }
  assert (Hall : Forall (fun fetch => verification_failed dom fetch TestDoubles.asha)
                   fetches).
  { repeat (apply List.Forall_cons; [first [exact Hr | exact Hu]|]).
    apply List.Forall_nil. }
  destruct (Hrun _ Hall) as (Hn & Hbtn).
  split; [exact Hn|]. apply Hbtn. simpl. lia.
Defined.

End LoginFacts.


(** ** The message list of the chat page *)
Module MessageFacts.
Import JS Chat ProcessHooks ChatPage Vocabulary.

Lemma append_only_grows old new : append_only old new -> grows old new.
Proof. intros [added ->]. exists old, added. split; [reflexivity | left; reflexivity]. Qed.

Lemma append_only_refl l : append_only l l.
Proof. exists []. symmetry. apply app_nil_r. Qed.

Lemma append_only_snoc l m : append_only l (l ++ [m]).
Proof. exists [m]. reflexivity. Qed.

(** The loop replaces the text of the last placeholder below index [n],
    if there is one, and touches nothing else. *)
Lemma replace_last_placeholder_spec c n (l : list Message) :
  (forall j m', n <= j -> l !! j = Some m' -> is_placeholder m' = false) ->
  fills_last_placeholder c l (replace_last_placeholder c n l).
Proof.
  induction n as [|i IH]; intros Habove; simpl.
  - left. split; [reflexivity|]. intros j m'. apply Habove. lia.
  - destruct (l !! i) as [m|] eqn:Hm.
    + destruct (is_placeholder m) eqn:Hp.
      * right. exists i, m.
        split; [exact Hm|]. split; [exact Hp|]. split; [|reflexivity].
        intros j m' Hj. apply Habove. lia.
      * apply IH. intros j m' Hj Hl.
        destruct (decide (j = i)) as [->|Hne]; [congruence|].
        apply (Habove j); [lia | exact Hl].
    + apply IH. intros j m' Hj Hl.
      destruct (decide (j = i)) as [->|Hne]; [congruence|].
      apply (Habove j); [lia | exact Hl].
Qed.

Lemma fills_is_placeholder_filled c (old kept : list Message) :
  fills_last_placeholder c old kept -> placeholder_filled old kept.
Proof.
  intros [[-> _] | (i & m & Hm & Hp & Hlast & ->)]; [left; reflexivity|].
  right. exists i, m, c. repeat split; assumption.
Qed.

Lemma audio_update_fills r now (prev : list Message) :
  exists kept,
    fills_last_placeholder (transcript_text r) prev kept /\
    audio_update r now prev = kept ++ newMessages r now.
Proof.
  exists (replace_last_placeholder (transcript_text r) (length prev) prev).
  split.
  - apply replace_last_placeholder_spec. intros j m' Hj Hl.
    apply lookup_lt_Some in Hl. lia.
  - unfold audio_update, newMessages, transcript_text.
    destruct (truthy_opt (response r)); [reflexivity | symmetry; apply app_nil_r].
Qed.

(** What the effect on an audio reply does to the list: the placeholder
    is filled, and the reply is appended by the first update and again
    from [newMessages]. *)
Lemma processAudioResponse_effect_messages r now s :
  processAudioResponse (audioHook s) = Some r ->
  exists kept,
    fills_last_placeholder (transcript_text r) (messages s) kept /\
    messages (processAudioResponse_effect now s) =
      kept ++ newMessages r now ++ newMessages r now.
Proof.
  intros Hr. unfold processAudioResponse_effect. rewrite Hr.
  destruct (audio_update_fills r now (messages s)) as (kept & Hk & E).
  exists kept. split; [exact Hk|].
  destruct (newMessages r now) as [|a rest] eqn:Hn; simpl.
  - rewrite E. reflexivity.
  - rewrite E. rewrite <- app_assoc. reflexivity.
Qed.

Lemma audioSettled_Normal_messages r now s :
  exists kept,
    fills_last_placeholder (transcript_text r) (messages s) kept /\
    messages (audioSettled (Normal r) now s) =
      kept ++ newMessages r now ++ newMessages r now.
Proof.
  unfold audioSettled.
  exact (processAudioResponse_effect_messages r now
           (setAudioHook (createProcessAudio_settle (Normal r) (audioHook s)) s)
           eq_refl).
Qed.

Lemma length_placeholder_filled (old kept : list Message) :
  placeholder_filled old kept -> length kept = length old.
Proof.
  intros [-> | (i & m & c & _ & _ & _ & ->)]; [reflexivity | apply length_insert].
Qed.

Lemma textSettled_messages outcome now s :
  messages (textSettled outcome now s) =
    match outcome with
    | Normal r =>
        if truthy (text_response r)
        then messages s ++ [assistant_says (text_response r) now]
        else messages s
    | Throw _ => messages s
    end.
Proof.
  unfold textSettled. destruct outcome as [r|e]; [|reflexivity].
  unfold processTextResponse_effect; simpl.
  destruct (truthy (text_response r)); reflexivity.
Qed.

Section WithRuntime.
Context {R : Runtime}.

Lemma handleSend_messages now s b :
  append_only (messages s) (messages (fst (handleSend now s b))).
Proof.
  unfold handleSend.
  destruct (negb (truthy (trim (inputText s))) || processTextResponseLoading (textHook s)).
  - apply append_only_refl.
  - apply append_only_snoc.
Qed.

Lemma handleMicToggle_messages s b :
  messages (fst (handleMicToggle s b)) = messages s.
Proof.
  unfold handleMicToggle, stopRecording, startRecording.
  destruct (isRecording s) eqn:E; [|reflexivity]. simpl. rewrite E.
  destruct (mediaRecorderRef s) as [r|]; [|reflexivity].
  destruct (stop r b); reflexivity.
Qed.

(** Every event other than the arrival of an audio reply only appends. *)
Lemma step_append_only e sb :
  (forall outcome now, e <> AudioSettled outcome now) ->
  append_only (messages (fst sb)) (messages (fst (step e sb))).
Proof.
  intros Hne. destruct sb as [s b].
  destruct e as [v|now|outcome now| | | |now|outcome now| |r0]; simpl.
  - apply append_only_refl.
  - apply handleSend_messages.
  - rewrite textSettled_messages. destruct outcome as [r|err].
    + destruct (truthy (text_response r));
        [apply append_only_snoc | apply append_only_refl].
    + apply append_only_refl.
  - destruct (micDisabled s); simpl; [apply append_only_refl|].
    rewrite handleMicToggle_messages. apply append_only_refl.
  - destruct (pendingUserMedia b); apply append_only_refl.
  - destruct (pendingUserMedia b); apply append_only_refl.
  - destruct (stopping b) as [|[r c] rest]; [apply append_only_refl|].
    apply append_only_snoc.
  - destruct (Hne outcome now eq_refl).
  - destruct (pendingUserMedia b); apply append_only_refl.
  - apply append_only_refl.
Qed.

Lemma step_grows e sb :
  grows (messages (fst sb)) (messages (fst (step e sb))).
Proof.
  destruct e as [v|now|outcome now| | | |now|outcome now| |r0];
    try (apply append_only_grows, step_append_only; discriminate).
  destruct sb as [s b]. simpl. destruct outcome as [r|err].
  - destruct (audioSettled_Normal_messages r now s) as (kept & Hk & E).
    exists kept, (newMessages r now ++ newMessages r now).
    split; [exact E | exact (fills_is_placeholder_filled _ _ _ Hk)].
  - apply append_only_grows, append_only_refl.
Qed.

(** An entry keeps its position, role and timestamp through a step. *)
Lemma grows_lookup old new i m :
  grows old new -> old !! i = Some m ->
  exists m', new !! i = Some m' /\
             role m' = role m /\ timestamp m' = timestamp m /\
             (content m' = content m \/ is_placeholder m = true).
Proof.
  intros (kept & added & -> & Hk) Hi.
  destruct Hk as [-> | (k & mk & c & Hmk & Hp & _ & ->)].
  - exists m. split; [apply lookup_app_l_Some; exact Hi|].
    repeat split. left. reflexivity.
  - destruct (decide (k = i)) as [->|Hne].
    + assert (mk = m) as -> by congruence.
      exists (with_content c m). split.
      * apply lookup_app_l_Some. apply list_lookup_insert_eq.
        apply lookup_lt_Some in Hi. exact Hi.
      * repeat split. right. exact Hp.
    + exists m. split.
      * apply lookup_app_l_Some. rewrite list_lookup_insert_ne by exact Hne. exact Hi.
      * repeat split. left. reflexivity.
Qed.

Lemma run_keeps_entries es : forall sb i m,
  messages (fst sb) !! i = Some m ->
  exists m', messages (fst (run es sb)) !! i = Some m' /\
             role m' = role m /\ timestamp m' = timestamp m.
Proof.
  induction es as [|e es IH]; intros sb i m Hi.
  - exists m. repeat split. exact Hi.
  - destruct (grows_lookup _ _ i m (step_grows e sb) Hi) as (m1 & H1 & Hr1 & Ht1 & _).
    destruct (IH (step e sb) i m1 H1) as (m' & H' & Hr' & Ht').
    exists m'. split; [exact H'|]. split; congruence.
Qed.

End WithRuntime.

(** C6 (as amended).  The message list only grows.  Every event keeps
    the earlier entries in place and appends at the end; the only change
    to an earlier entry is made when an audio reply arrives, which
    replaces the text of the last user entry holding the voice
    placeholder by the transcript (by the default voice label when there
    is no transcript) and changes nothing when there is no placeholder.
    Through any run an entry keeps its position, role and timestamp. *)
Theorem C6_messages_grow_with_placeholder_filled :
  forall (R : Runtime),
    (forall e sb, grows (messages (fst sb)) (messages (fst (step e sb)))) /\
    (forall e sb,
       (forall outcome now, e <> AudioSettled outcome now) ->
       append_only (messages (fst sb)) (messages (fst (step e sb)))) /\
    (forall r now sb,
       exists kept added,
         messages (fst (step (AudioSettled (Normal r) now) sb)) = kept ++ added /\
         fills_last_placeholder (transcript_text r) (messages (fst sb)) kept) /\
    (forall es sb i m,
       messages (fst sb) !! i = Some m ->
       exists m', messages (fst (run es sb)) !! i = Some m' /\
                  role m' = role m /\ timestamp m' = timestamp m).
Proof.
  intros R. split; [|split; [|split]].
  - apply step_grows.
  - apply step_append_only.
  - intros r now [s b]. simpl.
    destruct (audioSettled_Normal_messages r now s) as (kept & Hk & E).
    exists kept, (newMessages r now ++ newMessages r now). split; assumption.
  - intros es. apply run_keeps_entries.
Qed.

(** The voice placeholder of a sent voice message survives the reply
    with its role and timestamp at position 0. *)
Lemma C6_witness :
  exists m',
    messages (fst (@run TestDoubles.chat_runtime
                     [AudioSettled (Normal TestDoubles.heard) 20] TestDoubles.voice_sent))
      !! 0 = Some m' /\
    role m' = user /\ timestamp m' = 10%Z.
Proof.
  destruct (C6_messages_grow_with_placeholder_filled TestDoubles.chat_runtime)
    as (_ & _ & _ & H).
  apply (H [AudioSettled (Normal TestDoubles.heard) 20] TestDoubles.voice_sent 0
           {| role := user; content := placeholder; timestamp := 10 |}).
  reflexivity.
Defined.

(** C6 as stated fails: when the reply to a voice message arrives, the
    text of the placeholder entry is replaced, so the old list is not a
    prefix of the new one. *)
Lemma C6_counterexample :
  ~ (forall (R : Runtime) (e : Event) (sb : State * Browser),
       append_only (messages (fst sb)) (messages (fst (step e sb)))).
Proof.
  intros H.
  destruct (H TestDoubles.chat_runtime (AudioSettled (Normal TestDoubles.heard) 20)
              TestDoubles.voice_sent) as [added Hadded].
  vm_compute in Hadded. discriminate Hadded.
Qed.

End MessageFacts.


(** ** Replies and failures of the chat calls *)
Module ReplyFacts.
Import JS Chat ProcessHooks ChatPage Vocabulary.

(** A text reply with an answer appends exactly one assistant entry. *)
Lemma text_reply_appended_once r now s :
  truthy (text_response r) = true ->
  messages (textSettled (Normal r) now s) =
    messages s ++ [assistant_says (text_response r) now].
Proof.
  intros H. rewrite MessageFacts.textSettled_messages. rewrite H. reflexivity.
Qed.

Lemma newMessages_answer r answer now :
  response r = Some answer -> truthy answer = true ->
  newMessages r now = [assistant_says answer now].
Proof.
  intros Hr Ha. unfold newMessages. rewrite Hr. simpl. rewrite Ha. reflexivity.
Qed.

(** The fetch-based page: a reply with an answer appends exactly one
    assistant entry after the user entry, and every failure sets
    [error]. *)
Lemma handleSendMessage_reply {R : Runtime} authToken hasData fetch now now'
    (s : ChatPageCopy.State) :
  truthy (trim (ChatPageCopy.inputText s)) = true ->
  ChatPageCopy.isLoading s = false -> truthy_opt authToken = true ->
  hasData = true -> ChatPageCopy.isProcessingAudio s = false ->
  let s' := fst (fst (ChatPageCopy.handleSendMessage authToken hasData fetch now now' s)) in
  let said := {| role := user; content := trim (ChatPageCopy.inputText s);
                 timestamp := now |} in
  (exists answer,
     truthy answer = true /\
     ChatPageCopy.messages s' =
       ChatPageCopy.messages s ++ [said; assistant_says answer now'] /\
     ChatPageCopy.error s' = "")
  \/ (ChatPageCopy.messages s' = ChatPageCopy.messages s ++ [said] /\
      truthy (ChatPageCopy.error s') = true).
Proof.
  intros Ht Hl Ha Hd Hp. unfold ChatPageCopy.handleSendMessage.
  rewrite Ht, Hl, Ha, Hd, Hp. simpl.
  assert (Hmsg : forall o, truthy (or_else o "Failed to send message") = true).
  { intros [m|]; simpl; [destruct (truthy m) eqn:E; [exact E|] |]; reflexivity. }
  destruct (fetch _) as [result|e]; simpl.
  - destruct (ChatPageCopy.success result),
             (ChatPageCopy.response result) as [answer|]; simpl;
      try (right; split; [reflexivity | apply Hmsg]).
    destruct (truthy answer) eqn:Hans; simpl.
    + left. exists answer. split; [exact Hans|]. split; [|reflexivity].
      rewrite <- app_assoc. reflexivity.
    + right. split; [reflexivity | apply Hmsg].
  - right. split; reflexivity.
Qed.

(** C5 (divergence).  An audio reply with an answer appends the
    assistant entry twice, once in the first update of the effect and
    once more from [newMessages].  A failed text or audio call changes
    neither [error] nor [audioError] nor the list: after a failed audio
    call both strings are empty and the page still shows "processing";
    after a failed text call [error] is what it was and the page still
    shows "loading". *)
Theorem C5_audio_reply_twice_and_failures_silent :
  forall (R : Runtime),
    (forall r answer now s,
       response r = Some answer -> truthy answer = true ->
       exists kept,
         length kept = length (messages s) /\
         messages (audioSettled (Normal r) now s) =
           kept ++ [assistant_says answer now; assistant_says answer now]) /\
    (forall e now s,
       messages (textSettled (Throw e) now s) = messages s /\
       error (textSettled (Throw e) now s) = error s /\
       audioError (textSettled (Throw e) now s) = audioError s /\
       isLoading (textSettled (Throw e) now s) = isLoading s) /\
    (forall e now now' s b,
       truthy (trim (inputText s)) = true ->
       processTextResponseLoading (textHook s) = false ->
       let s' := textSettled (Throw e) now' (fst (handleSend now s b)) in
       error s' = error s /\ audioError s' = audioError s /\ isLoading s' = true) /\
    (forall e c now now' s b,
       let s' := audioSettled (Throw e) now' (fst (onstop c now s b)) in
       error s' = "" /\ audioError s' = "" /\ isProcessingAudio s' = true /\
       messages s' = messages (fst (onstop c now s b))).
Proof.
  intros R. split; [|split; [|split]].
  - intros r answer now s Hr Ha.
    destruct (MessageFacts.audioSettled_Normal_messages r now s) as (kept & Hk & E).
    exists kept.
    split; [exact (MessageFacts.length_placeholder_filled _ _
                     (MessageFacts.fills_is_placeholder_filled _ _ _ Hk))|].
    rewrite E, (newMessages_answer r answer now Hr Ha). reflexivity.
  - intros e now s. repeat split.
  - intros e now now' s b Ht Hl s'. subst s'. unfold handleSend.
    rewrite Ht, Hl. repeat split.
  - intros e c now now' s b s'. repeat split.
Qed.

(** The reply to the voice message of [voice_sent] shows up twice, and a
    failed text call after [InputChange "hello"] leaves no error. *)
Lemma C5_witness :
  (exists kept,
     length kept = 1 /\
     messages (audioSettled (Normal TestDoubles.heard) 20 (fst TestDoubles.voice_sent)) =
       kept ++ [assistant_says "hi" 20; assistant_says "hi" 20]) /\
  (let s := setInputText "hello" init in
   let s' := textSettled (Throw "ApiError") 6
               (fst (@handleSend TestDoubles.chat_runtime 5 s init_browser)) in
   error s' = "" /\ audioError s' = "" /\ isLoading s' = true).
Proof.
  destruct (C5_audio_reply_twice_and_failures_silent TestDoubles.chat_runtime)
    as (Haudio & _ & Htext & _).
  split.
  - apply (Haudio TestDoubles.heard "hi" 20%Z (fst TestDoubles.voice_sent));
      reflexivity.
  - apply (Htext "ApiError" 5%Z 6%Z (setInputText "hello" init) init_browser);
      reflexivity.
Defined.

End ReplyFacts.

(** ** The sessionId of a conversation *)
Module SessionFacts.
Import JS Chat ProcessHooks Vocabulary.

(** *** The fetch-based page keeps and resends the sessionId *)
Section PageCopy.
Context {R : Runtime}.

Lemma handleSendMessage_sessionId authToken hasData fetch now now'
    (s : ChatPageCopy.State) :
  let '(s', reqs, _) := ChatPageCopy.handleSendMessage authToken hasData fetch now now' s in
  Forall (fun r => request_sessionId r = ChatPageCopy.sessionId s) reqs /\
  (truthy_opt (ChatPageCopy.sessionId s) = true ->
   ChatPageCopy.sessionId s' = ChatPageCopy.sessionId s) /\
  (ChatPageCopy.sessionId s' = ChatPageCopy.sessionId s \/
   exists req result,
     fetch req = Normal result /\
     ChatPageCopy.sessionId s' = ChatPageCopy.result_sessionId result).
Proof.
  unfold ChatPageCopy.handleSendMessage.
  destruct (negb (truthy (trim (ChatPageCopy.inputText s))) || ChatPageCopy.isLoading s
            || negb (truthy_opt authToken) || negb hasData
            || ChatPageCopy.isProcessingAudio s).
  { split; [constructor|]. split; [reflexivity | left; reflexivity]. }
  set (req := TextRequest "/chat/elderly" (trim (ChatPageCopy.inputText s))
                (ChatPageCopy.sessionId s)).
  destruct (fetch req) as [result|e] eqn:Hf; simpl.
  - destruct (ChatPageCopy.success result), (ChatPageCopy.response result) as [answer|];
      simpl; try (split; [repeat constructor | split; [reflexivity | left; reflexivity]]).
    destruct (truthy answer); simpl;
      [| split; [repeat constructor | split; [reflexivity | left; reflexivity]]].
    split; [repeat constructor|].
    destruct (truthy_opt (ChatPageCopy.sessionId s)); simpl.
    + split; [reflexivity | left; reflexivity].
    + split; [discriminate|].
      destruct (truthy_opt (ChatPageCopy.result_sessionId result));
        [right; exists req, result; split; [exact Hf | reflexivity] | left; reflexivity].
  - split; [repeat constructor | split; [reflexivity | left; reflexivity]].
Qed.

End PageCopy.

(** *** The hook-based page never caches or sends one *)
Import ChatPage.

Lemma textSettled_sessionId outcome now s :
  sessionId (textSettled outcome now s) = sessionId s.
Proof.
  unfold textSettled. destruct outcome as [r|e]; [|reflexivity].
  unfold processTextResponse_effect; simpl.
  destruct (truthy (text_response r)); reflexivity.
Qed.

Lemma audioSettled_sessionId outcome now s :
  sessionId (audioSettled outcome now s) = sessionId s.
Proof.
  unfold audioSettled. destruct outcome as [r|e]; [|reflexivity].
  unfold processAudioResponse_effect; simpl.
  destruct (newMessages r now); reflexivity.
Qed.

Lemma stop_Normal r b b' :
  stop r b = Normal b' ->
  sent b' = sent b /\ pendingUserMedia b' = pendingUserMedia b /\
  recording b' = filter (fun e => is_recorder r e = false) (recording b) /\
  exists stopped,
    stopped = filter (fun e => is_recorder r e = true) (recording b) /\
    stopped <> [] /\ stopping b' = stopping b ++ stopped.
Proof.
  unfold stop.
  destruct (filter (fun e => is_recorder r e = true) (recording b)) as [|x l] eqn:E;
    [discriminate|].
  intros [= <-]. simpl. repeat split. exists (x :: l). repeat split. discriminate.
Qed.

Lemma Forall_filter_keep {X} (P : X -> Prop) (Q : X -> Prop)
    `{forall x, Decision (Q x)} (l : list X) :
  Forall P l -> Forall P (filter Q l).
Proof.
  rewrite !Forall_forall. intros Hl x Hx.
  apply list_elem_of_filter in Hx. apply Hl, Hx.
Qed.

Section WithRuntime.
Context {R : Runtime}.

Lemma handleSend_sends_no_sessionId now s b :
  sessionId (fst (handleSend now s b)) = sessionId s /\
  exists new,
    sent (snd (handleSend now s b)) = sent b ++ new /\
    Forall (fun r => request_sessionId r = None) new /\
    pendingUserMedia (snd (handleSend now s b)) = pendingUserMedia b /\
    recording (snd (handleSend now s b)) = recording b /\
    stopping (snd (handleSend now s b)) = stopping b.
Proof.
  unfold handleSend.
  destruct (negb (truthy (trim (inputText s))) || processTextResponseLoading (textHook s)).
  - split; [reflexivity|]. exists []. rewrite app_nil_r. repeat split. constructor.
  - split; [reflexivity|]. eexists. split; [reflexivity|].
    repeat split. repeat constructor.
Qed.

Lemma step_no_session e sb : no_session sb -> no_session (step e sb).
Proof.
  destruct sb as [s b]. unfold no_session. simpl.
  intros (Hs & Hsent & Hp & Hr & Hst).
  destruct e as [v|now|outcome now| | | |now|outcome now| |r0]; simpl.
  - repeat split; assumption.
  - destruct (handleSend_sends_no_sessionId now s b)
      as (E & new & Es & Hnew & Ep & Er & Est).
    rewrite E, Es, Ep, Er, Est. repeat split; try assumption.
    apply Forall_app_2; assumption.
  - rewrite textSettled_sessionId. repeat split; assumption.
  - destruct (micDisabled s); [repeat split; assumption|].
    unfold handleMicToggle, stopRecording, startRecording.
    destruct (isRecording s) eqn:Erec; simpl.
    + rewrite Erec. destruct (mediaRecorderRef s) as [r|]; [|repeat split; assumption].
      destruct (stop r b) as [b'|err] eqn:Estop; [|repeat split; assumption].
      destruct (stop_Normal r b b' Estop) as (Es & Ep & Er & stopped & -> & _ & Est).
      simpl. rewrite Es, Ep, Er, Est. repeat split; try assumption.
      * apply Forall_filter_keep, Hr.
      * apply Forall_app_2; [exact Hst | apply Forall_filter_keep, Hr].
    + repeat split; try assumption.
      apply Forall_app_2; [exact Hp|]. repeat constructor. exact Hs.
  - destruct (pendingUserMedia b) as [|c rest] eqn:Ep; simpl.
    + rewrite Ep. repeat split; assumption.
    + apply Forall_cons in Hp as [Hc Hrest]. rewrite ?Ep; simpl.
      repeat split; try assumption.
      apply Forall_app_2; [exact Hr|]. repeat constructor. exact Hc.
  - destruct (pendingUserMedia b) as [|c rest] eqn:Ep; simpl.
    + rewrite Ep. repeat split; assumption.
    + apply Forall_cons in Hp as [Hc Hrest]. rewrite ?Ep; simpl.
      repeat split; assumption.
  - destruct (stopping b) as [|[r c] rest] eqn:Est; simpl.
    + rewrite Est. repeat split; assumption.
    + apply Forall_cons in Hst as [Hc Hrest]. simpl in Hc. rewrite ?Est; simpl.
      repeat split; try assumption.
      apply Forall_app_2; [exact Hsent|]. repeat constructor.
      simpl. rewrite Hc. reflexivity.
  - rewrite audioSettled_sessionId. repeat split; assumption.
  - destruct (pendingUserMedia b) as [|c rest] eqn:Ep; simpl.
    + rewrite Ep. repeat split; assumption.
    + apply Forall_cons in Hp as [Hc Hrest]. rewrite ?Ep; simpl.
      repeat split; assumption.
  - unfold recorder_ended.
    destruct (stop r0 b) as [b'|err] eqn:Estop; [|repeat split; assumption].
    destruct (stop_Normal r0 b b' Estop) as (Es & Ep & Er & stopped & -> & _ & Est).
    rewrite Es, Ep, Er, Est. repeat split; try assumption.
    + apply Forall_filter_keep, Hr.
    + apply Forall_app_2; [exact Hst | apply Forall_filter_keep, Hr].
Qed.

Lemma run_no_session es : forall sb, no_session sb -> no_session (run es sb).
Proof.
  induction es as [|e es IH]; intros sb H; [exact H|].
  apply (IH (step e sb)). apply step_no_session. exact H.
Qed.

End WithRuntime.

Lemma init_no_session : no_session (init, init_browser).
Proof. unfold no_session; simpl. repeat split; constructor. Qed.

(** C3 (divergence).  On the hook-based page [handleSend] sends its
    request without a sessionId whatever the state holds, no reply
    changes the [sessionId] cell, and so, from the initial state, no
    sequence of events ever caches a sessionId or sends one: every text
    and audio request leaves without it. *)
Theorem C3_sessionId_never_cached_nor_sent :
  forall (R : Runtime),
    (forall now s b,
       sessionId (fst (handleSend now s b)) = sessionId s /\
       exists new,
         sent (snd (handleSend now s b)) = sent b ++ new /\
         Forall (fun r => request_sessionId r = None) new) /\
    (forall outcome now s, sessionId (textSettled outcome now s) = sessionId s) /\
    (forall outcome now s, sessionId (audioSettled outcome now s) = sessionId s) /\
    (forall es,
       sessionId (fst (run es (init, init_browser))) = None /\
       Forall (fun r => request_sessionId r = None)
              (sent (snd (run es (init, init_browser))))).
Proof.
  intros R. split; [|split; [|split]].
  - intros now s b.
    destruct (handleSend_sends_no_sessionId now s b) as (E & new & Es & Hnew & _).
    split; [exact E|]. exists new. split; assumption.
  - apply textSettled_sessionId.
  - apply audioSettled_sessionId.
  - intros es.
    destruct (run_no_session es _ init_no_session) as (Hs & Hsent & _).
    split; assumption.
Qed.

(** Two text messages in a row, the first one answered: both requests
    leave without a sessionId. *)
Lemma C3_witness :
  let reply := {| text_audio := ""; text_language := "en"; text_response := "hi" |} in
  let sb := @run TestDoubles.chat_runtime
              [InputChange "hello"; Send 5; TextSettled (Normal reply) 6;
               InputChange "again"; Send 7]
              (init, init_browser) in
  sent (snd sb) = [TextRequest "process_text" "hello" None;
                   TextRequest "process_text" "again" None] /\
  sessionId (fst sb) = None /\
  Forall (fun r => request_sessionId r = None) (sent (snd sb)).
Proof.
  intros reply sb. split; [reflexivity|].
  destruct (C3_sessionId_never_cached_nor_sent TestDoubles.chat_runtime)
    as (_ & _ & _ & H).
  apply (H [InputChange "hello"; Send 5; TextSettled (Normal reply) 6;
            InputChange "again"; Send 7]).
Defined.

End SessionFacts.


(** ** Audio capture *)
Module RecordingFacts.
Import JS Chat ProcessHooks ChatPage Vocabulary.

Section WithRuntime.
Context {R : Runtime}.

(** While [isRecording] is set, a click on the mic stops the recorder
    held by the ref and starts nothing. *)
Lemma mic_click_while_recording_stops s b r c :
  micDisabled s = false -> isRecording s = true ->
  mediaRecorderRef s = Some r -> (r, c) ∈ recording b ->
  let sb' := step MicClick (s, b) in
  isRecording (fst sb') = false /\ isMicMuted (fst sb') = true /\
  pendingUserMedia (snd sb') = pendingUserMedia b /\
  nextRecorder (snd sb') = nextRecorder b /\
  recording (snd sb') = filter (fun e => is_recorder r e = false) (recording b) /\
  length (recording (snd sb')) < length (recording b).
Proof.
  intros Hd Hrec Href Hin. simpl. rewrite Hd.
  unfold handleMicToggle, stopRecording. rewrite Hrec. simpl. rewrite Href, Hrec.
  assert (Hne : filter (fun e => is_recorder r e = true) (recording b) <> []).
  { intros E.
    assert (Hin' : (r, c) ∈ filter (fun e => is_recorder r e = true) (recording b)).
    { apply list_elem_of_filter. split; [|exact Hin].
      unfold is_recorder; simpl. apply Nat.eqb_refl. }
    rewrite E in Hin'. apply not_elem_of_nil in Hin'. exact Hin'. }
  unfold stop.
  destruct (filter (fun e => is_recorder r e = true) (recording b)) as [|x l] eqn:E;
    [congruence|].
  simpl. repeat split.
  apply (length_filter_lt _ _ (r, c)); [exact Hin|].
  unfold is_recorder; simpl. rewrite Nat.eqb_refl. discriminate.
Qed.

End WithRuntime.

(** A granted [getUserMedia] always starts one more recorder, whatever
    is recording already. *)
Lemma granted_adds_a_capture c s b :
  recording (snd (startRecording_granted c s b)) =
    recording b ++ [(nextRecorder b, c)].
Proof. reflexivity. Qed.

(** From any idle state with the mic enabled and no call pending, two
    clicks followed by two grants leave two more recorders recording. *)
Lemma double_click_two_captures {R : Runtime} s b :
  micDisabled s = false -> isRecording s = false -> pendingUserMedia b = [] ->
  let c := {| closed_inputText := inputText s; closed_sessionId := sessionId s |} in
  let sb := run [MicClick; MicClick; UserMediaGranted; UserMediaGranted] (s, b) in
  recording (snd sb) = recording b ++ [(nextRecorder b, c); (S (nextRecorder b), c)] /\
  isRecording (fst sb) = true /\
  mediaRecorderRef (fst sb) = Some (S (nextRecorder b)).
Proof.
  intros Hd Hrec Hp. destruct s, b. unfold micDisabled in Hd. simpl in *. subst.
  unfold micDisabled. simpl. rewrite Hd. simpl.
  unfold micDisabled. simpl. rewrite Hd. simpl.
  rewrite <- app_assoc. repeat split.
Qed.

(** C7 (divergence).  Two clicks on the mic before the browser settles
    the first [getUserMedia] start two captures: after both calls are
    granted, recorders 0 and 1 are recording at once and the ref holds
    only recorder 1; the next click stops recorder 1 and leaves recorder
    0 recording with [isRecording] false. *)
Theorem C7_double_click_starts_two_captures :
  forall (R : Runtime),
    let clicked := run [MicClick] (init, init_browser) in
    let sb := run [MicClick; MicClick; UserMediaGranted; UserMediaGranted]
                (init, init_browser) in
    let sb' := step MicClick sb in
    micDisabled init = false /\
    isRecording (fst clicked) = false /\ micDisabled (fst clicked) = false /\
    map fst (recording (snd sb)) = [0; 1] /\
    isRecording (fst sb) = true /\ mediaRecorderRef (fst sb) = Some 1 /\
    map fst (recording (snd sb')) = [0] /\
    isRecording (fst sb') = false /\ micDisabled (fst sb') = false.
Proof.
  intros R. repeat split.
Qed.

End RecordingFacts.


(** * Further properties *)

(** ** The expiry check, completed *)
Module ExpiryMore.
Import JS JSFacts ElderlyAuthContext Vocabulary Scenarios.

(** Comparisons of the two durations, read on whole milliseconds. *)
Lemma d_min_ge now la (k : Z) :
  (inject_Z k <= d_min now la)%Q <-> (k * 60000 <= now - la)%Z.
Proof. unfold d_min, Qle; simpl. lia. Qed.

Lemma d_min_lt now la (k : Z) :
  (d_min now la < inject_Z k)%Q <-> (now - la < k * 60000)%Z.
Proof. unfold d_min, Qlt; simpl. lia. Qed.

Lemma a_hours_ge now tc (k : Z) :
  (inject_Z k <= a_hours now tc)%Q <-> (k * 3600000 <= now - tc)%Z.
Proof. unfold a_hours, Qle; simpl. lia. Qed.

Lemma a_hours_lt now tc (k : Z) :
  (a_hours now tc < inject_Z k)%Q <-> (now - tc < k * 3600000)%Z.
Proof. unfold a_hours, Qlt; simpl. lia. Qed.

Lemma tick_verdict w t la tc now :
  has_session w t la tc ->
  tick now w =
    match verdict now la tc with
    | WarnInactive => setLogoutWarning (Some "Logging-out in 1 minute due to inactivity") w
    | WarnAge => setLogoutWarning (Some "Logging-out in 1 minute") w
    | LogOut => logout w
    | Clear => setLogoutWarning None w
    end.
Proof.
  intros Hs. rewrite (ExpiryFacts.tick_session _ _ _ _ _ Hs).
  rewrite ExpiryFacts.checkExpiration_cases. unfold verdict.
  pose proof (d_min_ge now la 14) as D14. pose proof (d_min_lt now la 15) as D15.
  pose proof (d_min_ge now la 15) as D15'.
  pose proof (a_hours_ge now tc 23) as A23. pose proof (a_hours_lt now tc 24) as A24.
  pose proof (a_hours_ge now tc 24) as A24'.
  change (inject_Z 14) with 14%Q in D14. change (inject_Z 15) with 15%Q in D15, D15'.
  change (inject_Z 23) with 23%Q in A23. change (inject_Z 24) with 24%Q in A24, A24'.
  assert (G : forall x q (b : bool), ((q <= x)%Q <-> b = true) -> ge (Some x) q = b).
  { intros x q [|] H.
    - apply ge_true, H. reflexivity.
    - apply ge_false. apply Qnot_le_lt. intros Hle. apply H in Hle. discriminate. }
  assert (L : forall x q (b : bool), ((x < q)%Q <-> b = true) -> lt (Some x) q = b).
  { intros x q [|] H.
    - apply lt_true, H. reflexivity.
    - apply lt_false. apply Qnot_lt_le. intros Hlt. apply H in Hlt. discriminate. }
  rewrite (G _ 14%Q (14 * 60000 <=? now - la)%Z) by (rewrite D14; symmetry; apply Z.leb_le).
  rewrite (L _ 15%Q (now - la <? 15 * 60000)%Z) by (rewrite D15; symmetry; apply Z.ltb_lt).
  rewrite (G _ 23%Q (23 * 3600000 <=? now - tc)%Z) by (rewrite A23; symmetry; apply Z.leb_le).
  rewrite (L _ 24%Q (now - tc <? 24 * 3600000)%Z) by (rewrite A24; symmetry; apply Z.ltb_lt).
  rewrite (G _ 15%Q (15 * 60000 <=? now - la)%Z) by (rewrite D15'; symmetry; apply Z.leb_le).
  rewrite (G _ 24%Q (24 * 3600000 <=? now - tc)%Z) by (rewrite A24'; symmetry; apply Z.leb_le).
  destruct ((14 * 60000 <=? now - la)%Z && (now - la <? 15 * 60000)%Z); [reflexivity|].
  destruct ((23 * 3600000 <=? now - tc)%Z && (now - tc <? 24 * 3600000)%Z); [reflexivity|].
  destruct (15 * 60000 <=? now - la)%Z; [reflexivity|].
  destruct (24 * 3600000 <=? now - tc)%Z; reflexivity.
Qed.

Lemma verdict_windows now la tc :
  (inactivity_window now la <-> (14 * 60000 <= now - la < 15 * 60000)%Z) /\
  (token_age_window now tc <-> (23 * 3600000 <= now - tc < 24 * 3600000)%Z).
Proof.
  unfold inactivity_window, token_age_window.
  pose proof (d_min_ge now la 14). pose proof (d_min_lt now la 15).
  pose proof (a_hours_ge now tc 23). pose proof (a_hours_lt now tc 24).
  tauto.
Qed.

(** X1.  After a tick on a live session a warning is showing exactly
    when the inactivity is in [14, 15) min or the token age is in
    [23, 24) h; in every other case the warning is empty. *)
Theorem X1_warning_exactly_in_the_windows w t la tc now :
  has_session w t la tc ->
  (is_Some (logoutWarning (auth (tick now w)))
   <-> inactivity_window now la \/ token_age_window now tc).
Proof.
  intros Hs. rewrite (tick_verdict w t la tc now Hs).
  destruct (verdict_windows now la tc) as (Wd & Wa). rewrite Wd, Wa.
  unfold verdict.
  destruct ((14 * 60000 <=? now - la)%Z && (now - la <? 15 * 60000)%Z) eqn:E1.
  { simpl. split; [intros _; left; lia | intros _; eexists; reflexivity]. }
  destruct ((23 * 3600000 <=? now - tc)%Z && (now - tc <? 24 * 3600000)%Z) eqn:E2.
  { simpl. split; [intros _; right; lia | intros _; eexists; reflexivity]. }
  assert (Hno : ~ ((14 * 60000 <= now - la < 15 * 60000)%Z
                   \/ (23 * 3600000 <= now - tc < 24 * 3600000)%Z)) by lia.
  destruct ((15 * 60000 <=? now - la)%Z || (24 * 3600000 <=? now - tc)%Z); simpl;
    (split; [intros [x Hx]; discriminate Hx | intros H; destruct (Hno H)]).
Qed.

Lemma X1_witness :
  is_Some (logoutWarning (auth (tick 840000 (TestDoubles.session "tok" 0)))).
Proof.
  apply (X1_warning_exactly_in_the_windows _ "tok" 0 0 840000%Z).
  - repeat split.
  - left. split; [discriminate | reflexivity].
Defined.

Lemma tick_logout_iff w t la tc now :
  has_session w t la tc ->
  (tick now w = logout w
   <-> ~ inactivity_window now la /\ ~ token_age_window now tc /\
       ((15 <= d_min now la)%Q \/ (24 <= a_hours now tc)%Q)).
Proof.
  intros Hs. rewrite (tick_verdict w t la tc now Hs).
  destruct (verdict_windows now la tc) as (Wd & Wa). rewrite Wd, Wa.
  pose proof (d_min_ge now la 15) as D15. pose proof (a_hours_ge now tc 24) as A24.
  change (inject_Z 15) with 15%Q in D15. change (inject_Z 24) with 24%Q in A24.
  rewrite D15, A24.
  assert (Hkeep : forall v, setLogoutWarning v w <> logout w).
  { intros v Heq. apply (f_equal (fun x => token (auth x))) in Heq.
    destruct Hs as (Ht & _). simpl in Heq. congruence. }
  unfold verdict.
  destruct ((14 * 60000 <=? now - la)%Z && (now - la <? 15 * 60000)%Z) eqn:E1.
  { split; [intros H; destruct (Hkeep _ H) | lia]. }
  destruct ((23 * 3600000 <=? now - tc)%Z && (now - tc <? 24 * 3600000)%Z) eqn:E2.
  { split; [intros H; destruct (Hkeep _ H) | lia]. }
  destruct ((15 * 60000 <=? now - la)%Z || (24 * 3600000 <=? now - tc)%Z) eqn:E3.
  - split; [intros _; lia | reflexivity].
  - split; [intros H; destruct (Hkeep _ H) | lia].
Qed.

(** X2.  A tick on a live session logs out exactly when neither warning
    window applies and the inactivity has reached 15 min or the token age
    24 h. *)
Theorem X2_logout_exactly_outside_the_windows w t la tc now :
  has_session w t la tc ->
  (tick now w = logout w
   <-> ~ inactivity_window now la /\ ~ token_age_window now tc /\
       ((15 <= d_min now la)%Q \/ (24 <= a_hours now tc)%Q)).
Proof. apply tick_logout_iff. Qed.

Lemma X2_witness :
  tick 900000 (TestDoubles.session "tok" 0) = logout (TestDoubles.session "tok" 0).
Proof.
  apply (X2_logout_exactly_outside_the_windows _ "tok" 0 0 900000%Z).
  - repeat split.
  - split; [|split].
    + intros [_ H]. revert H. apply Qle_not_lt. discriminate.
    + intros [H _]. revert H. apply Qlt_not_le. reflexivity.
    + left. discriminate.
Defined.

(** X3.  Ticks never touch the stored token, and once the session is
    logged out no tick changes anything: the interval is gone. *)
Theorem X3_ticks_keep_stored_token_and_are_inert_after_logout :
  forall (nows : list Z) (w : World),
    localStorage (ticks nows w) !! "elderlyToken" = localStorage w !! "elderlyToken" /\
    ticks nows (logout w) = logout w.
Proof.
  intros nows. induction nows as [|now rest IH]; intros w; [split; reflexivity|].
  assert (Hstep : localStorage (tick now w) !! "elderlyToken"
                  = localStorage w !! "elderlyToken").
  { unfold tick.
    destruct (token (auth w)) as [t|]; [|reflexivity].
    destruct (lastActivity (auth w)) as [la|]; [|reflexivity].
    destruct (tokenCreatedAt (auth w)) as [tc|]; [|reflexivity].
    destruct (truthy t); [|reflexivity].
    unfold checkExpiration.
    repeat match goal with
           | |- context [if ?b then _ else _] => destruct b
           end;
      try reflexivity; apply LogoutFacts.logout_token_entry. }
  split.
  - unfold ticks; simpl. fold (ticks rest (tick now w)).
    rewrite (proj1 (IH (tick now w))). exact Hstep.
  - unfold ticks; simpl. change (tick now (logout w)) with (logout w).
    apply (proj2 (IH w)).
Qed.

Section WithRuntime.
Context {A : Runtime}.

Lemma after_refresh_session fetch now w t la tc :
  has_session w t la tc ->
  exists t' la', has_session (after_refresh fetch now w) t' la' tc /\
                 elderlyData (auth (after_refresh fetch now w)) = elderlyData (auth w) /\
                 (la <= la' \/ la' = now)%Z.
Proof.
  intros Hs. unfold after_refresh.
  destruct (RefreshFacts.refreshActivity_cases fetch now w)
    as [(nt & Hb & _ & E) | [(nt & w' & Hb & _ & E & Ha & _) | (_ & E)]]; rewrite E.
  - destruct Hb as (tok & r & _ & _ & _ & _ & _ & Hnt).
    destruct Hs as (_ & _ & _ & Htc).
    exists nt, now. split; [|split; [reflexivity | right; reflexivity]].
    repeat split; assumption.
  - destruct Hb as (tok & r & _ & _ & _ & _ & _ & Hnt).
    destruct Hs as (_ & _ & _ & Htc).
    exists nt, now. unfold has_session. rewrite Ha. simpl.
    split; [|split; [reflexivity | right; reflexivity]].
    repeat split; assumption.
  - exists t, la. split; [exact Hs|]. split; [reflexivity | left; lia].
Qed.

Lemma refresh_all_session calls : forall w t la tc,
  has_session w t la tc ->
  exists t' la', has_session (refresh_all calls w) t' la' tc /\
                 elderlyData (auth (refresh_all calls w)) = elderlyData (auth w).
Proof.
  induction calls as [|[fetch now] rest IH]; intros w t la tc Hs.
  - exists t, la. split; [exact Hs | reflexivity].
  - destruct (after_refresh_session fetch now w t la tc Hs) as (t1 & la1 & Hs1 & Hd1 & _).
    destruct (IH _ _ _ _ Hs1) as (t' & la' & Hs' & Hd').
    exists t', la'. split; [exact Hs'|].
    unfold refresh_all in *; simpl. rewrite Hd'. exact Hd1.
Qed.

(** X4.  Activity refreshes renew the token and the last activity but
    never the creation time: whatever refreshes happen, the session keeps
    its [tokenCreatedAt], and a tick at a token age of 24 h or more still
    logs it out (unless the inactivity warning is just showing). *)
Theorem X4_refresh_never_extends_the_24h_limit
    (calls : list ((string -> completion RefreshResult) * Z)) w t la tc :
  has_session w t la tc ->
  exists t' la',
    has_session (refresh_all calls w) t' la' tc /\
    forall now,
      (24 <= a_hours now tc)%Q -> ~ inactivity_window now la' ->
      tick now (refresh_all calls w) = logout (refresh_all calls w).
Proof.
  intros Hs.
  destruct (refresh_all_session calls w t la tc Hs) as (t' & la' & Hs' & _).
  exists t', la'. split; [exact Hs'|].
  intros now H24 Hno.
  apply (tick_logout_iff _ t' la' tc now Hs').
  split; [exact Hno|]. split; [|right; exact H24].
  intros [_ Hlt]. exact (Qlt_not_le _ _ Hlt H24).
Qed.

End WithRuntime.

(** A session of age 0 is refreshed at 23 h 59 min and checked at 24 h. *)
Lemma X4_witness :
  let renew := fun _ : string =>
                 Normal {| success := true; new_token := Some "t2"; message := None |} in
  let w := @refresh_all TestDoubles.auth_runtime [(renew, 86340000%Z)]
             (TestDoubles.session "t1" 0) in
  token (auth w) = Some "t2" /\ tick 86400000 w = logout w.
Proof.
  intros renew w.
  destruct (@X4_refresh_never_extends_the_24h_limit TestDoubles.auth_runtime
              [(renew, 86340000%Z)] (TestDoubles.session "t1" 0) "t1" 0 0)
    as (t' & la' & Hs & Hout).
  { repeat split. }
  split; [reflexivity|].
  destruct Hs as (_ & _ & Hla & _).
  assert (la' = 86340000%Z) as -> by (vm_compute in Hla; congruence).
  apply Hout.
  - discriminate.
  - intros [H _]. revert H. apply Qlt_not_le. reflexivity.
Defined.

End ExpiryMore.

(** ** The life of a session: login, reload, logout *)
Module SessionLifeMore.
Import JS JSFacts ElderlyAuthContext Vocabulary Scenarios.

Lemma login_session {A : Runtime} t d now w :
  truthy t = true -> has_session (login t d now w) t now now.
Proof. intros Ht. repeat split. exact Ht. Qed.



(** X6.  A session nobody touches after [login]: ticks leave it alone
    for the first 14 minutes, show the inactivity warning during the
    15th, and log it out from 15 minutes on (up to 23 hours). *)
Theorem X6_idle_session_timeline {A : Runtime} t d now w now' :
  truthy t = true ->
  ((now' - now < 14 * 60000)%Z ->
     tick now' (login t d now w) = login t d now w) /\
  ((14 * 60000 <= now' - now < 15 * 60000)%Z ->
     tick now' (login t d now w) =
       setLogoutWarning (Some "Logging-out in 1 minute due to inactivity")
         (login t d now w)) /\
  ((15 * 60000 <= now' - now < 23 * 3600000)%Z ->
     tick now' (login t d now w) = logout (login t d now w)).
Proof.
  intros Ht.
  pose proof (ExpiryMore.tick_verdict _ t now now now' (login_session t d now w Ht)) as E.
  unfold verdict in E. cbv zeta in E.
  repeat split; intros H; rewrite E.
  - destruct (Z.leb_spec (14 * 60000) (now' - now)); [lia|]. simpl.
    destruct (Z.leb_spec (23 * 3600000) (now' - now)); [lia|]. simpl.
    destruct (Z.leb_spec (15 * 60000) (now' - now)); [lia|].
    destruct (Z.leb_spec (24 * 3600000) (now' - now)); [lia|]. reflexivity.
  - destruct (Z.leb_spec (14 * 60000) (now' - now)); [|lia].
    destruct (Z.ltb_spec (now' - now) (15 * 60000)); [|lia]. reflexivity.
  - destruct (Z.leb_spec (14 * 60000) (now' - now)); [|lia].
    destruct (Z.ltb_spec (now' - now) (15 * 60000)); [lia|]. simpl.
    destruct (Z.leb_spec (23 * 3600000) (now' - now)); [lia|]. simpl.
    destruct (Z.leb_spec (15 * 60000) (now' - now)); [|lia]. reflexivity.
Qed.

Lemma X6_witness :
  let s := @login TestDoubles.auth_runtime "tok" TestDoubles.someone 0 (@load TestDoubles.auth_runtime ∅) in
  tick 839999 s = s /\
  tick 840000 s = setLogoutWarning (Some "Logging-out in 1 minute due to inactivity") s /\
  tick 900000 s = logout s.
Proof.
  intros s.
  destruct (@X6_idle_session_timeline TestDoubles.auth_runtime "tok"
              TestDoubles.someone 0 (@load TestDoubles.auth_runtime ∅) 839999 eq_refl) as (H1 & _ & _).
  destruct (@X6_idle_session_timeline TestDoubles.auth_runtime "tok"
              TestDoubles.someone 0 (@load TestDoubles.auth_runtime ∅) 840000 eq_refl) as (_ & H2 & _).
  destruct (@X6_idle_session_timeline TestDoubles.auth_runtime "tok"
              TestDoubles.someone 0 (@load TestDoubles.auth_runtime ∅) 900000 eq_refl) as (_ & _ & H3).
  split; [apply H1; lia | split; [apply H2; lia | apply H3; lia]].
Defined.

(** X7.  [logout] ends the authentication only until the next reload:
    right after [logout] the context is not authenticated and the login
    page stays, but after a reload the stored token is the context's
    token again, the context is authenticated, and the login page
    redirects to the chat exactly when that token has not expired. *)
Theorem X7_reload_after_logout_authenticates_again
    {A : Runtime} {J : PageBackup.Runtime} w t now :
  localStorage w !! "elderlyToken" = Some t -> truthy t = true ->
  isAuthenticated (auth (logout w)) = false /\
  PageBackup.redirectsToChat (auth (logout w)) now = false /\
  isAuthenticated (auth (load (localStorage (logout w)))) = true /\
  PageBackup.redirectsToChat (auth (load (localStorage (logout w)))) now
    = negb (PageBackup.isTokenExpired t now).
Proof.
  intros Hls Ht. split; [reflexivity|]. split; [reflexivity|].
  rewrite LogoutFacts.load_after_logout, Hls.
  unfold PageBackup.redirectsToChat, isAuthenticated; simpl. rewrite Ht.
  split; reflexivity.
Qed.

(** Logged in with a token valid until the year 2033, logged out, and
    the page reloaded: the login page sends the user back to the chat. *)
Lemma X7_witness :
  let w := TestDoubles.session "h.new.s" 0 in
  isAuthenticated (auth (@load TestDoubles.auth_runtime (localStorage (logout w)))) = true /\
  @PageBackup.redirectsToChat TestDoubles.jwt_runtime
    (auth (@load TestDoubles.auth_runtime (localStorage (logout w)))) 1000 = true.
Proof.
  intros w.
  destruct (@X7_reload_after_logout_authenticates_again TestDoubles.auth_runtime
              TestDoubles.jwt_runtime w "h.new.s" 1000 eq_refl eq_refl)
    as (_ & _ & Ha & Hr).
  split; [exact Ha|]. rewrite Hr. reflexivity.
Defined.

End SessionLifeMore.

(** ** Decoding a token, completed *)
Module TokenMore.
Import JS PageBackup Scenarios.

Lemma percent_shape (c : ascii) :
  exists h l, percent c = String "%" (String h (String l EmptyString))
              /\ hex_pair h l = Some c.
Proof.
  destruct c as [[] [] [] [] [] [] [] []];
    eexists; eexists; split; reflexivity.
Qed.

Lemma percent_encode_decode (s : string) :
  percent_decode (percent_encode s) = Some s.
Proof.
  induction s as [|c r IH]; [reflexivity|].
  destruct (percent_shape c) as (h & l & E & Hp).
  cbn [percent_encode]. rewrite E.
  change (percent_decode (String "%" (String h (String l EmptyString)) +:+ percent_encode r))
    with (match hex_pair h l, percent_decode (percent_encode r) with
          | Some c, Some rest => Some (String c rest)
          | _, _ => None
          end).
  rewrite Hp, IH. reflexivity.
Qed.

Lemma percent_encode_length (s : string) :
  String.length (percent_encode s) = 3 * String.length s.
Proof.
  induction s as [|c r IH]; [reflexivity|].
  destruct (percent_shape c) as (h & l & E & _).
  cbn [percent_encode]. rewrite E.
  change (String.length (String "%" (String h (String l EmptyString)) +:+ percent_encode r))
    with (S (S (S (String.length (percent_encode r))))).
  change (String.length (String c r)) with (S (String.length r)).
  rewrite IH. lia.
Qed.

(** X8.  The percent-encoding step of [decodeJWT] loses nothing: every
    byte becomes one group [%xx] of two lower-case hexadecimal digits, so
    the output is three times as long as the input, it can be read back
    byte by byte, and two different inputs never give the same output. *)
Theorem X8_percent_encode_is_lossless :
  forall s : string,
    String.length (percent_encode s) = 3 * String.length s /\
    percent_decode (percent_encode s) = Some s /\
    (forall s', percent_encode s = percent_encode s' -> s = s').
Proof.
  intros s. split; [apply percent_encode_length|].
  split; [apply percent_encode_decode|].
  intros s' E.
  pose proof (percent_encode_decode s) as H. rewrite E, percent_encode_decode in H.
  congruence.
Qed.

Lemma X8_witness :
  percent_encode "{}" = "%7b%7d" /\ percent_decode "%7b%7d" = Some "{}".
Proof.
  split; [reflexivity|].
  destruct (X8_percent_encode_is_lossless "{}") as (_ & H & _). exact H.
Defined.

Lemma split_no_dot (p : string) :
  has_dot p = false -> split "." p = [p].
Proof.
  induction p as [|c r IH]; [reflexivity|]. simpl.
  intros H. apply orb_false_iff in H as [Hc Hr].
  rewrite Hc, (IH Hr). reflexivity.
Qed.

Lemma split_at_first_dot (h rest : string) :
  has_dot h = false ->
  split "." (h +:+ String "." rest) = h :: split "." rest.
Proof.
  induction h as [|c r IH]; intros H; [reflexivity|].
  simpl in H. apply orb_false_iff in H as [Hc Hr].
  simpl. rewrite Hc, (IH Hr). reflexivity.
Qed.

Lemma append_empty (s : string) : s +:+ EmptyString = s.
Proof.
  induction s as [|c r IH]; [reflexivity|].
  change (String c (r +:+ EmptyString) = String c r). f_equal. exact IH.
Qed.

Lemma payload_segment (h p tail : string) :
  has_dot h = false -> has_dot p = false ->
  tail = EmptyString \/ (exists sig, tail = String "." sig) ->
  split "." (h +:+ String "." (p +:+ tail)) !! 1%nat = Some p.
Proof.
  intros Hh Hp [-> | [sig ->]]; rewrite (split_at_first_dot h _ Hh).
  - rewrite append_empty, (split_no_dot p Hp). reflexivity.
  - rewrite (split_at_first_dot p _ Hp). reflexivity.
Qed.

Section WithRuntime.
Context {R : Runtime}.

Lemma decodeJWT_of_segment (h p tail : string) :
  has_dot h = false -> has_dot p = false ->
  tail = EmptyString \/ (exists sig, tail = String "." sig) ->
  decodeJWT (h +:+ String "." (p +:+ tail)) = decodeJWT (String "." p).
Proof.
  intros Hh Hp Ht. unfold decodeJWT, decodeJWT_try.
  rewrite (payload_segment h p tail Hh Hp Ht).
  change (split "." (String "." p)) with (EmptyString :: split "." p).
  rewrite (split_no_dot p Hp). reflexivity.
Qed.

(** X9.  [decodeJWT] reads the second dot-separated segment and nothing
    else: two tokens with the same payload segment decode alike and
    expire alike, whatever their header and signature (the signature may
    even be missing). *)
Theorem X9_only_the_payload_segment_counts (h h' p tail tail' : string) :
  has_dot h = false -> has_dot h' = false -> has_dot p = false ->
  tail = EmptyString \/ (exists sig, tail = String "." sig) ->
  tail' = EmptyString \/ (exists sig, tail' = String "." sig) ->
  decodeJWT (h +:+ String "." (p +:+ tail)) = decodeJWT (h' +:+ String "." (p +:+ tail'))
  /\ forall now,
       isTokenExpired (h +:+ String "." (p +:+ tail)) now
       = isTokenExpired (h' +:+ String "." (p +:+ tail')) now.
Proof.
  intros Hh Hh' Hp Ht Ht'.
  assert (E : decodeJWT (h +:+ String "." (p +:+ tail))
              = decodeJWT (h' +:+ String "." (p +:+ tail'))).
  { rewrite (decodeJWT_of_segment h p tail Hh Hp Ht).
    rewrite (decodeJWT_of_segment h' p tail' Hh' Hp Ht'). reflexivity. }
  split; [exact E|]. intros now. unfold isTokenExpired. rewrite E. reflexivity.
Qed.

Lemma isTokenExpired_boundary token p (e : Z) now :
  decodeJWT token = Some p -> exp p = Some (inject_Z e) -> e <> 0%Z ->
  (isTokenExpired token now = false <-> (now < (e + 1) * 1000)%Z).
Proof.
  intros Hp He Hne. unfold isTokenExpired. rewrite Hp, He.
  assert (H0 : Qeq_bool (inject_Z e) 0 = false).
  { destruct (Qeq_bool (inject_Z e) 0) eqn:E0; [|reflexivity].
    apply Qeq_bool_iff in E0. unfold Qeq in E0. simpl in E0. lia. }
  rewrite H0, negb_false_iff, Qle_bool_iff, <- Zle_Qle.
  pose proof (Z.div_mod now 1000 ltac:(lia)).
  pose proof (Z.mod_pos_bound now 1000 ltac:(lia)). lia.
Qed.

(** X10.  A token whose [exp] is the whole second [e] (not 0) counts as
    valid through the end of that second and as expired from the next
    one on; an [exp] of 0 always counts as expired. *)
Theorem X10_expiry_is_at_the_end_of_the_exp_second token p (e : Z) now :
  decodeJWT token = Some p -> exp p = Some (inject_Z e) ->
  (e <> 0%Z -> (isTokenExpired token now = false <-> (now < (e + 1) * 1000)%Z)) /\
  (e = 0%Z -> isTokenExpired token now = true).
Proof.
  intros Hp He. split.
  - intros Hne. apply (isTokenExpired_boundary token p e now Hp He Hne).
  - intros ->. unfold isTokenExpired. rewrite Hp, He. reflexivity.
Qed.

End WithRuntime.

Lemma X9_witness :
  @decodeJWT TestDoubles.jwt_runtime "h.old.s" = @decodeJWT TestDoubles.jwt_runtime "x.old" /\
  forall now, @isTokenExpired TestDoubles.jwt_runtime "h.old.s" now
              = @isTokenExpired TestDoubles.jwt_runtime "x.old" now.
Proof.
  apply (@X9_only_the_payload_segment_counts TestDoubles.jwt_runtime
           "h" "x" "old" ".s" "").
  - reflexivity.
  - reflexivity.
  - reflexivity.
  - right. exists "s". reflexivity.
  - left. reflexivity.
Defined.

(** The token with [exp = 100] is valid at 100.999 s and expired at 101 s. *)
Lemma X10_witness :
  @isTokenExpired TestDoubles.jwt_runtime "h.old.s" 100999 = false /\
  @isTokenExpired TestDoubles.jwt_runtime "h.old.s" 101000 = true.
Proof.
  destruct (@X10_expiry_is_at_the_end_of_the_exp_second TestDoubles.jwt_runtime
              "h.old.s" (TestDoubles.payload_with_exp (Some (100 # 1))) 100 100999
              eq_refl eq_refl) as (H1 & _).
  destruct (@X10_expiry_is_at_the_end_of_the_exp_second TestDoubles.jwt_runtime
              "h.old.s" (TestDoubles.payload_with_exp (Some (100 # 1))) 100 101000
              eq_refl eq_refl) as (H2 & _).
  split.
  - apply H1; lia.
  - destruct (@isTokenExpired TestDoubles.jwt_runtime "h.old.s" 101000) eqn:E;
      [reflexivity|].
    assert (Hne : 100%Z <> 0%Z) by lia.
    pose proof (proj1 (H2 Hne) eq_refl). lia.
Defined.

End TokenMore.

(** ** The login page, completed *)
Module LoginMore.
Import JS PageBackup LoginFlow Scenarios.

(** *** The phone number field *)

Lemma remove_non_digits_all_digits (v : string) :
  all_digits (remove_non_digits v) = true.
Proof.
  induction v as [|c r IH]; [reflexivity|]. simpl.
  destruct (is_digit c) eqn:E; [simpl; rewrite E | ]; exact IH.
Qed.

Lemma remove_non_digits_id (v : string) :
  all_digits v = true -> remove_non_digits v = v.
Proof.
  induction v as [|c r IH]; [reflexivity|]. simpl.
  intros H. apply andb_true_iff in H as [Hc Hr].
  rewrite Hc, (IH Hr). reflexivity.
Qed.

Lemma slice_first_all_digits (k : nat) : forall s,
  all_digits s = true -> all_digits (slice_first k s) = true.
Proof.
  unfold slice_first. induction k as [|k IH]; intros [|c r] H; try reflexivity.
  simpl in *. apply andb_true_iff in H as [Hc Hr].
  rewrite Hc. exact (IH r Hr).
Qed.

Lemma slice_first_length (k : nat) : forall s,
  String.length (slice_first k s) = Nat.min k (String.length s).
Proof.
  unfold slice_first. induction k as [|k IH]; intros [|c r]; try reflexivity.
  simpl. rewrite IH. reflexivity.
Qed.

Lemma slice_first_short (k : nat) : forall s,
  String.length s <= k -> slice_first k s = s.
Proof.
  unfold slice_first. induction k as [|k IH]; intros [|c r] H; try reflexivity.
  - simpl in H. lia.
  - simpl in *. rewrite IH by lia. reflexivity.
Qed.

(** X11.  Whatever is typed or pasted into the phone field, the stored
    number holds ASCII digits only and at most ten of them; a value that
    is already such a number is stored unchanged, so filtering again
    changes nothing. *)
Theorem X11_phone_field_keeps_at_most_ten_digits :
  forall value : string,
    all_digits (phoneDigits value) = true /\
    String.length (phoneDigits value) <= 10 /\
    (all_digits value = true -> String.length value <= 10 ->
     phoneDigits value = value) /\
    phoneDigits (phoneDigits value) = phoneDigits value.
Proof.
  intros value.
  assert (Hd : all_digits (phoneDigits value) = true).
  { apply slice_first_all_digits, remove_non_digits_all_digits. }
  assert (Hl : String.length (phoneDigits value) <= 10).
  { unfold phoneDigits. rewrite slice_first_length. lia. }
  assert (Hid : forall v, all_digits v = true -> String.length v <= 10 ->
                          phoneDigits v = v).
  { intros v Hv Hlen. unfold phoneDigits.
    rewrite (remove_non_digits_id v Hv). apply slice_first_short, Hlen. }
  split; [exact Hd|]. split; [exact Hl|]. split; [apply Hid|].
  apply Hid; assumption.
Qed.

Lemma X11_witness :
  phoneDigits "+91 98765-43210 ext. 77" = "9198765432" /\
  phoneDigits "9198765432" = "9198765432".
Proof.
  split; [reflexivity|].
  destruct (X11_phone_field_keeps_at_most_ten_digits "9198765432") as (_ & _ & H & _).
  apply H; [reflexivity | simpl; lia].
Defined.

(** *** handleStart *)

Section WithRuntime.
Context {R : LoginFlow.Runtime} {J : PageBackup.Runtime}.

(** The two ways [handleStart] can end. *)
Lemma handleStart_cases fetch ls l :
  (exists body, recognised fetch ls body /\
                handleStart fetch ls l = (face_entered body l, true))
  \/ ((forall body, ~ recognised fetch ls body) /\
      exists msg loading,
        handleStart fetch ls l
        = (PageBackup.setIsLoading loading (started phone msg l), false)).
Proof.
  unfold handleStart.
  assert (Hphone : forall msg,
            exists msg' loading,
              (started phone msg l, false)
              = (PageBackup.setIsLoading loading (started phone msg' l), false)).
  { intros msg. exists msg, (isLoading l). reflexivity. }
  destruct (ls !! "elderlyToken") as [tok|] eqn:Hls.
  2:{ right. split; [|apply Hphone].
      intros body (tok & p & id & res & Ht & _). congruence. }
  destruct (truthy tok) eqn:Htr.
  2:{ right. split; [|apply Hphone].
      intros body (tok' & p & id & res & Ht & Htr' & _). congruence. }
  destruct (decodeJWT tok) as [p|] eqn:Hp.
  2:{ right. split; [|apply Hphone].
      intros body (tok' & p & id & res & Ht & _ & Hp' & _). congruence. }
  destruct (elderly_userid p) as [id|] eqn:Hid.
  2:{ right. split; [|apply Hphone].
      intros body (tok' & p' & id & res & Ht & _ & Hp' & Hid' & _). congruence. }
  destruct (truthy_number id) eqn:Hn.
  2:{ right. split; [|apply Hphone].
      intros body (tok' & p' & id' & res & Ht & _ & Hp' & Hid' & Hn' & _). congruence. }
  destruct (fetch id) as [res|e] eqn:Hf; simpl.
  - destruct (elderlyBody res) as [body|] eqn:Hb; simpl.
    + left. exists body. split; [|reflexivity].
      exists tok, p, id, res. repeat split; assumption.
    + right. split.
      * intros body (tok' & p' & id' & res' & Ht & _ & Hp' & Hid' & _ & Hf' & Hb').
        congruence.
      * eexists; exists false. reflexivity.
  - right. split.
    + intros body (tok' & p' & id' & res' & Ht & _ & Hp' & Hid' & _ & Hf' & _).
      congruence.
    + eexists; exists false. reflexivity.
Qed.

(** X12.  [handleStart] always shows the welcome card and ends in the
    phone step or in the face step.  It enters the face step exactly
    when the stored token is non-empty, decodes to a payload with a
    non-zero user id, and the backend returns that user's details; it
    then stores the details, resets the failure counter, clears the
    error and schedules the camera.  In every other case it goes to the
    phone step, leaves details and counter alone and schedules
    nothing. *)
Theorem X12_handleStart_goes_to_face_only_for_a_recognised_token fetch ls l :
  showWelcomeCard (fst (handleStart fetch ls l)) = true /\
  (step (fst (handleStart fetch ls l)) = face
   <-> exists body, recognised fetch ls body) /\
  (forall body, recognised fetch ls body ->
     handleStart fetch ls l = (face_entered body l, true)) /\
  ((forall body, ~ recognised fetch ls body) ->
     step (fst (handleStart fetch ls l)) = phone /\
     snd (handleStart fetch ls l) = false /\
     elderlyDetails (fst (handleStart fetch ls l)) = elderlyDetails l /\
     faceVerificationFailures (fst (handleStart fetch ls l))
       = faceVerificationFailures l).
Proof.
  destruct (handleStart_cases fetch ls l)
    as [(body & Hrec & E) | (Hno & msg & loading & E)]; rewrite E.
  - split; [reflexivity|]. split; [split; [intros _; exists body; exact Hrec | reflexivity]|].
    split.
    + intros body' (tok' & p' & id' & res' & Ht' & _ & Hp' & Hid' & _ & Hf' & Hb').
      destruct Hrec as (tok & p & id & res & Ht & _ & Hp0 & Hid0 & _ & Hf & Hb).
      assert (body' = body) as -> by congruence. reflexivity.
    + intros Hno. destruct (Hno body Hrec).
  - split; [reflexivity|]. split.
    + split; [discriminate | intros [body Hrec]; destruct (Hno body Hrec)].
    + split; [intros body Hrec; destruct (Hno body Hrec)|].
      intros _. repeat split.
Qed.

(** X13.  After "Enter Number" the next [handleStart] asks for the phone
    number without calling the backend, whereas after [logout] it
    behaves exactly as before the logout: it reads nothing but the
    stored token, which [logout] keeps and "Enter Number" removes. *)
Theorem X13_enter_number_forgets_the_user_logout_does_not fetch fetch' w l l0 :
  handleStart fetch
    (ElderlyAuthContext.localStorage (fst (handleEnterNumber w l))) l0
    = (started phone "" l0, false) /\
  handleStart fetch
    (ElderlyAuthContext.localStorage (fst (handleEnterNumber w l))) l0
    = handleStart fetch'
        (ElderlyAuthContext.localStorage (fst (handleEnterNumber w l))) l0 /\
  handleStart fetch (ElderlyAuthContext.localStorage (ElderlyAuthContext.logout w)) l0
    = handleStart fetch (ElderlyAuthContext.localStorage w) l0.
Proof.
  assert (E : forall f,
            handleStart f
              (ElderlyAuthContext.localStorage (fst (handleEnterNumber w l))) l0
            = (started phone "" l0, false)).
  { intros f. unfold handleStart, handleEnterNumber; simpl.
    rewrite lookup_delete_eq. reflexivity. }
  split; [apply E|]. split; [rewrite !E; reflexivity|].
  unfold handleStart. rewrite LogoutFacts.logout_token_entry. reflexivity.
Qed.

End WithRuntime.

(** JOIN is pressed with the token of user 7 in storage. *)
Lemma X12_witness :
  let ls : gmap string string := {[ "elderlyToken" := "h.old.s" ]} in
  step (fst (@handleStart flow_runtime TestDoubles.jwt_runtime knows_7 ls landing)) = face /\
  snd (@handleStart flow_runtime TestDoubles.jwt_runtime knows_7 ls landing) = true /\
  step (fst (@handleStart flow_runtime TestDoubles.jwt_runtime knows_7 ∅ landing)) = phone.
Proof.
  intros ls.
  destruct (@X12_handleStart_goes_to_face_only_for_a_recognised_token
              flow_runtime TestDoubles.jwt_runtime knows_7 ls landing)
    as (_ & _ & Hface & _).
  destruct (@X12_handleStart_goes_to_face_only_for_a_recognised_token
              flow_runtime TestDoubles.jwt_runtime knows_7 ∅ landing)
    as (_ & _ & _ & Hphone).
  assert (Hrec : @recognised flow_runtime TestDoubles.jwt_runtime knows_7 ls
                   {| userid := "7"; preferred_name := Some "Asha";
                      details_admin_id := Some "1";
                      details_caregiver_assigned := None; phone_number := None |}).
  { exists "h.old.s", (TestDoubles.payload_with_exp (Some (100 # 1))), (7 # 1).
    eexists. repeat split. }
  rewrite (Hface _ Hrec). split; [reflexivity|]. split; [reflexivity|].
  apply Hphone. intros body (tok & _ & _ & _ & Ht & _). discriminate Ht.
Defined.

(** *** The face step *)

(** X14.  The phone form leads nowhere: [handlePhoneSubmit] enters the
    face step with [isLoading] raised and never lowers it, so "Verify
    Face" stays disabled even once the camera runs, and with no user
    details loaded [captureAndVerify] returns at once, for any page
    elements and any backend. *)
Theorem X14_phone_submit_is_a_dead_end {A : ElderlyAuthContext.Runtime} l :
  elderlyDetails l = None ->
  step (handlePhoneSubmit l) = face /\
  verifyDisabled (handlePhoneSubmit l) = true /\
  verifyDisabled (startCamera true (handlePhoneSubmit l)) = true /\
  forall dom fetch now w,
    captureAndVerify dom fetch now w (handlePhoneSubmit l)
      = (w, handlePhoneSubmit l, None) /\
    captureAndVerify dom fetch now w (startCamera true (handlePhoneSubmit l))
      = (w, startCamera true (handlePhoneSubmit l), None).
Proof.
  intros Hd. repeat split.
  - unfold captureAndVerify; simpl. rewrite Hd.
    destruct (videoRef dom), (canvasRef dom); reflexivity.
  - unfold captureAndVerify; simpl. rewrite Hd.
    destruct (videoRef dom), (canvasRef dom); reflexivity.
Qed.

Lemma X14_witness :
  let l := handlePhoneSubmit (handlePhoneChange "9198765432"
                                (started phone "" landing)) in
  verifyDisabled (startCamera true l) = true /\
  @captureAndVerify TestDoubles.auth_runtime
    {| videoRef := true; canvasRef := true; context2d := true |}
    TestDoubles.rejected 0 (TestDoubles.session "t" 0) l
  = (TestDoubles.session "t" 0, l, None).
Proof.
  intros l.
  destruct (@X14_phone_submit_is_a_dead_end TestDoubles.auth_runtime
              (handlePhoneChange "9198765432" (started phone "" landing)) eq_refl)
    as (_ & _ & Hv & Hc).
  split; [exact Hv|].
  apply (Hc {| videoRef := true; canvasRef := true; context2d := true |}
            TestDoubles.rejected 0%Z (TestDoubles.session "t" 0)).
Defined.

(** X15.  However the face step is left, by "Back" or by "Enter
    Number", the camera is released, the candidate user, the phone
    number, the error and the failure counter are cleared, the page is no
    longer in the face step, and the context state is untouched; storage
    changes only by the removal of the token, and only under "Enter
    Number". *)
Theorem X15_leaving_the_face_step_resets_it :
  forall (w : ElderlyAuthContext.World) (l : LoginState),
    let w' := fst (faceButtonClick w l) in
    let l' := snd (faceButtonClick w l) in
    streamRef l' = None /\ isCapturing l' = false /\
    elderlyDetails l' = None /\ phoneNumber l' = "" /\ error l' = "" /\
    faceVerificationFailures l' = 0 /\ faceButton l' = Back /\
    step l' <> face /\
    ElderlyAuthContext.auth w' = ElderlyAuthContext.auth w /\
    (forall k : string, k <> "elderlyToken" ->
       ElderlyAuthContext.localStorage w' !! k = ElderlyAuthContext.localStorage w !! k) /\
    (faceButton l = Back -> w' = w) /\
    (faceButton l = EnterNumber ->
       ElderlyAuthContext.localStorage w' !! "elderlyToken" = None).
Proof.
  intros w l. unfold faceButtonClick.
  destruct (faceButton l) eqn:Hb; simpl.
  - repeat split; try discriminate.
    + intros k Hk. apply lookup_delete_ne. congruence.
    + intros _. apply lookup_delete_eq.
  - repeat split; try discriminate.
    destruct (elderlyDetails l); [destruct (truthy (phoneNumber l))|]; discriminate.
Qed.

(** "Enter Number" is pressed after five failed attempts. *)
Lemma X15_witness :
  let l := {| showWelcomeCard := true; step := face; phoneNumber := "";
              elderlyDetails := Some TestDoubles.asha; isCapturing := true;
              error := "Face verification failed. Please try again.";
              isLoading := false; faceVerificationFailures := 5;
              streamRef := Some {| stopped := false |} |} in
  let w := TestDoubles.session "h.old.s" 0 in
  faceButton l = EnterNumber /\
  ElderlyAuthContext.localStorage w !! "elderlyToken" = Some "h.old.s" /\
  ElderlyAuthContext.localStorage (fst (faceButtonClick w l)) !! "elderlyToken" = None /\
  ElderlyAuthContext.localStorage (fst (faceButtonClick w l)) !! "elderlyData"
    = ElderlyAuthContext.localStorage w !! "elderlyData".
Proof.
  intros l w.
  destruct (X15_leaving_the_face_step_resets_it w l)
    as (_ & _ & _ & _ & _ & _ & _ & _ & _ & Hother & _ & Hen).
  split; [reflexivity|]. split; [reflexivity|].
  split; [apply Hen; reflexivity | apply Hother; discriminate].
Defined.

Section HappyPath.
Context {R : LoginFlow.Runtime} {J : PageBackup.Runtime}
        {A : ElderlyAuthContext.Runtime}.


End HappyPath.


End LoginMore.

(** ** The fetch wrapper and getApi *)
Module FetchMore.
Import JS FetchHeaderProvider Scenarios.

(** *** Substrings *)

Lemma prefix_app (sub : string) : forall s,
  String.prefix sub s = true <-> exists post, s = sub +:+ post.
Proof.
  induction sub as [|a sub IH]; intros s.
  - split; [intros _; exists s; reflexivity | intros _; destruct s; reflexivity].
  - destruct s as [|b s]; simpl.
    + split; [discriminate | intros [post H]; discriminate H].
    + destruct (ascii_dec a b) as [->|Hne].
      * rewrite IH. split; intros [post H]; exists post.
        -- change (String b s = String b (sub +:+ post)). f_equal. exact H.
        -- change (String b s = String b (sub +:+ post)) in H. congruence.
      * split; [discriminate|]. intros [post H].
        change (String b s = String a (sub +:+ post)) in H. congruence.
Qed.

Lemma includes_contains (sub : string) : forall s,
  includes sub s = true <-> contains sub s.
Proof.
  unfold contains. induction s as [|c r IH].
  - change (includes sub EmptyString) with (String.prefix sub EmptyString).
    rewrite prefix_app. split.
    + intros [post H]. exists EmptyString, post. exact H.
    + intros ([|c pre] & post & H).
      * exists post. exact H.
      * discriminate H.
  - cbn [includes]. rewrite orb_true_iff, prefix_app, IH. split.
    + intros [[post H] | (pre & post & H)].
      * exists EmptyString, post. exact H.
      * exists (String c pre), post.
        change (String c r = String c (pre +:+ sub +:+ post)). f_equal. exact H.
    + intros ([|c' pre] & post & H).
      * left. exists post. exact H.
      * right. exists pre, post.
        change (String c r = String c' (pre +:+ sub +:+ post)) in H. congruence.
Qed.

Lemma substring_split (n : nat) : forall s,
  n <= String.length s ->
  s = substring 0 n s +:+ substring n (String.length s - n) s.
Proof.
  induction n as [|n IH]; intros s Hn.
  - rewrite Nat.sub_0_r. simpl.
    assert (E : forall t, substring 0 (String.length t) t = t).
    { induction t as [|c t IHt]; [reflexivity | simpl; f_equal; exact IHt]. }
    rewrite E. destruct s; reflexivity.
  - destruct s as [|c r]; [simpl in Hn; lia|].
    simpl in Hn. simpl substring. simpl String.length.
    change (String c r = String c (substring 0 n r +:+ substring n (String.length r - n) r)).
    f_equal. apply IH. lia.
Qed.

Lemma endsWith_app (suffix s : string) :
  endsWith suffix s = true -> exists pre, s = pre +:+ suffix.
Proof.
  unfold endsWith. intros H. apply andb_true_iff in H as [Hlen Heq].
  apply Nat.leb_le in Hlen. apply String.eqb_eq in Heq.
  exists (substring 0 (String.length s - String.length suffix) s).
  rewrite (substring_split (String.length s - String.length suffix) s) at 1 by lia.
  replace (String.length s - (String.length s - String.length suffix))
    with (String.length suffix) by lia.
  rewrite Heq. reflexivity.
Qed.

Lemma app_assoc_string (a b c : string) : (a +:+ b) +:+ c = a +:+ b +:+ c.
Proof.
  induction a as [|x a IH]; [reflexivity|].
  change (String x ((a +:+ b) +:+ c) = String x (a +:+ b +:+ c)). f_equal. exact IH.
Qed.

(** The suffix test of [isBackendUrl] adds nothing to the substring test. *)
Lemma ngrok_suffix_is_covered (h : string) :
  endsWith ".ngrok-free.dev" h = true -> includes "ngrok" h = true.
Proof.
  intros H. destruct (endsWith_app _ _ H) as [pre ->].
  apply includes_contains. exists (pre +:+ "."), "-free.dev".
  rewrite app_assoc_string. reflexivity.
Qed.

Lemma isBackendHost_iff (u : URL) :
  isBackendHost u = true <->
  port u = "8000" \/ (hostname u = "localhost" /\ port u = "")
  \/ contains "ngrok" (hostname u).
Proof.
  unfold isBackendHost. rewrite <- includes_contains.
  destruct (includes "ngrok" (hostname u)) eqn:Hi;
  destruct (endsWith ".ngrok-free.dev" (hostname u)) eqn:Hs;
    try (rewrite (ngrok_suffix_is_covered _ Hs) in Hi; discriminate);
  destruct (String.eqb_spec (hostname u) "localhost") as [Hh|Hh];
  destruct (String.eqb_spec (port u) "8000") as [Hp|Hp];
  destruct (String.eqb_spec (port u) "") as [He|He]; simpl;
    first [ split; [intros _; tauto | reflexivity]
          | split; [discriminate | intros [H | [[H1 H2] | H]]; congruence] ].
Qed.

Section WithRuntime.
Context {R : Runtime}.

Lemma isBackendUrl_iff urlStr :
  isBackendUrl urlStr = true <->
  exists u, parseURL urlStr = Normal u /\
            (port u = "8000" \/ (hostname u = "localhost" /\ port u = "")
             \/ contains "ngrok" (hostname u)).
Proof.
  unfold isBackendUrl. destruct (parseURL urlStr) as [u|e]; simpl.
  - rewrite isBackendHost_iff. split.
    + intros H. exists u. split; [reflexivity | exact H].
    + intros (u' & [= <-] & H). exact H.
  - split; [discriminate | intros (u & [=] & _)].
Qed.

(** X17.  A URL counts as a backend URL exactly when it parses and its
    port is 8000, or it is localhost on the default port, or its host
    name contains "ngrok"; a URL that does not parse never does.  (The
    separate tests for localhost on port 8000 and for the suffix
    ".ngrok-free.dev" are covered by these.) *)
Theorem X17_backend_urls_are_port_8000_localhost_or_ngrok :
  forall urlStr : string,
    (isBackendUrl urlStr = true <->
     exists u, parseURL urlStr = Normal u /\
               (port u = "8000" \/ (hostname u = "localhost" /\ port u = "")
                \/ contains "ngrok" (hostname u))) /\
    (forall e, parseURL urlStr = Throw e -> isBackendUrl urlStr = false).
Proof.
  intros urlStr. split; [apply isBackendUrl_iff|].
  intros e He. unfold isBackendUrl. rewrite He. reflexivity.
Qed.

Lemma wrappedFetch_cases input init :
  (truthy (input_url input) && isBackendUrl (input_url input) = true /\
   wrappedFetch input init =
     (input,
      Some {| method := method (assign init); body := body (assign init);
              headers := Some (<["ngrok-skip-browser-warning" := "1"]>
                                 (given_headers input init)) |}))
  \/ (truthy (input_url input) && isBackendUrl (input_url input) = false /\
      wrappedFetch input init = (input, init)).
Proof.
  unfold wrappedFetch, given_headers.
  destruct (truthy (input_url input) && isBackendUrl (input_url input));
    [left | right]; split; reflexivity.
Qed.

(** X18.  The wrapper never changes the first argument of [fetch].  For
    a backend URL it hands on an init with the same method and body whose
    headers are the given ones (those of init, else those of the Request)
    plus [ngrok-skip-browser-warning: 1]; for every other call it hands
    on init untouched.  Wrapping what it produced changes nothing more. *)
Theorem X18_wrapper_adds_one_header_and_keeps_the_rest :
  forall (input : Input) (init : option Init),
    fst (wrappedFetch input init) = input /\
    (truthy (input_url input) && isBackendUrl (input_url input) = false ->
     snd (wrappedFetch input init) = init) /\
    (truthy (input_url input) && isBackendUrl (input_url input) = true ->
     exists i' h',
       snd (wrappedFetch input init) = Some i' /\
       method i' = method (assign init) /\ body i' = body (assign init) /\
       headers i' = Some h' /\
       h' !! "ngrok-skip-browser-warning" = Some "1" /\
       forall k : string, k <> "ngrok-skip-browser-warning" ->
                          h' !! k = given_headers input init !! k) /\
    wrappedFetch (fst (wrappedFetch input init)) (snd (wrappedFetch input init))
      = wrappedFetch input init.
Proof.
  intros input init.
  destruct (wrappedFetch_cases input init) as [[Hb E] | [Hb E]]; rewrite E; cbn [fst snd].
  - split; [reflexivity|]. split; [congruence|]. split.
    + intros _. eexists; eexists. split; [reflexivity|].
      split; [reflexivity|]. split; [reflexivity|]. split; [reflexivity|].
      split; [apply lookup_insert_eq|].
      intros k Hk. apply lookup_insert_ne. congruence.
    + unfold wrappedFetch at 1. rewrite Hb. cbn [assign headers method body].
      rewrite insert_insert_eq. reflexivity.
  - split; [reflexivity|]. split; [reflexivity|]. split; [congruence|]. exact E.
Qed.

End WithRuntime.

Lemma X17_witness :
  @isBackendUrl url_runtime "http://localhost:8000/chat" = true /\
  @isBackendUrl url_runtime "http://localhost:3000/url.json" = false /\
  @isBackendUrl url_runtime "not a url" = false.
Proof.
  split; [|split].
  - apply (@X17_backend_urls_are_port_8000_localhost_or_ngrok url_runtime).
    eexists. split; [reflexivity|]. left. reflexivity.
  - reflexivity.
  - apply (proj2 (@X17_backend_urls_are_port_8000_localhost_or_ngrok url_runtime
                    "not a url") "TypeError: Invalid URL").
    reflexivity.
Defined.

Lemma X18_witness :
  let init := Some {| method := Some "POST"; body := Some "{}";
                      headers := Some {[ "content-type" := "application/json" ]} |} in
  snd (@wrappedFetch url_runtime (InString "https://example.org/x") init) = init /\
  exists i' h',
    snd (@wrappedFetch url_runtime (InString "http://localhost:8000/chat") init) = Some i' /\
    method i' = Some "POST" /\ headers i' = Some h' /\
    h' !! "content-type" = Some "application/json".
Proof.
  intros init.
  destruct (@X18_wrapper_adds_one_header_and_keeps_the_rest url_runtime
              (InString "https://example.org/x") init) as (_ & Hpass & _).
  destruct (@X18_wrapper_adds_one_header_and_keeps_the_rest url_runtime
              (InString "http://localhost:8000/chat") init) as (_ & _ & Hadd & _).
  split; [apply Hpass; reflexivity|].
  destruct (Hadd eq_refl) as (i' & h' & E & Hm & _ & Hh & _ & Hk).
  exists i', h'. split; [exact E|]. split; [exact Hm|]. split; [exact Hh|].
  rewrite Hk by discriminate. reflexivity.
Defined.

End FetchMore.

(** ** getApi *)
Module GetApiMore.
Import JS GetApi Scenarios.





Section WithRuntime.
Context {R : FetchHeaderProvider.Runtime}.

(** X20.  Through the fetch wrapper every [getApi] request reaches the
    backend with three headers: its own Content-Type and Authorization,
    and the ngrok header the wrapper adds, provided the URL parser
    reports the host of the fixed base URL. *)
Theorem X20_getApi_requests_get_the_ngrok_header
    (ss : gmap string string) (u : string) (pu : FetchHeaderProvider.URL) :
  FetchHeaderProvider.parseURL (url (request ss u)) = Normal pu ->
  FetchHeaderProvider.hostname pu = "maria-subsidizable-maximina.ngrok-free.dev" ->
  exists i' h',
    FetchHeaderProvider.wrappedFetch (fst (fetch_call (request ss u)))
                                     (snd (fetch_call (request ss u)))
      = (FetchHeaderProvider.InString (url (request ss u)), Some i') /\
    FetchHeaderProvider.method i' = Some "GET" /\
    FetchHeaderProvider.headers i' = Some h' /\
    h' !! "ngrok-skip-browser-warning" = Some "1" /\
    h' !! "content-type" = Some "application/json" /\
    h' !! "authorization" = Some (template (ss !! "authtoken")).
Proof.
  intros Hp Hh.
  assert (Hb : FetchHeaderProvider.isBackendUrl (url (request ss u)) = true).
  { apply FetchMore.isBackendUrl_iff. exists pu. split; [exact Hp|].
    right; right. rewrite Hh. exists "maria-subsidizable-maximina.", "-free.dev".
    reflexivity. }
  unfold FetchHeaderProvider.wrappedFetch, fetch_call.
  cbn [fst snd FetchHeaderProvider.input_url]. rewrite Hb.
  change (truthy (url (request ss u))) with true. cbn [andb].
  eexists; eexists. split; [reflexivity|].
  split; [reflexivity|]. split; [reflexivity|].
  split; [apply lookup_insert_eq|].
  rewrite !lookup_insert_ne by discriminate.
  cbn [FetchHeaderProvider.assign FetchHeaderProvider.headers request headers map
       list_to_map foldr fst snd].
  split.
  - change (lower "Content-Type") with "content-type".
    apply lookup_insert_eq.
  - change (lower "Content-Type") with "content-type".
    change (lower "Authorization") with "authorization".
    rewrite lookup_insert_ne by discriminate. apply lookup_insert_eq.
Qed.

End WithRuntime.

Lemma X20_witness :
  exists i' h',
    @FetchHeaderProvider.wrappedFetch url_runtime
      (fst (fetch_call (request {[ "authtoken" := "abc" ]} "users")))
      (snd (fetch_call (request {[ "authtoken" := "abc" ]} "users")))
    = (FetchHeaderProvider.InString
         "https://maria-subsidizable-maximina.ngrok-free.dev/users", Some i') /\
    FetchHeaderProvider.headers i' = Some h' /\
    h' !! "ngrok-skip-browser-warning" = Some "1" /\
    h' !! "authorization" = Some "abc".
Proof.
  destruct (@X20_getApi_requests_get_the_ngrok_header url_runtime
              {[ "authtoken" := "abc" ]} "users"
              {| FetchHeaderProvider.hostname :=
                   "maria-subsidizable-maximina.ngrok-free.dev";
                 FetchHeaderProvider.port := "" |} eq_refl eq_refl)
    as (i' & h' & E & _ & Hh & Hn & _ & Ha).
  exists i', h'. repeat split; assumption.
Defined.

End GetApiMore.

(** ** The debounced activity refresh *)
Module DebounceFacts.
Import ActivityDebounce Scenarios.

Lemma clearTimeout_own id due : clearTimeout id [(id, due)] = [].
Proof.
  unfold clearTimeout. rewrite filter_cons_False; [reflexivity|].
  unfold is_timer; simpl. rewrite Pos.eqb_refl. discriminate.
Qed.

Lemma debounce_one_timer now t :
  one_pending t ->
  pending (debounce now t) = [(nextTimer t, (now + 1000)%Z)] /\
  activityTimeoutRef (debounce now t) = Some (nextTimer t) /\
  refreshed (debounce now t) = refreshed t.
Proof.
  intros [Hp | (id & due & Hp & Hr)]; unfold debounce; simpl.
  - rewrite Hp. destruct (activityTimeoutRef t); repeat split.
  - rewrite Hr, Hp, clearTimeout_own. repeat split.
Qed.

Lemma fire_one_pending now t : one_pending t -> one_pending (fire now t).
Proof.
  intros [Hp | (id & due & Hp & Hr)]; unfold one_pending, fire; simpl; rewrite Hp.
  - left. reflexivity.
  - destruct (decide (is_due now (id, due) = false)) as [Hd|Hd].
    + right. exists id, due. rewrite filter_cons_True by exact Hd. split; [reflexivity | exact Hr].
    + left. rewrite filter_cons_False by exact Hd. reflexivity.
Qed.

Lemma step_one_pending e t : one_pending t -> one_pending (step e t).
Proof.
  intros H. destruct e as [now|now|now]; simpl.
  - destruct (debounce_one_timer now t H) as (Hp & Hr & _).
    right. eexists; eexists. split; [exact Hp | exact Hr].
  - destruct (debounce_one_timer now t H) as (Hp & Hr & _).
    right. eexists; eexists. split; [exact Hp | exact Hr].
  - apply fire_one_pending, H.
Qed.

Lemma run_one_pending es : forall t, one_pending t -> one_pending (run es t).
Proof.
  induction es as [|e es IH]; intros t H; [exact H|].
  apply (IH (step e t)), step_one_pending, H.
Qed.

Lemma init_one_pending : one_pending init.
Proof. left. reflexivity. Qed.

(** X21.  Whatever the user types and scrolls and whenever timers run,
    at most one activity timer is pending, and it is the one
    [activityTimeoutRef] holds: typing and scrolling share one debounce. *)
Theorem X21_at_most_one_activity_timer :
  forall es : list Event,
    length (pending (run es init)) <= 1 /\
    forall id due, (id, due) ∈ pending (run es init) ->
                   activityTimeoutRef (run es init) = Some id.
Proof.
  intros es.
  destruct (run_one_pending es init init_one_pending) as [Hp | (id & due & Hp & Hr)];
    rewrite Hp.
  - split; [simpl; lia|]. intros id due H. apply not_elem_of_nil in H. destruct H.
  - split; [simpl; lia|]. intros id' due' H.
    apply list_elem_of_singleton in H. congruence.
Qed.

(** A key stroke, then a scroll 100 ms later. *)
Lemma X21_witness :
  let t := run [Typed 0; Scrolled 100] init in
  exists id,
    pending t = [(id, 1100%Z)] /\ length (pending t) <= 1 /\
    activityTimeoutRef t = Some id.
Proof.
  intros t. destruct (X21_at_most_one_activity_timer [Typed 0; Scrolled 100]) as [Hlen Href].
  eexists. split; [reflexivity|]. split; [exact Hlen|].
  apply (Href _ 1100%Z). apply list_elem_of_singleton. reflexivity.
Defined.

Lemma burst_last es : forall t last,
  one_pending t -> Forall is_activity es -> is_activity last ->
  exists id,
    pending (run (es ++ [last]) t) = [(id, (event_time last + 1000)%Z)] /\
    refreshed (run (es ++ [last]) t) = refreshed t.
Proof.
  induction es as [|e es IH]; intros t last Ht Hes Hlast.
  - simpl. destruct last as [now|now|now]; [| |destruct Hlast];
      destruct (debounce_one_timer now t Ht) as (Hp & _ & Hr);
      exists (nextTimer t); split; assumption.
  - apply Forall_cons in Hes as [He Hes].
    destruct (IH (step e t) last (step_one_pending e t Ht) Hes Hlast) as (id & Hp & Hr).
    exists id. split; [exact Hp|].
    change (run ((e :: es) ++ [last]) t) with (run (es ++ [last]) (step e t)).
    rewrite Hr. destruct e as [now|now|now]; [| |destruct He];
      apply (debounce_one_timer now t Ht).
Qed.

Lemma fire_single now id due t :
  pending t = [(id, due)] ->
  ((now < due)%Z -> refreshed (fire now t) = refreshed t /\ pending (fire now t) = [(id, due)]) /\
  ((due <= now)%Z -> refreshed (fire now t) = refreshed t ++ [now] /\ pending (fire now t) = []).
Proof.
  intros Hp. unfold fire; simpl. rewrite Hp. split; intros H.
  - assert (Hd : is_due now (id, due) = false)
      by (unfold is_due; simpl; apply Z.leb_gt; exact H).
    rewrite (filter_cons_True (fun e => is_due now e = false)) by exact Hd.
    rewrite (filter_cons_False (fun e => is_due now e = true))
      by (rewrite Hd; discriminate).
    simpl. rewrite app_nil_r. split; reflexivity.
  - assert (Hd : is_due now (id, due) = true)
      by (unfold is_due; simpl; apply Z.leb_le; exact H).
    rewrite (filter_cons_True (fun e => is_due now e = true)) by exact Hd.
    rewrite (filter_cons_False (fun e => is_due now e = false))
      by (rewrite Hd; discriminate).
    split; reflexivity.
Qed.

Lemma fire_nothing_pending now t :
  pending t = [] -> refreshed (fire now t) = refreshed t.
Proof. intros Hp. unfold fire; simpl. rewrite Hp. simpl. apply app_nil_r. Qed.

(** X22.  A burst of typing and scrolling, however long, costs one
    refresh: after the burst a single timer is due one second after the
    last event; time passing before that calls nothing, the first run of
    the timers at or after it calls [refreshActivity] once, and later
    runs call nothing more. *)
Theorem X22_a_burst_of_activity_gives_one_refresh
    (before es : list Event) (last : Event) :
  Forall is_activity es -> is_activity last ->
  let t0 := run before init in
  let t := run (es ++ [last]) t0 in
  refreshed t = refreshed t0 /\
  forall now,
    ((now < event_time last + 1000)%Z -> refreshed (fire now t) = refreshed t0) /\
    ((event_time last + 1000 <= now)%Z ->
       refreshed (fire now t) = refreshed t0 ++ [now] /\
       forall now', refreshed (fire now' (fire now t)) = refreshed t0 ++ [now]).
Proof.
  intros Hes Hlast t0 t.
  destruct (burst_last es t0 last (run_one_pending before init init_one_pending)
              Hes Hlast) as (id & Hp & Hr).
  fold t in Hp, Hr. split; [exact Hr|]. intros now.
  destruct (fire_single now id _ t Hp) as (Hearly & Hdue). split.
  - intros H. rewrite (proj1 (Hearly H)). exact Hr.
  - intros H. destruct (Hdue H) as (Hf & Hempty). rewrite Hf, Hr.
    split; [reflexivity|]. intros now'.
    rewrite (fire_nothing_pending now' _ Hempty), Hf, Hr. reflexivity.
Qed.

(** Four key strokes and a scroll within 1.2 s, then silence. *)
Lemma X22_witness :
  let t := run [Typed 0; Typed 300; Typed 600; Scrolled 900; Typed 1200] init in
  refreshed (fire 2199 t) = [] /\
  refreshed (fire 2200 t) = [2200%Z] /\
  refreshed (fire 9000 (fire 2200 t)) = [2200%Z].
Proof.
  intros t.
  destruct (X22_a_burst_of_activity_gives_one_refresh []
              [Typed 0; Typed 300; Typed 600; Scrolled 900] (Typed 1200))
    as (_ & H).
  - repeat constructor.
  - exact I.
  - destruct (H 2199%Z) as (Hearly & _). destruct (H 2200%Z) as (_ & Hdue).
    split; [apply Hearly; simpl; lia|].
    destruct (Hdue ltac:(simpl; lia)) as (H1 & H2).
    split; [exact H1 | apply H2].
Defined.

End DebounceFacts.

(** ** The hook-based chat page over whole runs *)
Module ChatRunFacts.
Import JS Chat ProcessHooks ChatPage Vocabulary Scenarios.

(** *** Error strings *)

Definition quiet (s : State) : Prop :=
  error s = "" /\ (audioError s = "" \/ audioError s = "Failed to access microphone").

Section WithRuntime.
Context {R : Runtime}.

Lemma step_quiet e sb : quiet (fst sb) -> quiet (fst (step e sb)).
Proof.
  destruct sb as [s b]. unfold quiet. simpl. intros (He & Ha).
  destruct e as [v|now|outcome now| | | |now|outcome now| |r0]; simpl.
  - split; assumption.
  - unfold handleSend.
    destruct (negb (truthy (trim (inputText s))) || processTextResponseLoading (textHook s));
      split; assumption.
  - unfold textSettled. destruct outcome as [r|err]; [|split; assumption].
    unfold processTextResponse_effect; simpl.
    destruct (truthy (text_response r)); split; assumption.
  - destruct (micDisabled s); [split; assumption|].
    unfold handleMicToggle, stopRecording, startRecording.
    destruct (isRecording s) eqn:Erec; simpl.
    + rewrite Erec. destruct (mediaRecorderRef s) as [r|]; [|split; assumption].
      destruct (stop r b); split; assumption.
    + split; [exact He | left; reflexivity].
  - destruct (pendingUserMedia b); split; assumption.
  - destruct (pendingUserMedia b); [split; assumption|].
    split; [exact He | right; reflexivity].
  - destruct (stopping b) as [|[r c] rest]; [split; assumption|].
    split; [reflexivity | left; reflexivity].
  - unfold audioSettled. destruct outcome as [r|err]; [|split; assumption].
    unfold processAudioResponse_effect; simpl.
    destruct (newMessages r now); split; assumption.
  - destruct (pendingUserMedia b); [split; assumption|].
    split; [exact He | right; reflexivity].
  - split; assumption.
Qed.

Lemma run_quiet es : forall sb, quiet (fst sb) -> quiet (fst (run es sb)).
Proof.
  induction es as [|e es IH]; intros sb H; [exact H|].
  apply (IH (step e sb)), step_quiet, H.
Qed.

(** X23.  The hook-based page never reports a failed chat call: through
    any sequence of events, with replies failing or not, [error] stays
    empty, and the only text [audioError] ever holds is "Failed to access
    microphone". *)
Theorem X23_the_only_error_ever_shown_is_the_microphone_one :
  forall es : list Event,
    error (fst (run es (init, init_browser))) = "" /\
    (audioError (fst (run es (init, init_browser))) = "" \/
     audioError (fst (run es (init, init_browser))) = "Failed to access microphone").
Proof.
  intros es. apply (run_quiet es (init, init_browser)).
  split; [reflexivity | left; reflexivity].
Qed.

End WithRuntime.

(** *** User entries and requests *)

Lemma user_entries_app l1 l2 :
  user_entries (l1 ++ l2) = user_entries l1 + user_entries l2.
Proof. unfold user_entries. rewrite List.filter_app, length_app. reflexivity. Qed.

Lemma user_entries_insert (l : list Message) : forall i m c,
  l !! i = Some m -> user_entries (<[i := with_content c m]> l) = user_entries l.
Proof.
  induction l as [|x l IH]; intros [|i] m c H; try discriminate.
  - injection H as ->. unfold user_entries; simpl.
    destruct (Role_eqb (role m) user); reflexivity.
  - change (<[S i := with_content c m]> (x :: l)) with (x :: <[i := with_content c m]> l).
    change (x :: <[i := with_content c m]> l) with ([x] ++ <[i := with_content c m]> l).
    change (x :: l) with ([x] ++ l).
    rewrite !user_entries_app, (IH i m c H). reflexivity.
Qed.

Lemma user_entries_filled c (old kept : list Message) :
  fills_last_placeholder c old kept -> user_entries kept = user_entries old.
Proof.
  intros [[-> _] | (i & m & Hm & _ & _ & ->)]; [reflexivity|].
  apply user_entries_insert, Hm.
Qed.

Lemma user_entries_newMessages r now : user_entries (newMessages r now) = 0.
Proof. unfold newMessages. destruct (truthy_opt (response r)); reflexivity. Qed.

Definition balanced (sb : State * Browser) : Prop :=
  user_entries (messages (fst sb)) = length (sent (snd sb)).

Section WithRuntime.
Context {R : Runtime}.

Lemma step_balanced e sb : balanced sb -> balanced (step e sb).
Proof.
  destruct sb as [s b]. unfold balanced. simpl. intros H.
  destruct e as [v|now|outcome now| | | |now|outcome now| |r0]; simpl.
  - exact H.
  - unfold handleSend.
    destruct (negb (truthy (trim (inputText s))) || processTextResponseLoading (textHook s));
      [exact H|].
    simpl. rewrite user_entries_app, length_app, H. reflexivity.
  - rewrite MessageFacts.textSettled_messages. destruct outcome as [r|err]; [|exact H].
    destruct (truthy (text_response r)); [|exact H].
    rewrite user_entries_app, H. unfold user_entries, assistant_says. simpl. lia.
  - destruct (micDisabled s); [exact H|]. simpl.
    rewrite MessageFacts.handleMicToggle_messages.
    unfold handleMicToggle, stopRecording, startRecording.
    destruct (isRecording s) eqn:Erec; simpl; [|exact H].
    rewrite Erec. destruct (mediaRecorderRef s) as [r|]; [|exact H].
    destruct (stop r b) as [b'|err] eqn:Es; [|exact H].
    destruct (SessionFacts.stop_Normal r b b' Es) as (E & _). simpl. rewrite E. exact H.
  - destruct (pendingUserMedia b); exact H.
  - destruct (pendingUserMedia b); exact H.
  - destruct (stopping b) as [|[r c] rest]; [exact H|].
    simpl. rewrite user_entries_app, length_app, H. reflexivity.
  - destruct outcome as [r|err]; [|exact H].
    destruct (MessageFacts.audioSettled_Normal_messages r now s) as (kept & Hk & E).
    rewrite E, !user_entries_app, user_entries_newMessages.
    rewrite (user_entries_filled _ _ _ Hk), H. lia.
  - destruct (pendingUserMedia b); exact H.
  - unfold recorder_ended.
    destruct (stop r0 b) as [b'|err] eqn:Es; [|exact H].
    destruct (SessionFacts.stop_Normal r0 b b' Es) as (E & _). rewrite E. exact H.
Qed.

Lemma run_balanced es : forall sb, balanced sb -> balanced (run es sb).
Proof.
  induction es as [|e es IH]; intros sb H; [exact H|].
  apply (IH (step e sb)), step_balanced, H.
Qed.

(** X24.  Every user entry of the list stands for exactly one request
    sent, and conversely: through any run, the number of user entries
    (typed messages and voice messages, filled in or not) equals the
    number of chat requests that left the browser. *)
Theorem X24_one_request_per_user_entry :
  forall es : list Event,
    user_entries (messages (fst (run es (init, init_browser))))
    = length (sent (snd (run es (init, init_browser)))).
Proof.
  intros es. apply (run_balanced es (init, init_browser)). reflexivity.
Qed.

End WithRuntime.

End ChatRunFacts.

(** ** Recording and voice exchanges on the hook-based page *)
Module VoiceFacts.
Import JS Chat ProcessHooks ChatPage Vocabulary Scenarios.

(** While [isRecording] is set, the recorder of the ref is recording. *)
Definition ref_is_recording (sb : State * Browser) : Prop :=
  isRecording (fst sb) = true ->
  exists r c, mediaRecorderRef (fst sb) = Some r /\ (r, c) ∈ recording (snd sb).

Lemma ref_is_recording_same s b s' b' :
  isRecording s' = isRecording s -> mediaRecorderRef s' = mediaRecorderRef s ->
  recording b' = recording b ->
  ref_is_recording (s, b) -> ref_is_recording (s', b').
Proof.
  unfold ref_is_recording; simpl. intros -> -> ->. exact (fun H => H).
Qed.

Lemma textSettled_recording_cells outcome now s :
  isRecording (textSettled outcome now s) = isRecording s /\
  mediaRecorderRef (textSettled outcome now s) = mediaRecorderRef s.
Proof.
  unfold textSettled. destruct outcome as [r|err]; [|split; reflexivity].
  unfold processTextResponse_effect; simpl.
  destruct (truthy (text_response r)); split; reflexivity.
Qed.

Lemma audioSettled_recording_cells outcome now s :
  isRecording (audioSettled outcome now s) = isRecording s /\
  mediaRecorderRef (audioSettled outcome now s) = mediaRecorderRef s.
Proof.
  unfold audioSettled. destruct outcome as [r|err]; [|split; reflexivity].
  unfold processAudioResponse_effect; simpl.
  destruct (newMessages r now); split; reflexivity.
Qed.

Section WithRuntime.
Context {R : Runtime}.

Lemma step_ref_is_recording e sb :
  recorders_work e -> ref_is_recording sb -> ref_is_recording (step e sb).
Proof.
  destruct sb as [s b]. intros He H.
  destruct e as [v|now|outcome now| | | |now|outcome now| |r0]; simpl.
  - exact H.
  - unfold handleSend.
    destruct (negb (truthy (trim (inputText s))) || processTextResponseLoading (textHook s));
      exact H.
  - destruct (textSettled_recording_cells outcome now s) as [E1 E2].
    exact (ref_is_recording_same s b _ b E1 E2 eq_refl H).
  - destruct (micDisabled s); [exact H|].
    unfold handleMicToggle, stopRecording, startRecording.
    destruct (isRecording s) eqn:Erec; simpl.
    + rewrite Erec. destruct (mediaRecorderRef s) as [r|] eqn:Eref.
      * destruct (stop r b).
        -- intros Hrec; discriminate Hrec.
        -- apply (ref_is_recording_same s b); [reflexivity|reflexivity|reflexivity|exact H].
      * apply (ref_is_recording_same s b); [reflexivity|reflexivity|reflexivity|exact H].
    + intros Hrec; simpl in Hrec. rewrite Erec in Hrec. discriminate Hrec.
  - destruct (pendingUserMedia b) as [|c rest]; [exact H|].
    intros _. exists (nextRecorder b), c. simpl. split; [reflexivity|].
    apply elem_of_app. right. apply list_elem_of_singleton. reflexivity.
  - destruct (pendingUserMedia b); exact H.
  - destruct (stopping b) as [|[r c] rest]; exact H.
  - destruct (audioSettled_recording_cells outcome now s) as [E1 E2].
    exact (ref_is_recording_same s b _ b E1 E2 eq_refl H).
  - destruct He.
  - destruct He.
Qed.

Lemma run_ref_is_recording es : forall sb,
  Forall recorders_work es -> ref_is_recording sb -> ref_is_recording (run es sb).
Proof.
  induction es as [|e es IH]; intros sb Hes H; [exact H|].
  inversion Hes as [|? ? He Hrest]; subst.
  apply (IH (step e sb) Hrest), step_ref_is_recording; assumption.
Qed.

End WithRuntime.

Lemma stop_of_recording r c b : (r, c) ∈ recording b -> exists b', stop r b = Normal b'.
Proof.
  intros Hin. unfold stop.
  destruct (filter (fun e => is_recorder r e = true) (recording b)) as [|x l] eqn:E.
  - assert (Hf : (r, c) ∈ filter (fun e => is_recorder r e = true) (recording b)).
    { apply list_elem_of_filter. split; [|exact Hin].
      unfold is_recorder; simpl. apply Nat.eqb_refl. }
    rewrite E in Hf. inversion Hf.
  - eexists. reflexivity.
Qed.

(** X25.  As long as no recorder fails to start and none stops by
    itself (its tracks ending), the flag [isRecording] and the recorder
    of [mediaRecorderRef] agree, through double clicks, refused
    permissions and replies in any order: whenever the flag is set, the
    ref holds a recorder that is recording, so the [stop()] that the next
    mic click calls on it finds it recording.  A recorder that stops by
    itself breaks the agreement: the flag stays set and the ref keeps the
    recorder, which is no longer recording. *)
Theorem X25_flag_and_ref_agree_while_recorders_work :
  forall (R : Runtime),
    (forall es : list Event,
       Forall recorders_work es ->
       isRecording (fst (run es (init, init_browser))) = true ->
       exists r b',
         mediaRecorderRef (fst (run es (init, init_browser))) = Some r /\
         stop r (snd (run es (init, init_browser))) = Normal b') /\
    (forall es : list Event,
       Forall recorders_work es ->
       isRecording (fst (run es (init, init_browser))) = true ->
       forall r,
         mediaRecorderRef (fst (run es (init, init_browser))) = Some r ->
         isRecording (fst (run (es ++ [RecorderEnded r]) (init, init_browser))) = true /\
         mediaRecorderRef (fst (run (es ++ [RecorderEnded r]) (init, init_browser)))
           = Some r /\
         Forall (fun e => fst e <> r)
           (recording (snd (run (es ++ [RecorderEnded r]) (init, init_browser))))).
Proof.
  intros R. split.
  - intros es Hes Hrec.
    assert (H0 : ref_is_recording (init, init_browser)).
    { intros H; discriminate H. }
    destruct (run_ref_is_recording es _ Hes H0 Hrec) as (r & c & Href & Hin).
    destruct (stop_of_recording r c _ Hin) as [b' Hb].
    exists r, b'. split; assumption.
  - intros es Hes Hrec r Href.
    unfold run. rewrite fold_left_app. fold (run es (init, init_browser)).
    destruct (run es (init, init_browser)) as [s b]. simpl in *.
    split; [exact Hrec|]. split; [exact Href|].
    unfold recorder_ended.
    destruct (stop r b) as [b'|err] eqn:Es.
    + destruct (SessionFacts.stop_Normal r b b' Es) as (_ & _ & Er & _).
      rewrite Er. apply Forall_forall. intros e He.
      apply list_elem_of_filter in He. destruct He as [Hne _].
      unfold is_recorder in Hne. apply Nat.eqb_neq. exact Hne.
    + unfold stop in Es.
      destruct (filter (fun e => is_recorder r e = true) (recording b)) as [|x l] eqn:Ef;
        [|discriminate].
      apply Forall_forall. intros e He Heq.
      assert (Hin : e ∈ filter (fun e => is_recorder r e = true) (recording b)).
      { apply list_elem_of_filter. split; [|exact He].
        unfold is_recorder. apply Nat.eqb_eq. exact Heq. }
      rewrite Ef in Hin. inversion Hin.
Qed.

(** A recording is running; then its tracks end. *)
Lemma X25_witness :
  let sb := @run TestDoubles.chat_runtime [MicClick; UserMediaGranted]
              (init, init_browser) in
  let sb' := @run TestDoubles.chat_runtime
               [MicClick; UserMediaGranted; RecorderEnded 0] (init, init_browser) in
  isRecording (fst sb) = true /\ mediaRecorderRef (fst sb) = Some 0 /\
  (exists b', stop 0 (snd sb) = Normal b') /\
  isRecording (fst sb') = true /\ mediaRecorderRef (fst sb') = Some 0 /\
  recording (snd sb') = [] /\
  stop 0 (snd sb') = Throw "InvalidStateError".
Proof.
  intros sb sb'.
  destruct (X25_flag_and_ref_agree_while_recorders_work TestDoubles.chat_runtime)
    as (Hagree & Hended).
  assert (Hes : Forall recorders_work [MicClick; UserMediaGranted]).
  { repeat constructor. }
  destruct (Hagree [MicClick; UserMediaGranted] Hes eq_refl) as (r & b' & Href & Hstop).
  assert (r = 0) as -> by (vm_compute in Href; congruence).
  destruct (Hended [MicClick; UserMediaGranted] Hes eq_refl 0 eq_refl)
    as (Hrec' & Href' & _).
  split; [reflexivity|]. split; [exact Href|]. split; [exists b'; exact Hstop|].
  split; [exact Hrec'|]. split; [exact Href'|]. split; reflexivity.
Defined.

End VoiceFacts.

(** ** One exchange at a time *)
Module ExchangeFacts.
Import JS Chat ProcessHooks ChatPage Vocabulary Scenarios.

Lemma stop_alone r c b :
  recording b = [(r, c)] ->
  stop r b = Normal {| pendingUserMedia := pendingUserMedia b; recording := [];
                       stopping := stopping b ++ [(r, c)];
                       nextRecorder := nextRecorder b; sent := sent b |}.
Proof.
  intros E. unfold stop. rewrite E.
  assert (Hr : is_recorder r (r, c) = true) by apply Nat.eqb_refl.
  rewrite (filter_cons_True (fun e => is_recorder r e = true)) by exact Hr.
  rewrite (filter_cons_False (fun e => is_recorder r e = false))
    by (rewrite Hr; discriminate).
  reflexivity.
Qed.

Lemma replace_last_placeholder_end c (l : list Message) (m : Message) :
  is_placeholder m = true ->
  replace_last_placeholder c (length (l ++ [m])) (l ++ [m]) = l ++ [with_content c m].
Proof.
  intros Hm. rewrite length_app. simpl. rewrite Nat.add_1_r. simpl.
  rewrite (list_lookup_middle l [] m (length l) eq_refl), Hm.
  rewrite insert_app_r_alt by lia. rewrite Nat.sub_diag. reflexivity.
Qed.

Section WithRuntime.
Context {R : Runtime}.

(** X26.  One voice message from an idle page (mic enabled, not
    recording, nothing pending in the browser): click, permission granted,
    click, the recorder stops, the reply arrives.  Exactly one audio
    request leaves, carrying the page's [sessionId] when it has one; the
    list gains one user entry, stamped with the time the recorder stopped
    and holding the transcript (or the default label), followed by the
    reply entries; the earlier entries are untouched, and the page is idle
    again. *)
Theorem X26_a_voice_exchange_from_an_idle_page :
  forall (s : State) (b : Browser) (r : ProcessAudioResponse) (t1 t2 : Z),
    micDisabled s = false ->
    isRecording s = false ->
    pendingUserMedia b = [] -> recording b = [] -> stopping b = [] ->
    let s' := fst (run (voice_exchange r t1 t2) (s, b)) in
    let b' := snd (run (voice_exchange r t1 t2) (s, b)) in
    messages s' =
      messages s ++
      {| role := user; content := transcript_text r; timestamp := t1 |}
      :: newMessages r t2 ++ newMessages r t2 /\
    sent b' =
      sent b ++ [AudioRequest "process_audio"
                   (if truthy_opt (sessionId s) then sessionId s else None)] /\
    isRecording s' = false /\ isProcessingAudio s' = false /\
    micDisabled s' = false /\
    pendingUserMedia b' = [] /\ recording b' = [] /\ stopping b' = [].
Proof.
  intros s b r t1 t2 Hmic Hrec Hp Hr Hs.
  unfold micDisabled in Hmic. apply orb_false_iff in Hmic as [Hload Hproc].
  destruct s as [ms it il im sid er ir ip ae mr tb au th ah].
  destruct b as [pu rc st nx sn].
  simpl in Hload, Hproc, Hrec, Hp, Hr, Hs. subst il ip ir pu rc st.
  unfold voice_exchange, run. cbn [fold_left].
  cbn [step micDisabled handleMicToggle unlockAudio isRecording isLoading
       isProcessingAudio orb startRecording pendingUserMedia app
       startRecording_granted drop_pending tail nextRecorder recording
       stopping sent inputText sessionId messages error audioError
       mediaRecorderRef textBeforeRecordingRef audioUnlockedRef textHook
       audioHook isMicMuted stopRecording closed_inputText closed_sessionId].
  rewrite (stop_alone nx {| closed_inputText := it; closed_sessionId := sid |}
             {| pendingUserMedia := []; recording := [(nx, {| closed_inputText := it;
                  closed_sessionId := sid |})]; stopping := []; nextRecorder := S nx;
                sent := sn |} eq_refl).
  cbn [step stopping pendingUserMedia recording nextRecorder sent app onstop
       drop_stopping tail sendAudioForTranscription setMessages setAudioHook log
       closed_sessionId messages inputText isLoading isMicMuted sessionId error
       isRecording isProcessingAudio audioError mediaRecorderRef
       textBeforeRecordingRef audioUnlockedRef textHook audioHook fst snd].
  unfold audioSettled, processAudioResponse_effect, audio_update.
  cbn [createProcessAudio_settle createProcessAudio_begin try_catch bind
       setAudioHook audioHook processAudioResponse processAudioResponseLoading
       setMessages messages].
  unfold newMessages, micDisabled, transcript_text.
  destruct (truthy_opt (response r)); simpl;
    rewrite (replace_last_placeholder_end _ ms
               {| role := user; content := placeholder; timestamp := t1 |} eq_refl);
    unfold with_content; simpl; rewrite <- ?app_assoc;
    repeat split; reflexivity.
Qed.

End WithRuntime.

Lemma X26_witness :
  micDisabled init = false /\ isRecording init = false /\
  messages (fst (@run TestDoubles.chat_runtime
                   (voice_exchange TestDoubles.heard 10 20) (init, init_browser)))
  = [{| role := user; content := "hello"; timestamp := 10 |};
     {| role := assistant; content := "hi"; timestamp := 20 |};
     {| role := assistant; content := "hi"; timestamp := 20 |}].
Proof.
  split; [reflexivity|]. split; [reflexivity|].
  pose proof (@X26_a_voice_exchange_from_an_idle_page TestDoubles.chat_runtime
                init init_browser TestDoubles.heard 10 20
                eq_refl eq_refl eq_refl eq_refl eq_refl) as H.
  exact (proj1 H).
Defined.

(** *** Text calls *)

Lemma text_requests_app l1 l2 :
  text_requests (l1 ++ l2) = text_requests l1 ++ text_requests l2.
Proof. unfold text_requests. apply List.filter_app. Qed.

Definition awaiting (sb : State * Browser) : Prop :=
  processTextResponseLoading (textHook (fst sb)) = true.

Lemma audioSettled_textHook outcome now s :
  textHook (audioSettled outcome now s) = textHook s.
Proof.
  unfold audioSettled. destruct outcome as [r|err]; [|reflexivity].
  unfold processAudioResponse_effect; simpl.
  destruct (newMessages r now); reflexivity.
Qed.

Lemma handleMicToggle_textHook s b :
  textHook (fst (handleMicToggle s b)) = textHook s /\
  text_requests (sent (snd (handleMicToggle s b))) = text_requests (sent b).
Proof.
  unfold handleMicToggle, stopRecording, startRecording.
  destruct (isRecording s) eqn:E; [|split; reflexivity]. simpl. rewrite E.
  destruct (mediaRecorderRef s) as [r|]; [|split; reflexivity].
  destruct (stop r b) as [b'|err] eqn:Es; [|split; reflexivity].
  destruct (SessionFacts.stop_Normal r b b' Es) as (Eb & _).
  simpl. rewrite Eb. split; reflexivity.
Qed.

Section WithRuntime.
Context {R : Runtime}.

Lemma step_awaiting e sb :
  ~ is_text_reply e -> awaiting sb ->
  awaiting (step e sb) /\
  text_requests (sent (snd (step e sb))) = text_requests (sent (snd sb)).
Proof.
  destruct sb as [s b]. unfold awaiting. simpl. intros He H.
  destruct e as [v|now|outcome now| | | |now|outcome now| |r0]; simpl.
  - split; [exact H|reflexivity].
  - unfold handleSend. rewrite H, orb_true_r. split; [exact H|reflexivity].
  - exfalso. apply He. exact I.
  - destruct (micDisabled s); [split; [exact H|reflexivity]|].
    destruct (handleMicToggle_textHook s b) as [E1 E2].
    rewrite E1, E2. split; [exact H|reflexivity].
  - destruct (pendingUserMedia b); split; first [exact H|reflexivity].
  - destruct (pendingUserMedia b); split; first [exact H|reflexivity].
  - destruct (stopping b) as [|[r c] rest]; [split; [exact H|reflexivity]|].
    simpl. split; [exact H|].
    rewrite text_requests_app. simpl. apply app_nil_r.
  - rewrite audioSettled_textHook. split; [exact H|reflexivity].
  - destruct (pendingUserMedia b); split; first [exact H|reflexivity].
  - split; [exact H|]. unfold recorder_ended.
    destruct (stop r0 b) as [b'|err] eqn:Es; [|reflexivity].
    destruct (SessionFacts.stop_Normal r0 b b' Es) as (E & _). rewrite E. reflexivity.
Qed.

Lemma run_awaiting es : forall sb,
  Forall (fun e => ~ is_text_reply e) es -> awaiting sb ->
  awaiting (run es sb) /\
  text_requests (sent (snd (run es sb))) = text_requests (sent (snd sb)).
Proof.
  induction es as [|e es IH]; intros sb Hes H; [split; [exact H|reflexivity]|].
  inversion Hes as [|? ? He Hrest]; subst.
  destruct (step_awaiting e sb He H) as [H1 E1].
  destruct (IH (step e sb) Hrest H1) as [H2 E2].
  split; [exact H2|]. change (run (e :: es) sb) with (run es (step e sb)).
  rewrite E2. exact E1.
Qed.

(** X27.  At most one text call is in flight: while the text hook is
    loading, nothing the user or the browser does (typing, pressing send,
    the mic, recorders, audio replies) sends a text request, and the hook
    stays loading until the reply of the text call arrives. *)
Theorem X27_no_text_request_while_one_is_in_flight :
  forall (s : State) (b : Browser) (es : list Event),
    processTextResponseLoading (textHook s) = true ->
    Forall (fun e => ~ is_text_reply e) es ->
    text_requests (sent (snd (run es (s, b)))) = text_requests (sent b) /\
    processTextResponseLoading (textHook (fst (run es (s, b)))) = true.
Proof.
  intros s b es H Hes.
  destruct (run_awaiting es (s, b) Hes H) as [H1 E1].
  split; [exact E1 | exact H1].
Qed.

End WithRuntime.

Lemma X27_witness :
  processTextResponseLoading (textHook (fst TestDoubles.text_sent)) = true /\
  text_requests
    (sent (snd (@run TestDoubles.chat_runtime [InputChange "again"; Send 7; MicClick]
                  TestDoubles.text_sent)))
  = [TextRequest "process_text" "hello" None].
Proof.
  split; [reflexivity|].
  pose proof (@X27_no_text_request_while_one_is_in_flight TestDoubles.chat_runtime
                (fst TestDoubles.text_sent) (snd TestDoubles.text_sent)
                [InputChange "again"; Send 7; MicClick] eq_refl) as H.
  assert (Hes : Forall (fun e => ~ is_text_reply e)
                  [InputChange "again"; Send 7; MicClick]).
  { repeat constructor; exact (fun F => F). }
  exact (proj1 (H Hes)).
Defined.

End ExchangeFacts.

(** ** The fetch-based chat page *)
Module LegacyChatFacts.
Import JS Chat ChatPageCopy ChatPageCopyAudio Vocabulary Scenarios.

Section WithRuntime.
Context {R : Runtime}.

(** The chat call inside [sendAudioForTranscription] and the one of
    [handleSendMessage] are the same code. *)
Lemma sendAudio_after_transcript sid stt chat now now' s txt :
  transcription stt = Some txt ->
  sendAudioForTranscription sid stt chat now now' s =
  let s0 := setAudioError "" (setIsProcessingAudio true s) in
  let req := TextRequest "/chat/elderly" txt sid in
  let s1 := transcribed txt now s0 in
  let '(s2, r) :=
    match chat req with
    | Normal chatResult =>
        match success chatResult, response chatResult with
        | true, Some answer =>
            if truthy answer
            then (answered sid answer chatResult now' s1, truthy_opt (token chatResult))
            else (setError (or_else (message chatResult) "Failed to send message") s1, false)
        | _, _ => (setError (or_else (message chatResult) "Failed to send message") s1, false)
        end
    | Throw _ => (setError "Failed to send message. Please try again." s1, false)
    end in
  (setIsProcessingAudio false (setIsLoading false s2), [req], r).
Proof.
  unfold transcription, sendAudioForTranscription.
  destruct stt as [res|e]; [|discriminate].
  cbn [bind try_catch].
  destruct (stt_success res); [|discriminate].
  destruct (stt_text res) as [t|]; [|discriminate].
  destruct (truthy t) eqn:Et; [|discriminate].
  intros [= ->]. cbv zeta.
  destruct (chat (TextRequest "/chat/elderly" txt sid)) as [cr|e]; simpl; [|reflexivity].
  destruct (success cr), (response cr) as [answer|]; simpl; try reflexivity.
  destruct (truthy answer); reflexivity.
Qed.

Lemma sendAudio_without_transcript sid stt chat now now' s :
  transcription stt = None ->
  sendAudioForTranscription sid stt chat now now' s =
  (setIsProcessingAudio false
     (setAudioError "Failed to process audio"
        (setAudioError "" (setIsProcessingAudio true s))), [], false).
Proof.
  unfold transcription, sendAudioForTranscription.
  destruct stt as [res|e]; [|reflexivity].
  cbn [bind try_catch].
  destruct (stt_success res); [|reflexivity].
  destruct (stt_text res) as [t|]; [|reflexivity].
  destruct (truthy t) eqn:Et; [discriminate|]. reflexivity.
Qed.

Lemma transcription_Some stt txt :
  transcription stt = Some txt <->
  exists res, stt = Normal res /\ stt_success res = true /\
              stt_text res = Some txt /\ truthy txt = true.
Proof.
  unfold transcription. split.
  - destruct stt as [res|e]; [|discriminate].
    destruct (stt_success res) eqn:Hs; [|discriminate].
    destruct (stt_text res) as [t|] eqn:Ht; [|discriminate].
    destruct (truthy t) eqn:Htr; [|discriminate].
    intros [= <-]. exists res. repeat split; assumption.
  - intros (res & -> & -> & -> & ->). reflexivity.
Qed.

Lemma transcription_None stt :
  transcription stt = None <->
  forall res, stt = Normal res ->
              stt_success res = false \/ truthy_opt (stt_text res) = false.
Proof.
  unfold transcription. split.
  - destruct stt as [res|e]; [|discriminate].
    intros H res' [= <-].
    destruct (stt_success res); [|left; reflexivity].
    destruct (stt_text res) as [t|]; [|right; reflexivity].
    simpl. destruct (truthy t); [discriminate | right; reflexivity].
  - destruct stt as [res|e]; [|reflexivity].
    intros H. destruct (H res eq_refl) as [-> | Ht]; [reflexivity|].
    destruct (stt_success res); [|reflexivity].
    destruct (stt_text res) as [t|]; [|reflexivity].
    simpl in Ht. rewrite Ht. reflexivity.
Qed.

(** X28.  A voice message on the fetch-based page, case by case; the
    processing flag is released in every case.
    - The transcription fails (the call throws, reports no success, or
      delivers no text): nothing is sent, [refreshActivity] is not
      called, and the state is as before except that [audioError] is
      "Failed to process audio".
    - The transcription delivers the text [txt]: exactly one chat
      request leaves, with [txt] and the closed-over sessionId, and the
      text is appended as a user entry.  If the chat call throws, or the
      reply is no success or carries no answer, [error] is set (to the
      fixed text, or to the reply's message or its default) and nothing
      else changes.  If the reply carries an answer, the answer is
      appended as an assistant entry, [error] is left as it was, the
      reply's sessionId is stored when the handler closed over none, and
      [refreshActivity] is called exactly when the reply carries a
      token.  In all three cases [isLoading] ends cleared and
      [audioError] empty. *)
Theorem X28_voice_message_on_the_fetch_page :
  forall sid stt chat now now' (s : State),
    let '(s', reqs, refreshed) := sendAudioForTranscription sid stt chat now now' s in
    isProcessingAudio s' = false /\
    ((forall res, stt = Normal res ->
                  stt_success res = false \/ truthy_opt (stt_text res) = false) ->
     reqs = [] /\ refreshed = false /\
     s' = {| messages := messages s; inputText := inputText s;
             isLoading := isLoading s; sessionId := sessionId s;
             error := error s; isProcessingAudio := false;
             audioError := "Failed to process audio" |}) /\
    (forall res txt,
       stt = Normal res -> stt_success res = true ->
       stt_text res = Some txt -> truthy txt = true ->
       let said := {| role := user; content := txt; timestamp := now |} in
       reqs = [TextRequest "/chat/elderly" txt sid] /\
       (forall e,
          chat (TextRequest "/chat/elderly" txt sid) = Throw e ->
          refreshed = false /\
          s' = {| messages := messages s ++ [said]; inputText := inputText s;
                  isLoading := false; sessionId := sessionId s;
                  error := "Failed to send message. Please try again.";
                  isProcessingAudio := false; audioError := "" |}) /\
       (forall r,
          chat (TextRequest "/chat/elderly" txt sid) = Normal r ->
          success r = false \/ truthy_opt (response r) = false ->
          refreshed = false /\
          s' = {| messages := messages s ++ [said]; inputText := inputText s;
                  isLoading := false; sessionId := sessionId s;
                  error := or_else (message r) "Failed to send message";
                  isProcessingAudio := false; audioError := "" |}) /\
       (forall r answer,
          chat (TextRequest "/chat/elderly" txt sid) = Normal r ->
          success r = true -> response r = Some answer -> truthy answer = true ->
          refreshed = truthy_opt (token r) /\
          s' = {| messages :=
                    messages s ++ [said; {| role := assistant; content := answer;
                                            timestamp := now' |}];
                  inputText := inputText s; isLoading := false;
                  sessionId :=
                    if negb (truthy_opt sid) && truthy_opt (result_sessionId r)
                    then result_sessionId r else sessionId s;
                  error := error s; isProcessingAudio := false;
                  audioError := "" |})).
Proof.
  intros sid stt chat now now' s.
  destruct (transcription stt) as [txt|] eqn:Et.
  - rewrite (sendAudio_after_transcript sid stt chat now now' s txt Et). cbv zeta.
    apply transcription_Some in Et. destruct Et as (res & Hstt & Hs & Htx & Htr).
    assert (Hsame : forall res' txt', stt = Normal res' -> stt_text res' = Some txt' ->
                                      txt' = txt).
    { intros res' txt' H1 H2. congruence. }
    destruct (chat (TextRequest "/chat/elderly" txt sid)) as [cr|e] eqn:Hc.
    + destruct (success cr) eqn:Hsc.
      * destruct (response cr) as [answer|] eqn:Hr.
        -- destruct (truthy answer) eqn:Ha.
           ++ split; [reflexivity|]. split.
              { intros Hfail. destruct (Hfail res Hstt) as [H | H];
                  [congruence | rewrite Htx in H; simpl in H; congruence]. }
              intros res' txt' H1 H2 H3 H4. rewrite (Hsame res' txt' H1 H3). cbv zeta.
              rewrite Hc.
              split; [reflexivity|]. split; [discriminate|]. split.
              { intros r [= <-] [H | H];
                  [congruence | rewrite Hr in H; simpl in H; congruence]. }
              intros r answer' [= <-] _ Hr' _.
              assert (answer' = answer) as -> by congruence.
              split; [reflexivity|].
              unfold setIsProcessingAudio, ChatPageCopy.setIsLoading, answered, transcribed,
                setAudioError; simpl.
              rewrite <- app_assoc. reflexivity.
           ++ split; [reflexivity|]. split.
              { intros Hfail. destruct (Hfail res Hstt) as [H | H];
                  [congruence | rewrite Htx in H; simpl in H; congruence]. }
              intros res' txt' H1 H2 H3 H4. rewrite (Hsame res' txt' H1 H3). cbv zeta.
              rewrite Hc.
              split; [reflexivity|]. split; [discriminate|]. split.
              { intros r [= <-] _. split; reflexivity. }
              intros r answer' [= <-] _ Hr' Ha'. congruence.
        -- split; [reflexivity|]. split.
           { intros Hfail. destruct (Hfail res Hstt) as [H | H];
               [congruence | rewrite Htx in H; simpl in H; congruence]. }
           intros res' txt' H1 H2 H3 H4. rewrite (Hsame res' txt' H1 H3). cbv zeta.
           rewrite Hc.
           split; [reflexivity|]. split; [discriminate|]. split.
           { intros r [= <-] _. split; reflexivity. }
           intros r answer' [= <-] _ Hr' _. congruence.
      * split; [reflexivity|]. split.
        { intros Hfail. destruct (Hfail res Hstt) as [H | H];
            [congruence | rewrite Htx in H; simpl in H; congruence]. }
        intros res' txt' H1 H2 H3 H4. rewrite (Hsame res' txt' H1 H3). cbv zeta.
        rewrite Hc.
        split; [reflexivity|]. split; [discriminate|]. split.
        { intros r [= <-] _. split; [reflexivity|].
          destruct (response cr); reflexivity. }
        intros r answer' [= <-] Hsc' _ _. congruence.
    + split; [reflexivity|]. split.
      { intros Hfail. destruct (Hfail res Hstt) as [H | H];
          [congruence | rewrite Htx in H; simpl in H; congruence]. }
      intros res' txt' H1 H2 H3 H4. rewrite (Hsame res' txt' H1 H3). cbv zeta.
      rewrite Hc.
      split; [reflexivity|]. split.
      { intros e' _. split; reflexivity. }
      split; [discriminate | discriminate].
  - rewrite (sendAudio_without_transcript sid stt chat now now' s Et).
    split; [reflexivity|]. split.
    + intros _. repeat split.
    + intros res txt H1 H2 H3 H4.
      assert (transcription stt = Some txt) as E.
      { apply transcription_Some. exists res. repeat split; assumption. }
      congruence.
Qed.

End WithRuntime.

(** "more" is heard and answered under the sessionId "S1"; on a page
    that holds "S1" nothing is heard. *)
Lemma X28_witness :
  let heard_more : completion SttResult :=
        Normal {| stt_success := true; stt_text := Some "more" |} in
  sendAudioForTranscription None heard_more (replying (Some "S1")) 3 4 (page_with None)
  = ({| messages := [{| role := user; content := "more"; timestamp := 3 |};
                     {| role := assistant; content := "hi"; timestamp := 4 |}];
        inputText := ""; isLoading := false; sessionId := Some "S1"; error := "";
        isProcessingAudio := false; audioError := "" |},
     [TextRequest "/chat/elderly" "more" None], false) /\
  sendAudioForTranscription (Some "S1") (Throw "TypeError: Failed to fetch")
    (replying None) 5 6 (page_with (Some "S1"))
  = ({| messages := []; inputText := ""; isLoading := false;
        sessionId := Some "S1"; error := ""; isProcessingAudio := false;
        audioError := "Failed to process audio" |}, [], false).
Proof.
  intros heard_more. split.
  - pose proof (X28_voice_message_on_the_fetch_page None heard_more
                  (replying (Some "S1")) 3 4 (page_with None)) as H.
    destruct (sendAudioForTranscription None heard_more (replying (Some "S1")) 3 4
                (page_with None)) as [[s' reqs] rf].
    destruct H as (_ & _ & Hok).
    destruct (Hok _ "more" eq_refl eq_refl eq_refl eq_refl) as (-> & _ & _ & Hans).
    destruct (Hans _ "hi" eq_refl eq_refl eq_refl eq_refl) as (-> & ->).
    reflexivity.
  - pose proof (X28_voice_message_on_the_fetch_page (Some "S1")
                  (Throw "TypeError: Failed to fetch") (replying None) 5 6
                  (page_with (Some "S1"))) as H.
    destruct (sendAudioForTranscription (Some "S1") (Throw "TypeError: Failed to fetch")
                (replying None) 5 6 (page_with (Some "S1"))) as [[s' reqs] rf].
    destruct H as (_ & Hfail & _).
    destruct Hfail as (-> & -> & ->); [intros res [=]|].
    reflexivity.
Defined.

End LegacyChatFacts.

(** ** Conversations on the fetch-based page *)
Module ConversationFacts.
Import JS Chat ChatPageCopy ChatPageCopyAudio Vocabulary Scenarios.

Section WithRuntime.
Context {R : Runtime}.
Variable authToken : option string.
Variable hasElderlyData : bool.

(** *** The sessionId *)

(** A voice message whose handler closed over a sessionId leaves the
    page's sessionId alone and sends the one it closed over. *)
Lemma voice_keeps_sessionId closed stt chat now now' s :
  truthy_opt closed = true ->
  sessionId (fst (fst (sendAudioForTranscription closed stt chat now now' s)))
    = sessionId s /\
  Forall (fun q => request_sessionId q = closed)
    (snd (fst (sendAudioForTranscription closed stt chat now now' s))).
Proof.
  intros Hs. destruct (transcription stt) as [txt|] eqn:Et.
  - rewrite (LegacyChatFacts.sendAudio_after_transcript _ stt chat now now' s txt Et).
    cbv zeta.
    destruct (chat (TextRequest "/chat/elderly" txt closed)) as [cr|e];
      [|split; [reflexivity | repeat constructor]].
    destruct (success cr), (response cr) as [answer|];
      try (split; [reflexivity | repeat constructor]).
    destruct (truthy answer); [|split; [reflexivity | repeat constructor]].
    split; [|repeat constructor]. simpl. rewrite Hs. reflexivity.
  - rewrite (LegacyChatFacts.sendAudio_without_transcript _ stt chat now now' s Et).
    split; [reflexivity | constructor].
Qed.

Lemma turn_keeps_sessionId t acc :
  truthy_opt (sessionId (fst acc)) = true ->
  recorded_under (sessionId (fst acc)) t ->
  sessionId (fst (turn authToken hasElderlyData t acc)) = sessionId (fst acc) /\
  exists reqs,
    snd (turn authToken hasElderlyData t acc) = snd acc ++ reqs /\
    Forall (fun q => request_sessionId q = sessionId (fst acc)) reqs.
Proof.
  destruct acc as [s l]. simpl. intros Hs Hrec.
  destruct t as [v fetch now now'|closed stt chat now now'].
  - simpl.
    pose proof (SessionFacts.handleSendMessage_sessionId authToken hasElderlyData
                  fetch now now' (typing v s)) as H.
    destruct (handleSendMessage authToken hasElderlyData fetch now now' (typing v s))
      as [[s' reqs] rf].
    destruct H as (Hr & Hk & _). simpl in Hr, Hk. simpl.
    split; [exact (Hk Hs)|]. exists reqs. split; [reflexivity | exact Hr].
  - simpl in Hrec. subst closed. simpl.
    destruct (voice_keeps_sessionId (sessionId s) stt chat now now' s Hs) as [Hk Hr].
    destruct (sendAudioForTranscription (sessionId s) stt chat now now' s)
      as [[s' reqs] rf].
    simpl in Hk, Hr. simpl. split; [exact Hk|]. exists reqs. split; [reflexivity | exact Hr].
Qed.

Lemma conversation_keeps_sessionId ts : forall acc sid,
  sessionId (fst acc) = sid -> truthy_opt sid = true ->
  Forall (recorded_under sid) ts ->
  Forall (fun q => request_sessionId q = sid) (snd acc) ->
  sessionId (fst (conversation authToken hasElderlyData ts acc)) = sid /\
  Forall (fun q => request_sessionId q = sid)
    (snd (conversation authToken hasElderlyData ts acc)).
Proof.
  induction ts as [|t ts IH]; intros acc sid Hs Ht Hts Hl; [split; assumption|].
  change (conversation authToken hasElderlyData (t :: ts) acc)
    with (conversation authToken hasElderlyData ts (turn authToken hasElderlyData t acc)).
  subst sid. inversion Hts as [|? ? Hrec Hrest]; subst.
  destruct (turn_keeps_sessionId t acc Ht Hrec) as (Hk & reqs & Er & Hr).
  apply IH; [exact Hk | exact Ht | exact Hrest |].
  rewrite Er. apply Forall_app_2; assumption.
Qed.

(** X29.  On the fetch-based page a cached sessionId sticks as long as
    every voice message is recorded while the page holds it: then every
    turn, typed or spoken, whatever the backend replies (a different
    sessionId, an error, nothing), sends that sessionId and leaves it in
    place.  A voice message whose recording was started before the
    sessionId was cached is another matter: its handler closed over the
    empty sessionId, so its request leaves without one and the sessionId
    of its reply replaces the cached one. *)
Theorem X29_a_cached_sessionId_is_kept_unless_a_recording_predates_it :
  forall (s : State) (sid : string),
    sessionId s = Some sid -> truthy sid = true ->
    (forall ts : list Turn,
       Forall (recorded_under (Some sid)) ts ->
       sessionId (fst (conversation authToken hasElderlyData ts (s, []))) = Some sid /\
       Forall (fun q => request_sessionId q = Some sid)
         (snd (conversation authToken hasElderlyData ts (s, [])))) /\
    (forall stt chat now now' res txt r answer sid',
       stt = Normal res -> stt_success res = true ->
       stt_text res = Some txt -> truthy txt = true ->
       chat (TextRequest "/chat/elderly" txt None) = Normal r ->
       success r = true -> response r = Some answer -> truthy answer = true ->
       result_sessionId r = Some sid' -> truthy sid' = true ->
       snd (turn authToken hasElderlyData (SpokenTurn None stt chat now now') (s, []))
       = [TextRequest "/chat/elderly" txt None] /\
       sessionId (fst (turn authToken hasElderlyData
                         (SpokenTurn None stt chat now now') (s, []))) = Some sid').
Proof.
  intros s sid Hs Ht. split.
  - intros ts Hts.
    apply (conversation_keeps_sessionId ts (s, []) (Some sid) Hs Ht Hts).
    constructor.
  - intros stt chat now now' res txt r answer sid' Hstt Hsucc Htx Htr Hc Hsc Hr Ha Hsid Hsid'.
    assert (Et : transcription stt = Some txt).
    { apply LegacyChatFacts.transcription_Some. exists res. repeat split; assumption. }
    unfold turn. cbn [fst snd].
    rewrite (LegacyChatFacts.sendAudio_after_transcript None stt chat now now' s txt Et).
    cbv zeta. rewrite Hc, Hsc, Hr, Ha.
    split; [reflexivity|].
    cbn. rewrite Hsid. simpl. rewrite Hsid'. reflexivity.
Qed.

(** *** The busy flags *)

Definition at_rest (s : State) : Prop :=
  isLoading s = false /\ isProcessingAudio s = false.

Lemma handleSendMessage_at_rest fetch now now' s :
  at_rest s ->
  at_rest (fst (fst (handleSendMessage authToken hasElderlyData fetch now now' s))).
Proof.
  intros [Hl Hp]. unfold handleSendMessage.
  destruct (negb (truthy (trim (inputText s))) || isLoading s
            || negb (truthy_opt authToken) || negb hasElderlyData
            || isProcessingAudio s); [split; assumption|].
  destruct (fetch (TextRequest "/chat/elderly" (trim (inputText s)) (sessionId s)))
    as [result|e]; simpl; [|split; [reflexivity | exact Hp]].
  destruct (success result), (response result) as [answer|]; simpl;
    try (split; [reflexivity | exact Hp]).
  destruct (truthy answer); simpl; split; first [reflexivity | exact Hp].
Qed.

Lemma sendAudio_at_rest sid stt chat now now' s :
  at_rest s ->
  at_rest (fst (fst (sendAudioForTranscription sid stt chat now now' s))).
Proof.
  intros [Hl Hp]. destruct (transcription stt) as [txt|] eqn:Et.
  - rewrite (LegacyChatFacts.sendAudio_after_transcript sid stt chat now now' s txt Et).
    cbv zeta.
    destruct (chat (TextRequest "/chat/elderly" txt sid)) as [cr|e];
      [|split; reflexivity].
    destruct (success cr), (response cr) as [answer|]; try (split; reflexivity).
    destruct (truthy answer); split; reflexivity.
  - rewrite (LegacyChatFacts.sendAudio_without_transcript sid stt chat now now' s Et).
    split; [exact Hl | reflexivity].
Qed.

Lemma turn_at_rest t acc :
  at_rest (fst acc) -> at_rest (fst (turn authToken hasElderlyData t acc)).
Proof.
  destruct acc as [s l]. simpl. intros H.
  destruct t as [v fetch now now'|closed stt chat now now']; simpl.
  - pose proof (handleSendMessage_at_rest fetch now now' (typing v s) H) as H'.
    destruct (handleSendMessage authToken hasElderlyData fetch now now' (typing v s))
      as [[s' reqs] rf]. exact H'.
  - pose proof (sendAudio_at_rest closed stt chat now now' s H) as H'.
    destruct (sendAudioForTranscription closed stt chat now now' s)
      as [[s' reqs] rf]. exact H'.
Qed.

Lemma conversation_at_rest ts : forall acc,
  at_rest (fst acc) -> at_rest (fst (conversation authToken hasElderlyData ts acc)).
Proof.
  induction ts as [|t ts IH]; intros acc H; [exact H|].
  apply (IH (turn authToken hasElderlyData t acc)), turn_at_rest, H.
Qed.

(** X30.  The fetch-based page never stays busy: after any sequence of
    turns, each run to its end, with calls that succeed, fail or throw,
    [isLoading] and [isProcessingAudio] are both cleared again, so the
    next message is never refused because of an earlier failure. *)
Theorem X30_the_fetch_page_never_stays_busy :
  forall (ts : list Turn) (s : State) (sent : list Request),
    isLoading s = false -> isProcessingAudio s = false ->
    isLoading (fst (conversation authToken hasElderlyData ts (s, sent))) = false /\
    isProcessingAudio (fst (conversation authToken hasElderlyData ts (s, sent))) = false.
Proof.
  intros ts s sent Hl Hp.
  apply (conversation_at_rest ts (s, sent)). split; assumption.
Qed.

End WithRuntime.

(** With "abc" cached, three turns recorded under it send "abc" and keep
    it; a voice message recorded before "abc" was cached leaves without a
    sessionId, and "S2", which its reply names, replaces "abc". *)
Lemma X29_witness :
  snd (@conversation TestDoubles.chat_runtime (Some "token") true
         (three_turns (Some "abc")) (page_with (Some "abc"), []))
  = [TextRequest "/chat/elderly" "hello" (Some "abc");
     TextRequest "/chat/elderly" "more" (Some "abc")] /\
  sessionId (fst (@conversation TestDoubles.chat_runtime (Some "token") true
                    (three_turns (Some "abc")) (page_with (Some "abc"), [])))
  = Some "abc" /\
  snd (@turn TestDoubles.chat_runtime (Some "token") true (stale_voice (Some "S2")) (page_with (Some "abc"), []))
  = [TextRequest "/chat/elderly" "late" None] /\
  sessionId (fst (@turn TestDoubles.chat_runtime (Some "token") true (stale_voice (Some "S2"))
                    (page_with (Some "abc"), []))) = Some "S2".
Proof.
  destruct (@X29_a_cached_sessionId_is_kept_unless_a_recording_predates_it
              TestDoubles.chat_runtime (Some "token") true
              (page_with (Some "abc")) "abc" eq_refl eq_refl) as (Hkeep & Hstale).
  split; [reflexivity|].
  split.
  { apply (Hkeep (three_turns (Some "abc"))). repeat constructor. }
  destruct (Hstale (Normal {| stt_success := true; stt_text := Some "late" |})
              (replying (Some "S2")) 7%Z 8%Z _ "late" _ "hi" "S2"
              eq_refl eq_refl eq_refl eq_refl eq_refl eq_refl eq_refl eq_refl
              eq_refl eq_refl) as (Hreq & Hsid).
  split; [reflexivity | exact Hsid].
Defined.

Lemma X30_witness :
  isLoading (page_with None) = false /\ isProcessingAudio (page_with None) = false /\
  truthy (error (fst (@conversation TestDoubles.chat_runtime (Some "token") true
                        (three_turns None) (page_with None, [])))) = true /\
  isLoading (fst (@conversation TestDoubles.chat_runtime (Some "token") true
                    (three_turns None) (page_with None, []))) = false /\
  isProcessingAudio (fst (@conversation TestDoubles.chat_runtime (Some "token") true
                            (three_turns None) (page_with None, []))) = false.
Proof.
  split; [reflexivity|]. split; [reflexivity|]. split; [reflexivity|].
  exact (@X30_the_fetch_page_never_stays_busy TestDoubles.chat_runtime
           (Some "token") true (three_turns None) (page_with None) [] eq_refl eq_refl).
Defined.

End ConversationFacts.
